(** * ytdl.py: the download orchestrator, embedded and verified

    A shallow embedding of [src/ytdl.py]: config repair
    ([backup_config], [fix_config_if_needed]), the server supervisor
    ([is_server_running], [start_server]), the single-item downloader
    ([download_single]) and the batch orchestrator ([download_batch]).

    The program is effectful: it reads and writes files, scans the process
    table, probes a local server and runs subprocesses.  It is modelled in
    a state-and-exception monad [M].  What the operating system answers
    (process table, liveness probe, subprocess results) is an oracle in the
    environment [Env], indexed by how many times it was asked; what the
    program changes (files, console, clock) is the [State].

    Console output made by the [log_*] helpers and the batch summary are
    modelled; banners, separators and listings made by bare [print] calls
    are decoration and are left out, as are the ANSI colour codes.

    A Python [str] is held as the bytes of its UTF-8 encoding, so that
    [strip] and slicing go by characters, not by bytes.  The first
    embedding takes every [stat] behind [Path.exists()] to be granted;
    the module [Strict], further down, embeds the callers of [exists()]
    again with the [PermissionError] of a denied [stat]. *)

From Stdlib Require Import ZArith Ascii.
From stdpp Require Import base option list strings gmap pretty.

Set Warnings "-register-all".
Local Open Scope Z_scope.

(** ** Python strings *)

Module Str.

(** [s.startswith(p)] *)
Fixpoint startswith (p s : string) : bool :=
  match p, s with
  | EmptyString, _ => true
  | String a p', String b s' => if Ascii.eqb a b then startswith p' s' else false
  | String _ _, EmptyString => false
  end.

(** [p in s] for two strings *)
Fixpoint contains (p s : string) : bool :=
  startswith p s ||
  match s with
  | EmptyString => false
  | String _ s' => contains p s'
  end.

(** [s.replace(old, new)] for a non-empty [old]: one left-to-right scan,
    occurrences do not overlap and the text put in is not scanned again.
    [skip] counts the characters of a matched occurrence still to drop. *)
Fixpoint replace_go (old new : string) (skip : nat) (s : string) : string :=
  match s with
  | EmptyString => EmptyString
  | String c s' =>
      match skip with
      | S k => replace_go old new k s'
      | O =>
          if startswith old s
          then new +:+ replace_go old new (Nat.pred (String.length old)) s'
          else String c (replace_go old new O s')
      end
  end.

(** With an empty [old] Python puts [new] before every character and at
    the end. *)
Fixpoint interleave (new s : string) : string :=
  match s with
  | EmptyString => new
  | String c s' => new +:+ String c (interleave new s')
  end.

Definition replace (old new s : string) : string :=
  match old with
  | EmptyString => interleave new s
  | String _ _ => replace_go old new O s
  end.

(** [c.isspace()] for a character of the ASCII range: tab, LF, VT, FF,
    CR, the four separators 28..31 and the space. *)
Definition isspace (c : ascii) : bool :=
  let n := nat_of_ascii c in
  ((9 <=? n)%nat && (n <=? 13)%nat) || ((28 <=? n)%nat && (n <=? 32)%nat).

(** The byte at index [i], 0 past the end. *)
Definition byte_at (i : nat) (s : string) : nat :=
  match String.get i s with
  | Some c => nat_of_ascii c
  | None => 0%nat
  end.

(** A string holds its text as UTF-8.  [space_width s] is the number of
    bytes of the white-space character [s] starts with, and 0 when it
    starts with none.  Outside ASCII, the characters [str.isspace] holds
    for are U+0085 and U+00A0 (194 133, 194 160), U+1680 (225 154 128),
    U+2000 to U+200A, U+2028, U+2029 and U+202F (226 128 and 128..138,
    168, 169, 175), U+205F (226 129 159) and U+3000 (227 128 128). *)
Definition space_width (s : string) : nat :=
  match s with
  | EmptyString => 0%nat
  | String c _ =>
      let b0 := nat_of_ascii c in
      let b1 := byte_at 1 s in
      let b2 := byte_at 2 s in
      if isspace c then 1%nat
      else if (b0 =? 194)%nat && ((b1 =? 133)%nat || (b1 =? 160)%nat) then 2%nat
      else if (b0 =? 225)%nat && (b1 =? 154)%nat && (b2 =? 128)%nat then 3%nat
      else if (b0 =? 226)%nat && (b1 =? 128)%nat &&
              (((128 <=? b2)%nat && (b2 <=? 138)%nat) || (b2 =? 168)%nat ||
               (b2 =? 169)%nat || (b2 =? 175)%nat) then 3%nat
      else if (b0 =? 226)%nat && (b1 =? 129)%nat && (b2 =? 159)%nat then 3%nat
      else if (b0 =? 227)%nat && (b1 =? 128)%nat && (b2 =? 128)%nat then 3%nat
      else 0%nat
  end.

(** [s.lstrip()]; [skip] counts the bytes of a white-space character
    still to drop. *)
Fixpoint lstrip_go (skip : nat) (s : string) : string :=
  match s with
  | EmptyString => EmptyString
  | String _ s' =>
      match skip with
      | S k => lstrip_go k s'
      | O =>
          match space_width s with
          | O => s
          | S k => lstrip_go k s'
          end
      end
  end.

Definition lstrip (s : string) : string := lstrip_go O s.

(** [s.rstrip()]: the text up to the longest tail that is white space
    only. *)
Fixpoint rstrip (s : string) : string :=
  match s with
  | EmptyString => EmptyString
  | String c s' =>
      if String.eqb (lstrip s) EmptyString then EmptyString
      else String c (rstrip s')
  end.

(** [s.strip()] *)
Definition strip (s : string) : string := rstrip (lstrip s).

(** A byte that continues a character of more than one byte (128..191). *)
Definition continues (c : ascii) : bool :=
  let n := nat_of_ascii c in (128 <=? n)%nat && (n <=? 191)%nat.

(** [s[:n]]: the first [n] characters, each with all its bytes. *)
Fixpoint take (n : nat) (s : string) : string :=
  match s with
  | EmptyString => EmptyString
  | String c s' =>
      if continues c then String c (take n s')
      else match n with
           | O => EmptyString
           | S k => String c (take k s')
           end
  end.

(** [sep.join(xs)] *)
Definition join (sep : string) (xs : list string) : string := String.concat sep xs.

End Str.

(** ** pathlib paths

    An absolute path is the list of its components below the root. *)

Module Path.

Definition t := list string.

(** [p.parent]; the root is its own parent. *)
Definition parent (p : t) : t := removelast p.

(** [p.name] *)
Definition name (p : t) : string := List.last p EmptyString.

(** [name.rfind('.')] *)
Fixpoint rfind_dot (s : string) : option nat :=
  match s with
  | EmptyString => None
  | String c s' =>
      match rfind_dot s' with
      | Some i => Some (S i)
      | None => if Ascii.eqb c "." then Some O else None
      end
  end.

(** [p.stem]: the name without its last suffix; a leading or a trailing
    dot starts no suffix. *)
Definition stem (p : t) : string :=
  let n := name p in
  match rfind_dot n with
  | Some i =>
      if (0 <? i)%nat && (i <? String.length n - 1)%nat
      then String.substring 0 i n else n
  | None => n
  end.

(** Splitting a path string at its slashes. *)
Fixpoint split_go (s : string) : string * list string :=
  match s with
  | EmptyString => (EmptyString, [])
  | String c s' =>
      let '(hd, tl) := split_go s' in
      if Ascii.eqb c "/" then (EmptyString, hd :: tl) else (String c hd, tl)
  end.

Definition keep (x : string) : bool :=
  negb (String.eqb x "") && negb (String.eqb x ".").

(** The components of a path string: empty ones and [.] are dropped. *)
Definition parts (s : string) : list string :=
  let '(hd, tl) := split_go s in List.filter keep (hd :: tl).

(** [base / s]: an absolute [s] replaces [base]. *)
Definition join (base : t) (s : string) : t :=
  if Str.startswith "/" s then parts s else base ++ parts s.

(** [str(p)] *)
Definition str (p : t) : string := "/" +:+ Str.join "/" p.

End Path.

Abbreviation path := Path.t.

(** ** JSON documents as [json.load] returns them *)

Inductive json : Type :=
| JNull
| JBool (b : bool)
| JInt (n : Z)
| JFloat (repr : string)
| JStr (s : string)
| JArr (items : list json)
| JObj (fields : list (string * json)).

(** A Python [dict] with string keys, in insertion order. *)
Abbreviation dict := (list (string * json)).

Module Dict.

(** [d.get(k)] *)
Fixpoint get (k : string) (d : dict) : option json :=
  match d with
  | [] => None
  | (k', v) :: d' => if String.eqb k k' then Some v else get k d'
  end.

(** [d.pop(k, None)], for its effect on [d] *)
Fixpoint pop (k : string) (d : dict) : dict :=
  match d with
  | [] => []
  | (k', v) :: d' => if String.eqb k k' then pop k d' else (k', v) :: pop k d'
  end.

(** [d[k] = v]: an existing key keeps its place. *)
Fixpoint set (k : string) (v : json) (d : dict) : dict :=
  match d with
  | [] => [(k, v)]
  | (k', v') :: d' =>
      if String.eqb k k' then (k', v) :: d' else (k', v') :: set k v d'
  end.

End Dict.

(** [repr(v)].  A string inside a container is written between single
    quotes without escapes: Python's choice of quote and its escapes
    neither make nor break an occurrence of a text free of quotes and
    backslashes, which is all [fix_config_if_needed] asks of it. *)
Fixpoint py_repr (v : json) : string :=
  match v with
  | JNull => "None"
  | JBool true => "True"
  | JBool false => "False"
  | JInt n => pretty n
  | JFloat r => r
  | JStr s => "'" +:+ s +:+ "'"
  | JArr xs => "[" +:+ Str.join ", " (List.map py_repr xs) +:+ "]"
  | JObj kvs =>
      "{" +:+ Str.join ", "
        (List.map (fun '(k, x) => "'" +:+ k +:+ "': " +:+ py_repr x) kvs) +:+ "}"
  end.

(** [str(v)] *)
Definition py_str (v : json) : string :=
  match v with
  | JStr s => s
  | _ => py_repr v
  end.

(** The placeholder gytmdl does not support. *)
Definition placeholder : string := "{date:%Y}".

(** ** The machine: exceptions, environment, state *)

(** The exceptions the program can meet.  All but [KeyboardInterrupt]
    derive from [Exception]. *)
Inductive exn : Type :=
| KeyboardInterrupt
| UnboundLocalError
| FileNotFoundError
| PermissionError
| FileExistsError
| JSONDecodeError
| AttributeError
| TypeError
| ProcessError
| OSError.

(** [isinstance(e, Exception)] *)
Definition is_Exception (e : exn) : bool :=
  match e with
  | KeyboardInterrupt => false
  | _ => true
  end.

(** The text an f-string shows for [{e}]: the runtime's message, stood
    for by the name of the class. *)
Definition exn_text (e : exn) : string :=
  match e with
  | KeyboardInterrupt => "KeyboardInterrupt"
  | UnboundLocalError => "UnboundLocalError"
  | FileNotFoundError => "FileNotFoundError"
  | PermissionError => "PermissionError"
  | FileExistsError => "FileExistsError"
  | JSONDecodeError => "JSONDecodeError"
  | AttributeError => "AttributeError"
  | TypeError => "TypeError"
  | ProcessError => "ProcessError"
  | OSError => "OSError"
  end.

(** A file holds a JSON document, given by what [json.load] reads from it,
    or any other text, given by its lines. *)
Inductive content : Type :=
| Json (doc : json)
| Text (lines : list string).

(** What [subprocess.run] comes back with. *)
Inductive run_result : Type :=
| Exited (returncode : Z)
| Interrupted
| Crashed.

(** What [subprocess.Popen] comes back with. *)
Inductive spawn_result : Type :=
| Spawned (pid : Z)
| NodeMissing
| SpawnFailed.

(** One entry of [psutil.process_iter(['pid', 'name', 'cmdline'])]; a
    field the scan may not read is [None]. *)
Record proc : Type := Proc {
  proc_pid : Z;
  proc_name : option string;
  proc_cmdline : option (list string)
}.

(** The environment: where the script lives, what may be read and
    written, and the answers of the operating system, the k-th answer to
    the k-th question of each kind. *)
Record Env : Type := {
  root_dir : path;
  win32 : bool;
  sys_executable : path;
  unreadable : gset path;
  unwritable : gset path;
  json_text : json -> list string;
  process_iter : nat -> list proc;
  ping : nat -> bool;
  terminate_ok : nat -> bool;
  popen : nat -> spawn_result;
  import_check : nat -> run_result;
  engine : nat -> run_result
}.

Inductive level : Type := INFO | SUCCESS | WARN | ERROR.

(** The batch result printed at the end of a batch run. *)
Record summary : Type := Summary {
  total_urls : nat;
  success_count : nat;
  fail_count : nat;
  failed_urls : list (nat * string)
}.

Inductive entry : Type :=
| Log (lv : level) (msg : string)
| Report (r : summary).

(** The effects on the world outside, in the order they happen. *)
Inductive op : Type :=
| OpMkdir (d : path)
| OpCopy (src dst : path)
| OpWrite (p : path) (doc : json)
| OpTerminate (pid : Z)
| OpSpawn (argv : list string)
| OpRun (argv : list string).

(** The world as the program sees and changes it.  [scans], [pings],
    [kills], [spawns], [checks] and [runs] count the calls made so far of
    the process scan, the probe, [terminate], [Popen], the import check
    and the engine, whether they succeeded or not; the effects that took
    place are in [journal]. *)
Record State : Type := {
  files : gmap path content;
  cwd : path;
  clock : Z;
  scans : nat;
  pings : nat;
  kills : nat;
  spawns : nat;
  checks : nat;
  runs : nat;
  console : list entry;
  journal : list op
}.

Definition set_files (f : gmap path content -> gmap path content) (s : State) : State :=
  {| files := f (files s); cwd := cwd s; clock := clock s; scans := scans s;
     pings := pings s; kills := kills s; spawns := spawns s; checks := checks s;
     runs := runs s; console := console s; journal := journal s |}.

Definition set_cwd (d : path) (s : State) : State :=
  {| files := files s; cwd := d; clock := clock s; scans := scans s;
     pings := pings s; kills := kills s; spawns := spawns s; checks := checks s;
     runs := runs s; console := console s; journal := journal s |}.

Definition tick (n : Z) (s : State) : State :=
  {| files := files s; cwd := cwd s; clock := clock s + n; scans := scans s;
     pings := pings s; kills := kills s; spawns := spawns s; checks := checks s;
     runs := runs s; console := console s; journal := journal s |}.

Definition next_scan (s : State) : State :=
  {| files := files s; cwd := cwd s; clock := clock s; scans := S (scans s);
     pings := pings s; kills := kills s; spawns := spawns s; checks := checks s;
     runs := runs s; console := console s; journal := journal s |}.

Definition next_ping (s : State) : State :=
  {| files := files s; cwd := cwd s; clock := clock s; scans := scans s;
     pings := S (pings s); kills := kills s; spawns := spawns s; checks := checks s;
     runs := runs s; console := console s; journal := journal s |}.

Definition next_kill (s : State) : State :=
  {| files := files s; cwd := cwd s; clock := clock s; scans := scans s;
     pings := pings s; kills := S (kills s); spawns := spawns s; checks := checks s;
     runs := runs s; console := console s; journal := journal s |}.

Definition next_spawn (s : State) : State :=
  {| files := files s; cwd := cwd s; clock := clock s; scans := scans s;
     pings := pings s; kills := kills s; spawns := S (spawns s); checks := checks s;
     runs := runs s; console := console s; journal := journal s |}.

Definition next_check (s : State) : State :=
  {| files := files s; cwd := cwd s; clock := clock s; scans := scans s;
     pings := pings s; kills := kills s; spawns := spawns s; checks := S (checks s);
     runs := runs s; console := console s; journal := journal s |}.

Definition next_run (s : State) : State :=
  {| files := files s; cwd := cwd s; clock := clock s; scans := scans s;
     pings := pings s; kills := kills s; spawns := spawns s; checks := checks s;
     runs := S (runs s); console := console s; journal := journal s |}.

Definition emit (e : entry) (s : State) : State :=
  {| files := files s; cwd := cwd s; clock := clock s; scans := scans s;
     pings := pings s; kills := kills s; spawns := spawns s; checks := checks s;
     runs := runs s; console := console s ++ [e]; journal := journal s |}.

Definition record (o : op) (s : State) : State :=
  {| files := files s; cwd := cwd s; clock := clock s; scans := scans s;
     pings := pings s; kills := kills s; spawns := spawns s; checks := checks s;
     runs := runs s; console := console s; journal := journal s ++ [o] |}.

(** ** The monad: state, and a result or a raised exception *)

Inductive outcome (A : Type) : Type :=
| Ret (a : A)
| Raise (e : exn).
Arguments Ret {A} a.
Arguments Raise {A} e.

Definition M (A : Type) : Type := State -> outcome A * State.

Definition ret {A} (a : A) : M A := fun s => (Ret a, s).

Definition raise {A} (e : exn) : M A := fun s => (Raise e, s).

(** A computation that does not touch the state. *)
Definition lift {A} (o : outcome A) : M A := fun s => (o, s).

Definition bind {A B} (m : M A) (k : A -> M B) : M B :=
  fun s =>
    match m s with
    | (Ret a, s') => k a s'
    | (Raise e, s') => (Raise e, s')
    end.

(** [try: m  except ...:]; the handler says which exceptions it catches;
    what the body did before it raised stays done. *)
Definition try_catch {A} (m : M A) (h : exn -> option (M A)) : M A :=
  fun s =>
    match m s with
    | (Ret a, s') => (Ret a, s')
    | (Raise e, s') =>
        match h e with
        | Some k => k s'
        | None => (Raise e, s')
        end
    end.

(** [except Exception as e:] *)
Definition except_Exception {A} (k : exn -> M A) (e : exn) : option (M A) :=
  if is_Exception e then Some (k e) else None.

(** A bare [except:] *)
Definition except_all {A} (k : M A) (e : exn) : option (M A) := Some k.

Declare Scope prog_scope.
Delimit Scope prog_scope with prog.
Bind Scope prog_scope with M.

Notation "x <- m ;; k" := (bind m (fun x => k))
  (at level 20, m at level 99, k at level 200, only parsing) : prog_scope.
Notation "m ;; k" := (bind m (fun _ => k))
  (at level 100, k at level 200, only parsing, right associativity) : prog_scope.

Local Open Scope prog_scope.

Definition log (lv : level) (msg : string) : M unit :=
  fun s => (Ret tt, emit (Log lv msg) s).

Definition log_info := log INFO.
Definition log_success := log SUCCESS.
Definition log_warn := log WARN.
Definition log_error := log ERROR.

(** [time.sleep(n)] *)
Definition sleep (n : Z) : M unit := fun s => (Ret tt, tick n s).

(** [p.exists()] when the [stat] is granted; [Strict.path_exists] has
    the denied one too. *)
Definition path_exists (p : path) : M bool :=
  fun s => (Ret (bool_decide (is_Some (files s !! p))), s).

(** [os.chdir(d)] *)
Definition chdir (d : path) : M unit := fun s => (Ret tt, set_cwd d s).

(** ** Config repair *)

(** [config_path.parent.parent / 'backups' / 'configs'] *)
Definition backup_dir (config_path : path) : path :=
  Path.parent (Path.parent config_path) ++ ["backups"; "configs"].

(** [backup_dir / f'{config_path.stem}_backup.json'] *)
Definition backup_path (config_path : path) : path :=
  backup_dir config_path ++ [Path.stem config_path +:+ "_backup.json"].

(** [config.get('download_mode') == 'aria2c'] *)
Definition is_aria2c (config : dict) : bool :=
  match Dict.get "download_mode" config with
  | Some (JStr mode) => String.eqb mode "aria2c"
  | _ => false
  end.

(** ['{date:%Y}' in str(config.get('template_folder', ''))] *)
Definition mentions_date (config : dict) : bool :=
  Str.contains placeholder
    (py_str (default (JStr "") (Dict.get "template_folder" config))).

(** [x in v], which raises [TypeError] on a value that is no container. *)
Definition py_in (x : string) (v : json) : outcome bool :=
  match v with
  | JStr s => Ret (Str.contains x s)
  | JArr xs =>
      Ret (existsb (fun y => match y with JStr s => String.eqb s x | _ => false end) xs)
  | JObj kvs => Ret (bool_decide (is_Some (Dict.get x kvs)))
  | _ => Raise TypeError
  end.

(** The receiver of a string method: anything but a string has no
    [replace] and raises [AttributeError]. *)
Definition str_receiver (v : json) : outcome string :=
  match v with
  | JStr s => Ret s
  | _ => Raise AttributeError
  end.

(** The receiver of [config.get]: only a dict has it. *)
Definition dict_receiver (v : json) : outcome dict :=
  match v with
  | JObj d => Ret d
  | _ => Raise AttributeError
  end.

(** [json.load(f)] *)
Definition json_load (c : content) : outcome json :=
  match c with
  | Json doc => Ret doc
  | Text _ => Raise JSONDecodeError
  end.

(** [template.replace(' [{date:%Y}]', '').replace('[{date:%Y}]', '')] *)
Definition strip_date (template : string) : string :=
  Str.replace "[{date:%Y}]" "" (Str.replace " [{date:%Y}]" "" template).

(** Fix 1: remove the aria2c download mode.  The pair is the local
    variables [config] and [fixed]. *)
Definition fix_download_mode (config : dict) : dict * bool :=
  if is_aria2c config then (Dict.pop "download_mode" config, true)
  else (config, false).

(** Fix 2: fix the date template format. *)
Definition fix_date_template (cf : dict * bool) : outcome (dict * bool) :=
  match Dict.get "template_folder" cf.1 with
  | Some template =>
      match py_in placeholder template with
      | Ret true =>
          match str_receiver template with
          | Ret t => Ret (Dict.set "template_folder" (JStr (strip_date t)) cf.1, true)
          | Raise e => Raise e
          end
      | Ret false => Ret cf
      | Raise e => Raise e
      end
  | None => Ret cf
  end.

(** Both fixes, on the document in memory. *)
Definition apply_fixes (config : dict) : outcome (dict * bool) :=
  fix_date_template (fix_download_mode config).

(** ** Process scan and URL list, the pure parts *)

(** [proc.info['name'] in ('node.exe', 'node')] *)
Definition is_node (p : proc) : bool :=
  match proc_name p with
  | Some n => String.eqb n "node.exe" || String.eqb n "node"
  | None => false
  end.

(** [cmdline and any('main.js' in cmd for cmd in cmdline)] *)
Definition runs_main_js (p : proc) : bool :=
  match proc_cmdline p with
  | Some cmdline => existsb (Str.contains "main.js") cmdline
  | None => false
  end.

(** The loop of [is_server_running] over the process table *)
Fixpoint scan (ps : list proc) : option Z :=
  match ps with
  | [] => None
  | p :: ps' =>
      if is_node p && runs_main_js p then Some (proc_pid p) else scan ps'
  end.

(** [if pid:] on what [is_server_running] returned: [None] and [0] are
    false. *)
Definition truthy (pid : option Z) : bool :=
  match pid with
  | Some p => negb (p =? 0)
  | None => false
  end.

(** The loop of [download_batch] over [enumerate(f, 1)]: stripped lines
    that are neither empty nor comments, with their line numbers. *)
Fixpoint read_urls (line_num : nat) (lines : list string) : list (nat * string) :=
  match lines with
  | [] => []
  | line :: rest =>
      let line := Str.strip line in
      if String.eqb line "" || Str.startswith "#" line
      then read_urls (S line_num) rest
      else (line_num, line) :: read_urls (S line_num) rest
  end.

Section Program.

Context (E : Env).

(** [open(p, 'r')] and reading it whole *)
Definition open_read (p : path) : M content :=
  fun s =>
    match files s !! p with
    | None => (Raise FileNotFoundError, s)
    | Some c =>
        if bool_decide (p ∈ unreadable E) then (Raise PermissionError, s)
        else (Ret c, s)
    end.

(** [open(p, 'w')] and [json.dump(doc, f, indent=2)] *)
Definition open_write (p : path) (doc : json) : M unit :=
  fun s =>
    if bool_decide (p ∈ unwritable E) then (Raise PermissionError, s)
    else (Ret tt, record (OpWrite p doc) (set_files (insert p (Json doc)) s)).

(** [d.mkdir(parents=True, exist_ok=True)] *)
Definition mkdir_p (d : path) : M unit :=
  fun s =>
    if bool_decide (is_Some (files s !! d)) then (Raise FileExistsError, s)
    else if bool_decide (d ∈ unwritable E) then (Raise PermissionError, s)
    else (Ret tt, record (OpMkdir d) s).

(** [shutil.copy2(src, dst)] *)
Definition copy2 (src dst : path) : M unit :=
  fun s =>
    match files s !! src with
    | None => (Raise FileNotFoundError, s)
    | Some c =>
        if bool_decide (src ∈ unreadable E) then (Raise PermissionError, s)
        else if bool_decide (dst ∈ unwritable E) then (Raise PermissionError, s)
        else (Ret tt, record (OpCopy src dst) (set_files (insert dst c) s))
    end.

Definition backup_config (config_path : path) : M (option path) :=
  try_catch
    (mkdir_p (backup_dir config_path) ;;
     copy2 config_path (backup_path config_path) ;;
     ret (Some (backup_path config_path)))
    (except_Exception (fun e =>
       log_warn ("Could not backup config: " +:+ exn_text e) ;;
       ret None)).

(** "Create backup first if we're going to make changes": the [if] of
    [fix_config_if_needed] around its call of [backup_config]. *)
Definition backup_step (config_path : path) (wanted : bool) : M unit :=
  if wanted then
    made <- backup_config config_path ;;
    match made with
    | Some b => log_info ("Config backup created: " +:+ Path.name b)
    | None => ret tt
    end
  else ret tt.

(** The [try] block of [fix_config_if_needed].  [config] is first used
    through [config.get], so a document that is no dict raises there,
    before anything is done. *)
Definition fix_config_body (config_path : path) (create_backup : bool) : M bool :=
  f <- open_read config_path ;;
  doc <- lift (json_load f) ;;
  config <- lift (dict_receiver doc) ;;
  backup_step config_path
    (create_backup && (is_aria2c config || mentions_date config)) ;;
  r <- lift (apply_fixes config) ;;
  (* Write back the fixed config *)
  if r.2 : bool then
    open_write config_path (JObj r.1) ;;
    ret true
  else ret false.

Definition fix_config_if_needed (config_path : path) (create_backup : bool) : M bool :=
  try_catch (fix_config_body config_path create_backup)
    (except_Exception (fun e =>
       log_warn ("Could not fix config: " +:+ exn_text e) ;;
       ret false)).

(** ** Server supervisor *)

(** [check_server_health]: the bare [except] turns every failure of the
    probe into [False]. *)
Definition check_server_health : M bool :=
  fun s => (Ret (ping E (pings s)), next_ping s).

(** [is_server_running]: the first node process whose command line
    mentions [main.js]. *)
Definition is_server_running : M (option Z) :=
  fun s => (Ret (scan (process_iter E (scans s))), next_scan s).

(** [psutil.Process(pid).terminate()] *)
Definition terminate (pid : Z) : M unit :=
  fun s =>
    if terminate_ok E (kills s)
    then (Ret tt, record (OpTerminate pid) (next_kill s))
    else (Raise ProcessError, next_kill s).

(** [subprocess.Popen(argv, ...)], giving [process.pid] *)
Definition Popen (argv : list string) : M Z :=
  fun s =>
    match popen E (spawns s) with
    | Spawned pid => (Ret pid, record (OpSpawn argv) (next_spawn s))
    | NodeMissing => (Raise FileNotFoundError, next_spawn s)
    | SpawnFailed => (Raise OSError, next_spawn s)
    end.

Definition server_path : path :=
  root_dir E ++ ["bgutil-pot-provider"; "server"; "build"; "main.js"].

(** [start_server] from its check of the server file on. *)
Definition launch_server : M Z :=
  present <- path_exists server_path ;;
  if negb present then
    log_error ("Server file not found at: " +:+ Path.str server_path) ;;
    log_info "Run: cd bgutil-pot-provider && npm install && npx tsc" ;;
    ret 1
  else
    log_info "Starting PO token server..." ;;
    try_catch
      (pid <- Popen (if win32 E then ["node"; Path.str server_path]
                     else ["nohup"; "node"; Path.str server_path]) ;;
       sleep 2 ;;
       healthy <- check_server_health ;;
       if healthy : bool then
         log_success ("PO token server started successfully (PID: "
                      +:+ pretty pid +:+ ")") ;;
         ret 0
       else
         log_warn "Server started but not responding yet, may need a moment..." ;;
         ret 0)
      (fun e =>
         match e with
         | FileNotFoundError =>
             Some (log_error "Node.js not found. Please install Node.js." ;;
                   log_info "Install with: winget install OpenJS.NodeJS" ;;
                   ret 1)
         | _ =>
             except_Exception (fun e =>
               log_error ("Failed to start server: " +:+ exn_text e) ;;
               ret 1) e
         end).

Definition start_server : M Z :=
  pid <- is_server_running ;;
  if truthy pid then
    healthy <- check_server_health ;;
    if healthy : bool then
      log_info ("PO token server is already running (PID: "
                +:+ pretty (default 0 pid) +:+ ")") ;;
      ret 0
    else
      log_warn "Found node process but server not responding, restarting..." ;;
      try_catch (terminate (default 0 pid) ;; sleep 1) (except_all (ret tt)) ;;
      launch_server
  else launch_server.

(** ** Single-item downloader *)

(** [subprocess.run(argv, ...)], giving [result.returncode] *)
Definition run_with (answer : run_result) (argv : list string) : M Z :=
  fun s =>
    match answer with
    | Exited rc => (Ret rc, record (OpRun argv) s)
    | Interrupted => (Raise KeyboardInterrupt, record (OpRun argv) s)
    | Crashed => (Raise OSError, record (OpRun argv) s)
    end.

Definition run_import_check : M Z :=
  fun s =>
    run_with (import_check E (checks s))
      [Path.str (sys_executable E); "-c"; "import gytmdl"] (next_check s).

Definition run_engine (argv : list string) : M Z :=
  fun s => run_with (engine E (runs s)) argv (next_run s).

(** [root_dir / 'config' / f'{profile}.json'] *)
Definition profile_path (profile : string) : path :=
  Path.join (root_dir E ++ ["config"]) (profile +:+ ".json").

(** The retry loop and what follows it.  [fuel] is what is left of
    [range(max_retries + 1)]; [result] is the local variable of that
    name, [None] while it is unbound. *)
Fixpoint retry (argv : list string) (max_retries : Z)
    (fuel : nat) (attempt : Z) (result : option Z) : M Z :=
  match fuel with
  | S fuel' =>
      (if 0 <? attempt then
         log_warn ("Retry attempt " +:+ pretty attempt +:+ "/"
                   +:+ pretty max_retries +:+ "...") ;;
         sleep 2
       else ret tt) ;;
      returncode <- run_engine argv ;;
      if returncode =? 0 then ret 0
      else retry argv max_retries fuel' (attempt + 1) (Some returncode)
  | O =>
      log_error ("Download failed after " +:+ pretty (max_retries + 1)
                 +:+ " attempts") ;;
      match result with
      | Some returncode => ret returncode
      | None => raise UnboundLocalError
      end
  end.

(** [download_single] from the point where the interpreter is known. *)
Definition download_with (url profile : string) (max_retries : Z)
    (config_path venv_python : path) (result : option Z) : M Z :=
  log_success ("Using profile: " +:+ profile) ;;
  log_info ("Downloading: " +:+ url) ;;
  retry [Path.str venv_python; "-m"; "gytmdl"; "--config-path";
         Path.str config_path; url]
    max_retries (Z.to_nat (max_retries + 1)) 0 result.

Definition download_single (url profile : string) (auto_fix : bool)
    (max_retries : Z) : M Z :=
  chdir (root_dir E) ;;
  log_info "Checking PO token server..." ;;
  start_server ;;
  let config_path := profile_path profile in
  present <- path_exists config_path ;;
  if negb present then
    log_error ("Profile not found: " +:+ Path.str config_path) ;;
    ret 1
  else
    (if auto_fix then
       fixed <- fix_config_if_needed config_path true ;;
       if fixed : bool then
         log_info "Auto-fixed config: removed aria2c mode (using default for better compatibility)"
       else ret tt
     else ret tt) ;;
    scripts <- path_exists (root_dir E ++ ["env"; "Scripts"; "python.exe"]) ;;
    let venv_python :=
      if scripts : bool then root_dir E ++ ["env"; "Scripts"; "python.exe"]
      else root_dir E ++ ["env"; "bin"; "python"] in
    found <- path_exists venv_python ;;
    if found : bool then
      download_with url profile max_retries config_path venv_python None
    else
      returncode <- run_import_check ;;
      if returncode =? 0 then
        log_info "Using system Python (container mode)" ;;
        download_with url profile max_retries config_path (sys_executable E)
          (Some returncode)
      else
        log_error "Virtual environment not found and gytmdl not installed" ;;
        log_info "Run: python -m venv env" ;;
        ret 1.

(** ** Batch orchestrator *)

(** [Path(list_file)], taken from the working directory when relative *)
Definition resolve (file : string) : M path :=
  fun s => (Ret (Path.join (cwd s) file), s).

(** The lines of an open text file *)
Definition open_lines (p : path) : M (list string) :=
  f <- open_read p ;;
  ret (match f with
       | Text lines => lines
       | Json doc => json_text E doc
       end).

Definition count_success (t : summary) : summary :=
  {| total_urls := total_urls t; success_count := S (success_count t);
     fail_count := fail_count t; failed_urls := failed_urls t |}.

Definition count_failure (line_num : nat) (url : string) (t : summary) : summary :=
  {| total_urls := total_urls t; success_count := success_count t;
     fail_count := S (fail_count t);
     failed_urls := failed_urls t ++ [(line_num, url)] |}.

(** One turn of the loop over [urls]: the tally after it, and whether
    the loop goes on ([false] where the source has [break]). *)
Definition batch_item (profile : string) (continue_on_error : bool)
    (line_num : nat) (url : string) (t : summary) : M (summary * bool) :=
  try_catch
    (result <- download_single url profile true 2 ;;
     if result =? 0 then
       log_success ("Downloaded: " +:+ Str.take 50 url +:+ "...") ;;
       ret (count_success t, true)
     else
       log_error ("Failed to download: " +:+ Str.take 50 url +:+ "...") ;;
       ret (count_failure line_num url t, continue_on_error))
    (fun e =>
       match e with
       | KeyboardInterrupt =>
           Some (log_warn "Batch download interrupted by user" ;;
                 ret (t, false))
       | _ =>
           except_Exception (fun e =>
             log_error ("Exception: " +:+ exn_text e) ;;
             ret (count_failure line_num url t, continue_on_error)) e
       end).

Fixpoint batch_loop (profile : string) (continue_on_error : bool)
    (urls : list (nat * string)) (t : summary) : M summary :=
  match urls with
  | [] => ret t
  | (line_num, url) :: rest =>
      r <- batch_item profile continue_on_error line_num url t ;;
      if r.2 : bool then batch_loop profile continue_on_error rest r.1
      else ret r.1
  end.

(** The summary printed after the loop *)
Definition report (t : summary) : M unit :=
  fun s => (Ret tt, emit (Report t) s).

Definition download_batch (list_file profile : string)
    (continue_on_error : bool) : M Z :=
  list_path <- resolve list_file ;;
  present <- path_exists list_path ;;
  if negb present then
    log_error ("File not found: " +:+ list_file) ;;
    ret 1
  else
    log_info "Starting batch download..." ;;
    start_server ;;
    lines <- open_lines list_path ;;
    let urls := read_urls 1 lines in
    if bool_decide (urls = []) then
      log_warn ("No URLs found in " +:+ list_file) ;;
      ret 0
    else
      log_info ("Found " +:+ pretty (length urls) +:+ " URL(s) to download") ;;
      t <- batch_loop profile continue_on_error urls
             {| total_urls := length urls; success_count := 0;
                fail_count := 0; failed_urls := [] |} ;;
      report t ;;
      ret (if (fail_count t =? 0)%nat then 0 else 1).

End Program.

(** ** Profile management and the commands of [main]

    What the file system lists and how the runtime folds case is taken
    from the shell, as the process table is taken from the environment:
    [glob_json d s] is what [d.glob('*.json')] yields in the state [s], in
    the order the directory gives it, [dir_exists d s] is [d.exists()] for
    a directory, and [str_lower] is [str.lower]. *)

Record Shell : Type := {
  glob_json : path → State → list path;
  dir_exists : path → State → bool;
  str_lower : string → string
}.

(** [sorted(xs)] for strings: insertion into a sorted list, the order
    being that of the code points. *)
Fixpoint insort (x : string) (xs : list string) : list string :=
  match xs with
  | [] => [x]
  | y :: xs' => if String.leb x y then x :: xs else y :: insort x xs'
  end.

Definition sorted (xs : list string) : list string := foldr insort [] xs.

(** [sys.argv[3] in ['-p', '--profile']] and what follows it: the profile
    named after the flag, and the default one otherwise. *)
Definition profile_option (opts : list string) : string :=
  match opts with
  | flag :: rest =>
      if bool_decide (flag ∈ ["-p"; "--profile"])
      then match rest with
           | profile :: _ => profile
           | [] => "gytmdl"
           end
      else "gytmdl"
  | [] => "gytmdl"
  end.

Section Commands.

Context (E : Env) (L : Shell).

(** [d.glob('*.json')], read when the loop over it starts *)
Definition glob (d : path) : M (list path) :=
  fun s => (Ret (glob_json L d s), s).

(** [d.exists()] for a directory, when the [stat] is granted;
    [Strict.is_dir] has the denied one too. *)
Definition is_dir (d : path) : M bool :=
  fun s => (Ret (dir_exists L d s), s).

Definition get_available_profiles (root : path) : M (list string) :=
  let config_dir := root ++ ["config"] in
  mains <- glob config_dir ;;
  let profiles := map Path.stem mains in
  let profiles_dir := config_dir ++ ["profiles"] in
  present <- is_dir profiles_dir ;;
  if present : bool then
    subs <- glob profiles_dir ;;
    ret (sorted (profiles ++ map (λ f, "profiles/" +:+ Path.stem f) subs))
  else ret (sorted profiles).

(** [list_profiles]: the listing itself is printed. *)
Definition list_profiles : M Z :=
  get_available_profiles (root_dir E) ;;
  ret 0.

(** One of the two loops of [fix-all] over the files of a directory;
    [label] is what the success line calls a file. *)
Fixpoint fix_each (label : path → string) (config_files : list path)
    (fixed_count : nat) : M nat :=
  match config_files with
  | [] => ret fixed_count
  | config_file :: rest =>
      fixed <- fix_config_if_needed E config_file true ;;
      if fixed : bool then
        log_success ("Fixed: " +:+ label config_file) ;;
        fix_each label rest (S fixed_count)
      else fix_each label rest fixed_count
  end.

(** The [fix-all] command *)
Definition fix_all : M Z :=
  log_info "Fixing all profile configurations..." ;;
  let config_dir := root_dir E ++ ["config"] in
  let profiles_dir := config_dir ++ ["profiles"] in
  mains <- glob config_dir ;;
  fixed_count <- fix_each Path.name mains 0 ;;
  present <- is_dir profiles_dir ;;
  fixed_count <-
    (if present : bool then
       subs <- glob profiles_dir ;;
       fix_each (λ f, "profiles/" +:+ Path.name f) subs fixed_count
     else ret fixed_count) ;;
  (if (fixed_count =? 0)%nat then
     log_info "No fixes needed - all profiles are OK"
   else
     log_success ("Fixed " +:+ pretty fixed_count +:+ " profile(s)")) ;;
  ret 0.

(** The [check] command; the dependency table is printed. *)
Definition check : M Z :=
  pid <- is_server_running E ;;
  up <- (if truthy pid then check_server_health E else ret false) ;;
  (if up : bool then
     log_success ("PO token server running (PID: " +:+ pretty (default 0 pid) +:+ ")")
   else
     log_warn "PO token server not running" ;;
     log_info "Start with: python ytdl.py server") ;;
  scripts <- path_exists (root_dir E ++ ["env"; "Scripts"; "python.exe"]) ;;
  let venv_python :=
    if scripts : bool then root_dir E ++ ["env"; "Scripts"; "python.exe"]
    else root_dir E ++ ["env"; "bin"; "python"] in
  found <- path_exists venv_python ;;
  (if found : bool then log_success "Virtual environment found"
   else
     log_error "Virtual environment not found" ;;
     log_info "Run: python -m venv env") ;;
  profiles <- get_available_profiles (root_dir E) ;;
  log_info ("Found " +:+ pretty (length profiles) +:+ " profile(s)") ;;
  ret 0.

(** [main] on [sys.argv].  The two usage errors are written with [print]
    in the format of [log_error]; the help text is printed. *)
Definition main (argv : list string) : M Z :=
  match argv with
  | [] | [_] => ret 0
  | _ :: argv1 :: args =>
      let command := str_lower L argv1 in
      if bool_decide (command ∈ ["help"; "-h"; "--help"; "?"]) then ret 0
      else if String.eqb command "download" then
        match args with
        | [] => log_error "URL required" ;; ret 1
        | url :: opts => download_single E url (profile_option opts) true 2
        end
      else if String.eqb command "batch" then
        match args with
        | [] => log_error "URL list file required" ;; ret 1
        | list_file :: opts => download_batch E list_file (profile_option opts) true
        end
      else if String.eqb command "server" then start_server E
      else if String.eqb command "profiles" then list_profiles
      else if String.eqb command "fix-all" then fix_all
      else if String.eqb command "check" then check
      else log_error ("Unknown command: " +:+ command) ;; ret 1
  end.

End Commands.

(** ** When [stat] is denied

    [Path.exists()] calls [os.stat].  It answers [False] for a missing
    file, but the [PermissionError] of a [stat] that is denied (a
    directory on the way to the path may not be searched) is raised again,
    and none of the calls of [exists()] stands in a [try].  [Path.glob]
    asks [is_dir()] of its directory first, which raises the same way.
    The embedding above takes every [stat] to be granted.  [Strict]
    embeds the functions that call [exists()] or [glob] again, with the
    paths in [denied] refusing [stat]; everything else is shared. *)

Module Strict.

Section Denied.

Context (E : Env) (L : Shell) (denied : gset path).

(** [p.exists()] for a file *)
Definition path_exists (p : path) : M bool :=
  fun s =>
    if bool_decide (p ∈ denied) then (Raise PermissionError, s)
    else path_exists p s.

(** [d.exists()] for a directory *)
Definition is_dir (d : path) : M bool :=
  fun s =>
    if bool_decide (d ∈ denied) then (Raise PermissionError, s)
    else is_dir L d s.

(** [d.glob('*.json')], read when the loop over it starts *)
Definition glob (d : path) : M (list path) :=
  fun s =>
    if bool_decide (d ∈ denied) then (Raise PermissionError, s)
    else glob L d s.

(** [start_server] from its check of the server file on. *)
Definition launch_server : M Z :=
  present <- path_exists (server_path E) ;;
  if negb present then
    log_error ("Server file not found at: " +:+ Path.str (server_path E)) ;;
    log_info "Run: cd bgutil-pot-provider && npm install && npx tsc" ;;
    ret 1
  else
    log_info "Starting PO token server..." ;;
    try_catch
      (pid <- Popen E (if win32 E then ["node"; Path.str (server_path E)]
                       else ["nohup"; "node"; Path.str (server_path E)]) ;;
       sleep 2 ;;
       healthy <- check_server_health E ;;
       if healthy : bool then
         log_success ("PO token server started successfully (PID: "
                      +:+ pretty pid +:+ ")") ;;
         ret 0
       else
         log_warn "Server started but not responding yet, may need a moment..." ;;
         ret 0)
      (fun e =>
         match e with
         | FileNotFoundError =>
             Some (log_error "Node.js not found. Please install Node.js." ;;
                   log_info "Install with: winget install OpenJS.NodeJS" ;;
                   ret 1)
         | _ =>
             except_Exception (fun e =>
               log_error ("Failed to start server: " +:+ exn_text e) ;;
               ret 1) e
         end).

Definition start_server : M Z :=
  pid <- is_server_running E ;;
  if truthy pid then
    healthy <- check_server_health E ;;
    if healthy : bool then
      log_info ("PO token server is already running (PID: "
                +:+ pretty (default 0 pid) +:+ ")") ;;
      ret 0
    else
      log_warn "Found node process but server not responding, restarting..." ;;
      try_catch (terminate E (default 0 pid) ;; sleep 1) (except_all (ret tt)) ;;
      launch_server
  else launch_server.

Definition get_available_profiles (root : path) : M (list string) :=
  let config_dir := root ++ ["config"] in
  mains <- glob config_dir ;;
  let profiles := map Path.stem mains in
  let profiles_dir := config_dir ++ ["profiles"] in
  present <- is_dir profiles_dir ;;
  if present : bool then
    subs <- glob profiles_dir ;;
    ret (sorted (profiles ++ map (λ f, "profiles/" +:+ Path.stem f) subs))
  else ret (sorted profiles).

(** [list_profiles]: the listing itself is printed. *)
Definition list_profiles : M Z :=
  get_available_profiles (root_dir E) ;;
  ret 0.

(** [download_single]; the listing printed for a missing profile comes
    from [get_available_profiles]. *)
Definition download_single (url profile : string) (auto_fix : bool)
    (max_retries : Z) : M Z :=
  chdir (root_dir E) ;;
  log_info "Checking PO token server..." ;;
  start_server ;;
  let config_path := profile_path E profile in
  present <- path_exists config_path ;;
  if negb present then
    log_error ("Profile not found: " +:+ Path.str config_path) ;;
    get_available_profiles (root_dir E) ;;
    ret 1
  else
    (if auto_fix then
       fixed <- fix_config_if_needed E config_path true ;;
       if fixed : bool then
         log_info "Auto-fixed config: removed aria2c mode (using default for better compatibility)"
       else ret tt
     else ret tt) ;;
    scripts <- path_exists (root_dir E ++ ["env"; "Scripts"; "python.exe"]) ;;
    let venv_python :=
      if scripts : bool then root_dir E ++ ["env"; "Scripts"; "python.exe"]
      else root_dir E ++ ["env"; "bin"; "python"] in
    found <- path_exists venv_python ;;
    if found : bool then
      download_with E url profile max_retries config_path venv_python None
    else
      returncode <- run_import_check E ;;
      if returncode =? 0 then
        log_info "Using system Python (container mode)" ;;
        download_with E url profile max_retries config_path (sys_executable E)
          (Some returncode)
      else
        log_error "Virtual environment not found and gytmdl not installed" ;;
        log_info "Run: python -m venv env" ;;
        ret 1.

(** One turn of the loop over [urls]: the tally after it, and whether
    the loop goes on. *)
Definition batch_item (profile : string) (continue_on_error : bool)
    (line_num : nat) (url : string) (t : summary) : M (summary * bool) :=
  try_catch
    (result <- download_single url profile true 2 ;;
     if result =? 0 then
       log_success ("Downloaded: " +:+ Str.take 50 url +:+ "...") ;;
       ret (count_success t, true)
     else
       log_error ("Failed to download: " +:+ Str.take 50 url +:+ "...") ;;
       ret (count_failure line_num url t, continue_on_error))
    (fun e =>
       match e with
       | KeyboardInterrupt =>
           Some (log_warn "Batch download interrupted by user" ;;
                 ret (t, false))
       | _ =>
           except_Exception (fun e =>
             log_error ("Exception: " +:+ exn_text e) ;;
             ret (count_failure line_num url t, continue_on_error)) e
       end).

Fixpoint batch_loop (profile : string) (continue_on_error : bool)
    (urls : list (nat * string)) (t : summary) : M summary :=
  match urls with
  | [] => ret t
  | (line_num, url) :: rest =>
      r <- batch_item profile continue_on_error line_num url t ;;
      if r.2 : bool then batch_loop profile continue_on_error rest r.1
      else ret r.1
  end.

Definition download_batch (list_file profile : string)
    (continue_on_error : bool) : M Z :=
  list_path <- resolve list_file ;;
  present <- path_exists list_path ;;
  if negb present then
    log_error ("File not found: " +:+ list_file) ;;
    ret 1
  else
    log_info "Starting batch download..." ;;
    start_server ;;
    lines <- open_lines E list_path ;;
    let urls := read_urls 1 lines in
    if bool_decide (urls = []) then
      log_warn ("No URLs found in " +:+ list_file) ;;
      ret 0
    else
      log_info ("Found " +:+ pretty (length urls) +:+ " URL(s) to download") ;;
      t <- batch_loop profile continue_on_error urls
             {| total_urls := length urls; success_count := 0;
                fail_count := 0; failed_urls := [] |} ;;
      report t ;;
      ret (if (fail_count t =? 0)%nat then 0 else 1).

(** The [fix-all] command *)
Definition fix_all : M Z :=
  log_info "Fixing all profile configurations..." ;;
  let config_dir := root_dir E ++ ["config"] in
  let profiles_dir := config_dir ++ ["profiles"] in
  mains <- glob config_dir ;;
  fixed_count <- fix_each E Path.name mains 0 ;;
  present <- is_dir profiles_dir ;;
  fixed_count <-
    (if present : bool then
       subs <- glob profiles_dir ;;
       fix_each E (λ f, "profiles/" +:+ Path.name f) subs fixed_count
     else ret fixed_count) ;;
  (if (fixed_count =? 0)%nat then
     log_info "No fixes needed - all profiles are OK"
   else
     log_success ("Fixed " +:+ pretty fixed_count +:+ " profile(s)")) ;;
  ret 0.

(** The [check] command; the dependency table is printed. *)
Definition check : M Z :=
  pid <- is_server_running E ;;
  up <- (if truthy pid then check_server_health E else ret false) ;;
  (if up : bool then
     log_success ("PO token server running (PID: " +:+ pretty (default 0 pid) +:+ ")")
   else
     log_warn "PO token server not running" ;;
     log_info "Start with: python ytdl.py server") ;;
  scripts <- path_exists (root_dir E ++ ["env"; "Scripts"; "python.exe"]) ;;
  let venv_python :=
    if scripts : bool then root_dir E ++ ["env"; "Scripts"; "python.exe"]
    else root_dir E ++ ["env"; "bin"; "python"] in
  found <- path_exists venv_python ;;
  (if found : bool then log_success "Virtual environment found"
   else
     log_error "Virtual environment not found" ;;
     log_info "Run: python -m venv env") ;;
  profiles <- get_available_profiles (root_dir E) ;;
  log_info ("Found " +:+ pretty (length profiles) +:+ " profile(s)") ;;
  ret 0.

(** [main] on [sys.argv] *)
Definition main (argv : list string) : M Z :=
  match argv with
  | [] | [_] => ret 0
  | _ :: argv1 :: args =>
      let command := str_lower L argv1 in
      if bool_decide (command ∈ ["help"; "-h"; "--help"; "?"]) then ret 0
      else if String.eqb command "download" then
        match args with
        | [] => log_error "URL required" ;; ret 1
        | url :: opts => download_single url (profile_option opts) true 2
        end
      else if String.eqb command "batch" then
        match args with
        | [] => log_error "URL list file required" ;; ret 1
        | list_file :: opts => download_batch list_file (profile_option opts) true
        end
      else if String.eqb command "server" then start_server
      else if String.eqb command "profiles" then list_profiles
      else if String.eqb command "fix-all" then fix_all
      else if String.eqb command "check" then check
      else log_error ("Unknown command: " +:+ command) ;; ret 1
  end.

End Denied.

End Strict.

(** * Specification vocabulary *)

(** [s'] comes after [s]: the subprocess counters stand, no file is gone
    and only the files at [touched] may have changed. *)
Definition extends (touched : list path) (s s' : State) : Prop :=
  runs s' = runs s ∧ checks s' = checks s ∧
  (∀ q, is_Some (files s !! q) → is_Some (files s' !! q)) ∧
  (∀ q, q ∉ touched → files s' !! q = files s !! q).

(** Defect A: the download mode is the legacy value. *)
Definition defect_mode (config : dict) : Prop := is_aria2c config = true.

(** Defect B: the folder template is a string with the placeholder. *)
Definition defect_date (config : dict) : Prop :=
  ∃ t, Dict.get "template_folder" config = Some (JStr t) ∧
       Str.contains placeholder t = true.

(** The folder template is absent or a string. *)
Definition template_is_text (config : dict) : Prop :=
  match Dict.get "template_folder" config with
  | None | Some (JStr _) => True
  | Some _ => False
  end.

(** The document the repair writes back, when it writes one. *)
Definition repaired (config : dict) : option dict :=
  match apply_fixes config with
  | Ret (config', true) => Some config'
  | _ => None
  end.

(** The write the repair of [config] at [p] ends with, if any. *)
Definition write_back (p : path) (config : dict) : list op :=
  match repaired config with
  | Some config' => [OpWrite p (JObj config')]
  | None => []
  end.

(** A name carries a decimal digit, as every timestamp does. *)
Fixpoint has_digit (name : string) : bool :=
  match name with
  | EmptyString => false
  | String c rest =>
      ((48 <=? nat_of_ascii c)%nat && (nat_of_ascii c <=? 57)%nat) || has_digit rest
  end.

(** The backup can be made: its directory can be created and its file
    written. *)
Definition backup_possible (E : Env) (s : State) (p : path) : bool :=
  bool_decide (files s !! backup_dir p = None) &&
  bool_decide (backup_dir p ∉ unwritable E) &&
  bool_decide (backup_path p ∉ unwritable E).

(** The scan at the start of [start_server] finds a server process. *)
Definition found_running (E : Env) (s : State) : bool :=
  truthy (scan (process_iter E (scans s))).

(** The fast path of [start_server]: a server process is found and it
    answers the probe. *)
Definition fast_path (E : Env) (s : State) : bool :=
  found_running E s && ping E (pings s).

(** The answer to the probe made after the spawn: the second probe when a
    process was found, the first one otherwise. *)
Definition probe_after_spawn (E : Env) (s : State) : bool :=
  ping E (if found_running E s then S (pings s) else pings s).

(** The two places of the virtual environment's interpreter. *)
Definition scripts_python (E : Env) : path :=
  root_dir E ++ ["env"; "Scripts"; "python.exe"].
Definition bin_python (E : Env) : path :=
  root_dir E ++ ["env"; "bin"; "python"].

(** A virtual environment is there. *)
Definition venv_present (E : Env) (s : State) : Prop :=
  is_Some (files s !! scripts_python E) ∨ is_Some (files s !! bin_python E).

(** The interpreter can be resolved: a virtual environment is there, or
    there is none and the system interpreter imports the engine. *)
Definition interpreter_resolved (E : Env) (s : State) : Prop :=
  venv_present E s ∨
  (files s !! scripts_python E = None ∧ files s !! bin_python E = None ∧
   import_check E (checks s) = Exited 0).

(** The engine exits with a non-zero code at its [n]-th invocation. *)
Definition fails_at (E : Env) (n : nat) : Prop :=
  ∃ rc, engine E n = Exited rc ∧ rc ≠ 0.

(** The state in which an attempt of the retry loop runs the engine. *)
Definition before_run (max_retries attempt : Z) (s : State) : State :=
  if 0 <? attempt
  then tick 2 (emit (Log WARN ("Retry attempt " +:+ pretty attempt +:+ "/"
                               +:+ pretty max_retries +:+ "...")) s)
  else s.

(** The lines [download_batch] reads from a file. *)
Definition lines_of (E : Env) (f : content) : list string :=
  match f with
  | Text lines => lines
  | Json doc => json_text E doc
  end.

(** The string with the given bytes, for text outside the printable ASCII
    range. *)
Definition bytes (codes : list nat) : string :=
  foldr (λ n s, String (ascii_of_nat n) s) EmptyString codes.

(** The work items as the specification words them: the lines that are
    neither blank nor comments, each with its 1-based line number. *)
Definition is_work_item (item : nat * string) : bool :=
  negb (String.eqb item.2 "") && negb (Str.startswith "#" item.2).

Definition work_items (lines : list string) : list (nat * string) :=
  List.filter is_work_item (imap (λ i line, (S i, Str.strip line)) lines).

(** How the loop of [download_batch] takes what a download gave: a zero
    return is a success; a non-zero return or an [Exception] is a failed
    item; a [KeyboardInterrupt] is neither. *)
Definition item_succeeded (r : outcome Z) : bool :=
  match r with
  | Ret rc => rc =? 0
  | Raise _ => false
  end.

Definition item_failed (r : outcome Z) : bool :=
  match r with
  | Ret rc => negb (rc =? 0)
  | Raise e => is_Exception e
  end.

(** The loop goes to the next item: after a success, and after a failed
    item when [continue_on_error] is set. *)
Definition goes_on (continue_on_error : bool) (r : outcome Z) : bool :=
  item_succeeded r || (item_failed r && continue_on_error).

(** The line the loop logs after an item. *)
Definition item_line (url : string) (r : outcome Z) : entry :=
  match r with
  | Ret rc =>
      if rc =? 0 then Log SUCCESS ("Downloaded: " +:+ Str.take 50 url +:+ "...")
      else Log ERROR ("Failed to download: " +:+ Str.take 50 url +:+ "...")
  | Raise KeyboardInterrupt => Log WARN "Batch download interrupted by user"
  | Raise e => Log ERROR ("Exception: " +:+ exn_text e)
  end.

(** The downloads of a batch run, in order: each work item that is
    reached, with what [download_single] gave for it in the state the
    items before it left. *)
Fixpoint downloads (E : Env) (profile : string) (continue_on_error : bool)
    (urls : list (nat * string)) (s : State) : list (nat * string * outcome Z) :=
  match urls with
  | [] => []
  | (line_num, url) :: rest =>
      let run := download_single E url profile true 2 s in
      (line_num, url, run.1) ::
      (if goes_on continue_on_error run.1
       then downloads E profile continue_on_error rest
              (emit (item_line url run.1) run.2)
       else [])
  end.

(** The state in which the first item of a batch run is downloaded. *)
Definition batch_start (E : Env) (urls : list (nat * string)) (s : State) : State :=
  emit (Log INFO ("Found " +:+ pretty (length urls) +:+ " URL(s) to download"))
    (start_server E (emit (Log INFO "Starting batch download...") s)).2.

(** The tally of a list of downloads. *)
Definition tally (total : nat) (ds : list (nat * string * outcome Z)) : summary :=
  {| total_urls := total;
     success_count := length (List.filter (λ d, item_succeeded d.2) ds);
     fail_count := length (List.filter (λ d, item_failed d.2) ds);
     failed_urls := map fst (List.filter (λ d, item_failed d.2) ds) |}.

(** The tally [t] with the downloads [ds] counted in. *)
Definition add_tally (t : summary) (ds : list (nat * string * outcome Z)) : summary :=
  {| total_urls := total_urls t;
     success_count := success_count t + success_count (tally 0 ds);
     fail_count := fail_count t + fail_count (tally 0 ds);
     failed_urls := failed_urls t ++ failed_urls (tally 0 ds) |}.

(** ** A sample installation, for the worked examples *)

Module Sample.

Definition root : path := ["opt"; "ytdl"].
Definition cfg : path := ["opt"; "ytdl"; "config"; "gytmdl.json"].
Definition python : path := ["opt"; "ytdl"; "env"; "bin"; "python"].
Definition main_js : path :=
  ["opt"; "ytdl"; "bgutil-pot-provider"; "server"; "build"; "main.js"].
Definition urls_txt : path := ["tmp"; "urls.txt"].

(** A POSIX host without a running server, where spawning works and the
    server is slow to answer; [locked] cannot be written, [procs] is the
    process table, [alive] the answers of the probe, [imports] and [eng]
    the results of the import check and of the engine. *)
Definition env (locked : gset path) (procs : list proc) (alive : nat → bool)
    (imports eng : nat → run_result) : Env :=
  {| root_dir := root; win32 := false;
     sys_executable := ["usr"; "bin"; "python3"];
     unreadable := ∅; unwritable := locked;
     json_text := λ _, [];
     process_iter := λ _, procs; ping := alive;
     terminate_ok := λ _, true; popen := λ _, Spawned 4242;
     import_check := imports; engine := eng |}.

(** The plain host: nothing locked, no server, the engine given. *)
Definition host (eng : nat → run_result) : Env :=
  env ∅ [] (λ _, false) (λ _, Exited 1) eng.

Definition world (fs : gmap path content) (now : Z) : State :=
  {| files := fs; cwd := ["tmp"]; clock := now; scans := 0; pings := 0;
     kills := 0; spawns := 0; checks := 0; runs := 0;
     console := []; journal := [] |}.

(** The installation with the default profile holding [doc]. *)
Definition installed (doc : json) : gmap path content :=
  <[cfg := Json doc]> (<[python := Text []]> {[main_js := Text []]}).

Definition bare_doc : json :=
  JObj [("template_folder", JStr "{album_artist}/{album} {date:%Y}")].

Definition nested_doc : json :=
  JObj [("template_folder", JStr "{album} [[{date:%Y}]{date:%Y}]")].

Definition legacy_doc : json :=
  JObj [("download_mode", JStr "aria2c");
        ("template_folder", JStr "{album} [{date:%Y}]")].

(** A node process running the server's [main.js]. *)
Definition server_proc : proc :=
  {| proc_pid := 77; proc_name := Some "node";
     proc_cmdline :=
       Some ["node"; "/opt/ytdl/bgutil-pot-provider/server/build/main.js"] |}.

Definition batch_lines : list string :=
  ["https://a"; ""; "# comment"; "https://b"].

(** The installation with a URL list in the working directory. *)
Definition with_list (lines : list string) : gmap path content :=
  <[urls_txt := Text lines]> (installed (JObj [])).

End Sample.

(** ** More vocabulary *)

(** The folder template is absent, or a string without the placeholder. *)
Definition template_clean (config : dict) : Prop :=
  match Dict.get "template_folder" config with
  | None => True
  | Some (JStr t) => Str.contains placeholder t = false
  | Some _ => False
  end.

(** A value the [in] operator cannot search: [None], a bool or a number. *)
Definition is_scalar (v : json) : bool :=
  match v with
  | JNull | JBool _ | JInt _ | JFloat _ => true
  | _ => false
  end.

(** What [is_server_running] takes for the server: a node process whose
    command line mentions [main.js]. *)
Definition is_server_proc (p : proc) : bool := is_node p && runs_main_js p.

(** A process was found and the probe failed. *)
Definition stale (E : Env) (s : State) : bool :=
  found_running E s && negb (ping E (pings s)).

(** A file that holds a document without a defect and can be read. *)
Definition clean_file (E : Env) (fs : gmap path content) (p : path) : Prop :=
  ∃ config, (fs !! p = Some (Json (JObj config))) ∧ (p ∉ unreadable E) ∧
            is_aria2c config = false ∧ template_clean config.

(** A file directly in [d] whose name is a non-empty base without a slash
    followed by [.json]: what [d.glob('*.json')] lists on a case-sensitive
    file system, the file [.json] apart. *)
Definition json_child (d f : path) : Prop :=
  ∃ base, f = d ++ [base +:+ ".json"] ∧ base ≠ "" ∧ Str.contains "/" base = false.

(** ** More of the sample installation *)

Module Demo.

(** A profile without a defect. *)
Definition clean_fields : dict :=
  [("format", JStr "opus"); ("template_folder", JStr "{album_artist}/{album}")].

(** A profile with both defects and a field the repair has no business
    with. *)
Definition legacy_fields : dict :=
  [("download_mode", JStr "aria2c"); ("format", JStr "opus");
   ("template_folder", JStr "{album} [{date:%Y}]")].

(** A profile whose template is a number. *)
Definition scalar_fields : dict :=
  [("download_mode", JStr "aria2c"); ("template_folder", JInt 5)].

Definition plain : Env := Sample.host (λ _, Exited 0).

(** A host whose server is up and answers. *)
Definition attended : Env :=
  Sample.env ∅ [Sample.server_proc] (λ _, true) (λ _, Exited 1) (λ _, Exited 0).

Definition holding (fields : dict) : State :=
  Sample.world (Sample.installed (JObj fields)) 0.

(** An installation without a virtual environment. *)
Definition bare_host : State :=
  Sample.world {[Sample.cfg := Json (JObj clean_fields)]} 0.

(** A host on which the URL list cannot be read. *)
Definition sealed : Env :=
  {| root_dir := Sample.root; win32 := false;
     sys_executable := ["usr"; "bin"; "python3"];
     unreadable := {[Sample.urls_txt]}; unwritable := ∅;
     json_text := λ _, [];
     process_iter := λ _, []; ping := λ _, false;
     terminate_ok := λ _, true; popen := λ _, Spawned 4242;
     import_check := λ _, Exited 1; engine := λ _, Exited 0 |}.

Definition three_lines : list string := ["https://a"; "https://b"; "https://c"].

(** The installation with a list of three URLs in the working directory. *)
Definition listed : State := Sample.world (Sample.with_list three_lines) 0.

(** A second profile, among the audiophile ones. *)
Definition classical : path := ["opt"; "ytdl"; "config"; "profiles"; "classical.json"].

(** The installation with two clean profiles. *)
Definition library : State :=
  Sample.world (<[classical := Json (JObj clean_fields)]>
                  (Sample.installed (JObj clean_fields))) 0.

(** [str.lower] on the ASCII range. *)
Definition lower_char (c : ascii) : ascii :=
  let n := nat_of_ascii c in
  if (65 <=? n)%nat && (n <=? 90)%nat then ascii_of_nat (n + 32) else c.

Fixpoint ascii_lower (s : string) : string :=
  match s with
  | EmptyString => EmptyString
  | String c s' => String (lower_char c) (ascii_lower s')
  end.

(** A shell that lists the default profile in [config] and the classical
    one in [config/profiles]. *)
Definition shell : Shell :=
  {| glob_json := λ d _,
       if bool_decide (d = ["opt"; "ytdl"; "config"]) then [Sample.cfg]
       else if bool_decide (d = ["opt"; "ytdl"; "config"; "profiles"]) then [classical]
       else [];
     dir_exists := λ _ _, true;
     str_lower := ascii_lower |}.

(** The profile directory may not be examined. *)
Definition locked : gset path := {[ ["opt"; "ytdl"; "config"; "profiles"] ]}.

End Demo.

(** * Verification *)

(** ** Running the monad *)

Lemma bind_inv {A B} (m : M A) (k : A → M B) s r s' :
  bind m k s = (r, s') →
  (∃ a s1, m s = (Ret a, s1) ∧ k a s1 = (r, s')) ∨
  (∃ e, m s = (Raise e, s') ∧ r = Raise e).
Proof.
  unfold bind. destruct (m s) as [[a|e] s1]; intros H.
  - left. eauto.
  - right. exists e. by simplify_eq.
Qed.

Lemma bind_Ret {A B} (m : M A) (k : A → M B) s a s1 :
  m s = (Ret a, s1) → bind m k s = k a s1.
Proof. unfold bind. by intros ->. Qed.

Lemma bind_Raise {A B} (m : M A) (k : A → M B) s e s1 :
  m s = (Raise e, s1) → bind m k s = (Raise e, s1).
Proof. unfold bind. by intros ->. Qed.

Lemma try_catch_inv {A} (m : M A) h s (r : outcome A) s' :
  try_catch m h s = (r, s') →
  (∃ a, m s = (Ret a, s') ∧ r = Ret a) ∨
  (∃ e s1, m s = (Raise e, s1) ∧
     match h e with Some k => k s1 = (r, s') | None => r = Raise e ∧ s' = s1 end).
Proof.
  unfold try_catch. destruct (m s) as [[a|e] s1]; intros H.
  - left. exists a. by simplify_eq.
  - right. exists e, s1. split; [done|]. destruct (h e); by simplify_eq.
Qed.

Lemma lift_inv {A} (o : outcome A) s r s' :
  lift o s = (r, s') → o = r ∧ s' = s.
Proof. unfold lift. by intros [= -> ->]. Qed.

Lemma ret_inv {A} (a : A) s r s' :
  ret a s = (r, s') → r = Ret a ∧ s' = s.
Proof. unfold ret. by intros [= <- <-]. Qed.

(** ** What a call leaves untouched *)

Lemma extends_refl T s : extends T s s.
Proof. by repeat split. Qed.

Lemma extends_trans T s1 s2 s3 :
  extends T s1 s2 → extends T s2 s3 → extends T s1 s3.
Proof.
  intros (?&?&?&Ha) (?&?&?&Hb). repeat split; try congruence; [auto|].
  intros q Hq. by rewrite Hb, Ha.
Qed.

Lemma extends_emit T e s : extends T s (emit e s).
Proof. by repeat split. Qed.

Lemma extends_same_files T s s' :
  runs s' = runs s → checks s' = checks s → files s' = files s → extends T s s'.
Proof. intros ?? Hf. repeat split; try done; intros q; by rewrite Hf. Qed.

Lemma extends_insert T p c s s' :
  runs s' = runs s → checks s' = checks s → p ∈ T →
  files s' = <[p:=c]> (files s) → extends T s s'.
Proof.
  intros ?? Hin Hf. repeat split; try done; intros q Hq; rewrite Hf.
  - rewrite lookup_insert_is_Some'. auto.
  - apply lookup_insert_ne. intros ->. done.
Qed.

(** The backup never lands on the file it copies. *)
Lemma backup_path_length p : (length p < length (backup_path p))%nat.
Proof.
  unfold backup_path, backup_dir, Path.parent.
  rewrite !removelast_firstn_len, !length_app, !length_take. simpl. lia.
Qed.

Lemma backup_path_neq p : backup_path p ≠ p.
Proof. intros H. pose proof (backup_path_length p) as L. rewrite H in L. lia. Qed.

Lemma mkdir_p_inv E d s r s' :
  mkdir_p E d s = (r, s') →
  files s' = files s ∧ runs s' = runs s ∧ checks s' = checks s ∧
  match r with
  | Ret _ => journal s' = journal s ++ [OpMkdir d]
  | Raise e => is_Exception e = true ∧ s' = s
  end.
Proof.
  unfold mkdir_p. intros H. repeat case_match; by simplify_eq.
Qed.

Lemma copy2_inv E src dst s r s' :
  copy2 E src dst s = (r, s') →
  runs s' = runs s ∧ checks s' = checks s ∧
  match r with
  | Ret _ => ∃ c, files s !! src = Some c ∧ files s' = <[dst:=c]> (files s) ∧
             journal s' = journal s ++ [OpCopy src dst]
  | Raise e => is_Exception e = true ∧ s' = s
  end.
Proof.
  unfold copy2. intros H. repeat case_match; simplify_eq; simpl; eauto 10.
Qed.

(** [backup_config] always returns; it touches the backup alone. *)
Lemma backup_config_inv E p s r s' :
  backup_config E p s = (r, s') →
  extends [p; backup_path p] s s' ∧ files s' !! p = files s !! p ∧ ∃ made, r = Ret made.
Proof.
  intros H. apply try_catch_inv in H as [(a & H & ->)|(e & s1 & H & Hh)].
  - apply bind_inv in H as [([] & s1 & Hm & H)|(e & ? & ?)]; [|done].
    apply bind_inv in H as [([] & s2 & Hc & H)|(e & ? & ?)]; [|done].
    apply mkdir_p_inv in Hm as (Hf1 & Hr1 & Hc1 & _).
    apply copy2_inv in Hc as (Hr2 & Hc2 & c & Hsrc & Hf2 & _).
    apply ret_inv in H as [-> ->].
    split; [|split; [|eauto]].
    + apply (extends_insert _ (backup_path p) c); [congruence..|set_solver|].
      by rewrite Hf2, Hf1.
    + rewrite Hf2, Hf1. apply lookup_insert_ne, backup_path_neq.
  - assert (is_Exception e = true ∧ runs s1 = runs s ∧ checks s1 = checks s ∧
            files s1 = files s) as (He & Hr & Hc & Hf).
    { apply bind_inv in H as [([] & s2 & Hm & H)|(e' & Hm & ?)].
      - apply mkdir_p_inv in Hm as (Hf1 & Hr1 & Hc1 & _).
        apply bind_inv in H as [([] & s3 & Hc & H)|(e' & Hc & ?)].
        { by apply ret_inv in H as [? ?]. }
        apply copy2_inv in Hc as (Hr2 & Hc2 & He & ->). simplify_eq.
        repeat split; try done; congruence.
      - apply mkdir_p_inv in Hm as (Hf1 & Hr1 & Hc1 & He & ->). by simplify_eq. }
    unfold except_Exception in Hh. rewrite He in Hh.
    cbv [bind log_warn log ret] in Hh. simplify_eq.
    split; [|split; [|eauto]].
    + by apply extends_same_files.
    + simpl. by rewrite Hf.
Qed.

Lemma open_read_inv E p s r s' :
  open_read E p s = (r, s') →
  s' = s ∧
  match r with
  | Ret f => files s !! p = Some f ∧ (p ∉ unreadable E)
  | Raise e => is_Exception e = true ∧ (files s !! p = None ∨ p ∈ unreadable E)
  end.
Proof.
  unfold open_read. intros H.
  destruct (files s !! p); [case_bool_decide|]; simplify_eq; auto.
Qed.

Lemma open_write_inv E p doc s r s' :
  open_write E p doc s = (r, s') →
  match r with
  | Ret _ => (p ∉ unwritable E) ∧
      s' = record (OpWrite p doc) (set_files (insert p (Json doc)) s)
  | Raise e => is_Exception e = true ∧ p ∈ unwritable E ∧ s' = s
  end.
Proof. unfold open_write. intros H. case_bool_decide; by simplify_eq. Qed.

Lemma apply_fixes_Exception config e :
  apply_fixes config = Raise e → is_Exception e = true.
Proof.
  unfold apply_fixes, fix_date_template, py_in, str_receiver.
  intros H. repeat case_match; by simplify_eq.
Qed.

(** The backup step of [fix_config_body]: it always goes through. *)
Lemma backup_step_inv E p (wanted : bool) s r s' :
  backup_step E p wanted s = (r, s') →
  r = Ret () ∧ extends [p; backup_path p] s s' ∧ files s' !! p = files s !! p.
Proof.
  unfold backup_step. destruct wanted; intros H.
  - apply bind_inv in H as [(made & s1 & Hb & H)|(e & Hb & ->)];
      apply backup_config_inv in Hb as (Hx & Hp & made' & ?); [|done].
    destruct made; cbv [log_info log ret] in H; simplify_eq; [|done].
    split; [done|]. split; [|done].
    eapply extends_trans; [done|apply extends_emit].
  - apply ret_inv in H as [-> ->]. split; [done|]. split; [apply extends_refl|done].
Qed.

(** What the [try] block of [fix_config_if_needed] can come to. *)
Lemma fix_config_body_inv E p cb s r s' :
  fix_config_body E p cb s = (r, s') →
  extends [p; backup_path p] s s' ∧
  match r with
  | Ret true =>
      (p ∉ unreadable E) ∧ (p ∉ unwritable E) ∧
      ∃ config config', files s !! p = Some (Json (JObj config)) ∧
        apply_fixes config = Ret (config', true) ∧
        files s' !! p = Some (Json (JObj config'))
  | Ret false => files s' !! p = files s !! p
  | Raise e => is_Exception e = true ∧ files s' !! p = files s !! p
  end.
Proof.
  intros H. unfold fix_config_body in H.
  apply bind_inv in H as [(f & s1 & Hread & H)|(e & Hread & ->)];
    apply open_read_inv in Hread as [-> Hread]; cycle 1.
  { split; [apply extends_refl|]. by destruct Hread. }
  destruct Hread as [Hf Hr].
  apply bind_inv in H as [(doc & s1 & Hload & H)|(e & Hload & ->)];
    apply lift_inv in Hload as [Hload ->]; cycle 1.
  { destruct f; simplify_eq/=. split; [apply extends_refl|done]. }
  destruct f as [doc'|]; simplify_eq/=.
  apply bind_inv in H as [(config & s1 & Hdict & H)|(e & Hdict & ->)];
    apply lift_inv in Hdict as [Hdict ->]; cycle 1.
  { destruct doc; simplify_eq/=; (split; [apply extends_refl|done]). }
  destruct doc; simplify_eq/=.
  apply bind_inv in H as [([] & s1 & Hbak & H)|(e & Hbak & ->)];
    apply backup_step_inv in Hbak as (? & Hx & Hp); [|done].
  apply bind_inv in H as [([config' fixed] & s2 & Hfix & H)|(e & Hfix & ->)];
    apply lift_inv in Hfix as [Hfix ->]; cycle 1.
  { split; [done|]. split; [|done]. by eapply apply_fixes_Exception. }
  simpl in H. destruct fixed; cycle 1.
  { apply ret_inv in H as [-> ->]. done. }
  apply bind_inv in H as [([] & s2 & Hw & H)|(e & Hw & ->)];
    apply open_write_inv in Hw; cycle 1.
  { destruct Hw as (? & ? & ->). done. }
  destruct Hw as [Hw ->]. apply ret_inv in H as [-> ->]. split.
  - eapply extends_trans; [done|].
    by apply (extends_insert _ p (Json (JObj config'))); [..|set_solver|].
  - repeat split; try done. eexists _, _. repeat split; try done.
    simpl. by rewrite lookup_insert_eq.
Qed.

(** [fix_config_if_needed] always returns: whatever its [try] block
    raises is caught. *)
Lemma fix_config_inv E p cb s r s' :
  fix_config_if_needed E p cb s = (r, s') →
  extends [p; backup_path p] s s' ∧ ∃ b, r = Ret b ∧
    (b = false → files s' !! p = files s !! p) ∧
    (b = true → (p ∉ unreadable E) ∧ (p ∉ unwritable E) ∧
       ∃ config config', files s !! p = Some (Json (JObj config)) ∧
         apply_fixes config = Ret (config', true) ∧
         files s' !! p = Some (Json (JObj config'))).
Proof.
  intros H. unfold fix_config_if_needed in H.
  apply try_catch_inv in H as [(b & H & ->)|(e & s1 & H & Hh)];
    apply fix_config_body_inv in H as [Hx H].
  - split; [done|]. exists b. split; [done|]. destruct b; split; done.
  - destruct H as [He Hp]. unfold except_Exception in Hh. rewrite He in Hh.
    cbv [bind log_warn log ret] in Hh. simplify_eq.
    split; [eapply extends_trans; [done|apply extends_emit]|].
    exists false. split; [done|]. split; done.
Qed.

(** ** Config repair: documents with a defect *)

Lemma get_pop_ne k k' d : k ≠ k' → Dict.get k (Dict.pop k' d) = Dict.get k d.
Proof.
  intros Hne. induction d as [|[k0 v] d IH]; [done|]. simpl.
  destruct (String.eqb_spec k' k0) as [->|]; simpl.
  - destruct (String.eqb_spec k k0); [done|]. done.
  - by rewrite IH.
Qed.

Lemma defect_wants_backup config :
  defect_mode config ∨ defect_date config →
  is_aria2c config || mentions_date config = true.
Proof.
  intros [H|(t & Ht & Hc)].
  - unfold defect_mode in H. by rewrite H.
  - unfold mentions_date. rewrite Ht. simpl. rewrite Hc. apply orb_true_r.
Qed.

Lemma defect_gets_fixed config :
  defect_mode config ∨ defect_date config → template_is_text config →
  ∃ config', apply_fixes config = Ret (config', true).
Proof.
  intros Hd Ht. unfold apply_fixes, fix_download_mode, fix_date_template.
  unfold template_is_text in Ht.
  destruct (is_aria2c config) eqn:Ha; simpl.
  - rewrite get_pop_ne by done.
    destruct (Dict.get "template_folder" config) as [[]|]; try done; simpl; [|eauto].
    case_match; eauto.
  - destruct Hd as [Hd|(t & Hg & Hc)]; [unfold defect_mode in Hd; congruence|].
    rewrite Hg. simpl. rewrite Hc. eauto.
Qed.

(** The backup, step by step, when it can be made and when it cannot. *)
Lemma backup_config_made E p s c :
  files s !! p = Some c → p ∉ unreadable E → backup_possible E s p = true →
  backup_config E p s =
    (Ret (Some (backup_path p)),
     record (OpCopy p (backup_path p))
       (set_files (insert (backup_path p) c) (record (OpMkdir (backup_dir p)) s))).
Proof.
  intros Hf Hr Hb. unfold backup_possible in Hb.
  apply andb_prop in Hb as [Hb H3]. apply andb_prop in Hb as [H1 H2].
  apply bool_decide_eq_true in H1, H2, H3.
  unfold backup_config, try_catch, bind, mkdir_p, copy2, ret. simpl.
  rewrite H1. rewrite (bool_decide_eq_false_2 (is_Some None)) by (by intros [? ?]).
  rewrite (bool_decide_eq_false_2 (backup_dir p ∈ _)) by done.
  simpl. rewrite Hf.
  rewrite (bool_decide_eq_false_2 (p ∈ _)) by done.
  by rewrite (bool_decide_eq_false_2 (backup_path p ∈ _)) by done.
Qed.

Lemma backup_config_failed E p s c :
  files s !! p = Some c → p ∉ unreadable E → backup_possible E s p = false →
  ∃ e pre,
    backup_config E p s =
      (Ret None,
       emit (Log WARN ("Could not backup config: " +:+ exn_text e))
         (fold_right record s pre)) ∧
    (pre = [] ∨ pre = [OpMkdir (backup_dir p)]).
Proof.
  intros Hf Hr Hb.
  unfold backup_config, try_catch, bind, mkdir_p, copy2, ret, except_Exception,
    log_warn, log. simpl.
  case_bool_decide as H1; [by exists FileExistsError, []; eauto|].
  case_bool_decide as H2; [by exists PermissionError, []; eauto|].
  simpl. rewrite Hf. rewrite (bool_decide_eq_false_2 (p ∈ _)) by done.
  case_bool_decide as H3; [by exists PermissionError, [OpMkdir (backup_dir p)]; eauto|].
  exfalso. unfold backup_possible in Hb.
  rewrite !bool_decide_eq_true_2 in Hb; try done.
  destruct (files s !! backup_dir p) eqn:?; [|done]. destruct H1. eauto.
Qed.

(** The backup step when the backup can be made, and when it cannot. *)
Lemma backup_step_made E p s c :
  files s !! p = Some c → p ∉ unreadable E → backup_possible E s p = true →
  ∃ s', backup_step E p true s = (Ret (), s') ∧
    files s' = <[backup_path p:=c]> (files s) ∧
    journal s' = journal s ++ [OpMkdir (backup_dir p); OpCopy p (backup_path p)].
Proof.
  intros Hf Hr Hb. unfold backup_step.
  rewrite (bind_Ret _ _ _ _ _ (backup_config_made E p s c Hf Hr Hb)).
  eexists. split; [reflexivity|]. simpl. split; [done|]. by rewrite <- app_assoc.
Qed.

Lemma backup_step_failed E p s c :
  files s !! p = Some c → p ∉ unreadable E → backup_possible E s p = false →
  ∃ s' pre, backup_step E p true s = (Ret (), s') ∧
    files s' = files s ∧ journal s' = journal s ++ pre ∧
    (pre = [] ∨ pre = [OpMkdir (backup_dir p)]).
Proof.
  intros Hf Hr Hb. unfold backup_step.
  destruct (backup_config_failed E p s c Hf Hr Hb) as (e & pre & Hbk & Hpre).
  rewrite (bind_Ret _ _ _ _ _ Hbk).
  eexists _, pre. split; [reflexivity|].
  destruct Hpre as [-> | ->]; simpl; rewrite ?app_nil_r; auto.
Qed.

(** The repair of a document that is read as a dict, from the backup step
    on: the fixes are tried on the document in memory, and written back
    when one applied. *)
Lemma fix_config_run E p cb s config s1 :
  files s !! p = Some (Json (JObj config)) → p ∉ unreadable E → p ∉ unwritable E →
  backup_step E p (cb && (is_aria2c config || mentions_date config)) s = (Ret (), s1) →
  ∃ s', fix_config_if_needed E p cb s =
          (Ret (bool_decide (is_Some (repaired config))), s') ∧
    files s' = match repaired config with
               | Some config' => <[p:=Json (JObj config')]> (files s1)
               | None => files s1
               end ∧
    journal s' = journal s1 ++ write_back p config.
Proof.
  intros Hf Hr Hw Hstep.
  unfold fix_config_if_needed, try_catch, fix_config_body.
  rewrite (bind_Ret _ _ s (Json (JObj config)) s); cycle 1.
  { unfold open_read. rewrite Hf. by rewrite bool_decide_eq_false_2. }
  cbn [json_load]. rewrite (bind_Ret _ _ s (JObj config) s) by done.
  cbn [dict_receiver]. rewrite (bind_Ret _ _ s config s) by done.
  rewrite (bind_Ret _ _ _ _ _ Hstep).
  unfold write_back, repaired. unfold lift at 1. unfold bind at 1.
  destruct (apply_fixes config) as [[config' []]|e] eqn:Hfix; cbn [fst snd].
  - unfold bind, open_write, ret. rewrite bool_decide_eq_false_2 by done.
    rewrite bool_decide_eq_true_2 by (by eexists).
    eexists. split; [reflexivity|]. done.
  - rewrite bool_decide_eq_false_2 by (by intros [? ?]).
    eexists. split; [reflexivity|]. simpl. by rewrite app_nil_r.
  - rewrite bool_decide_eq_false_2 by (by intros [? ?]).
    unfold except_Exception. rewrite (apply_fixes_Exception _ _ Hfix).
    eexists. split; [reflexivity|]. simpl. by rewrite app_nil_r.
Qed.

(** C5, as amended: when a defect is present and a backup is requested,
    the repair copies the original file to
    [<parent of the config dir>/backups/configs/<stem>_backup.json] before
    it writes the repaired document; the name depends on the base name of
    the config file alone and holds no timestamp; when the backup cannot
    be made the repair goes on all the same, and with a template that is
    absent or a string it writes its fixes and returns [True]. *)
Theorem repair_backs_up_first E p s config :
  files s !! p = Some (Json (JObj config)) →
  p ∉ unreadable E → p ∉ unwritable E →
  defect_mode config ∨ defect_date config →
  backup_path p =
    Path.parent (Path.parent p) ++ ["backups"; "configs"; Path.stem p +:+ "_backup.json"] ∧
  ∃ s',
    fix_config_if_needed E p true s =
      (Ret (bool_decide (is_Some (repaired config))), s') ∧
    files s' !! p = Some (Json (JObj (default config (repaired config)))) ∧
    (template_is_text config → is_Some (repaired config)) ∧
    if backup_possible E s p
    then files s' !! backup_path p = Some (Json (JObj config)) ∧
         journal s' = journal s ++
           [OpMkdir (backup_dir p); OpCopy p (backup_path p)] ++ write_back p config
    else files s' !! backup_path p = files s !! backup_path p ∧
         ∃ pre, journal s' = journal s ++ pre ++ write_back p config ∧
                (pre = [] ∨ pre = [OpMkdir (backup_dir p)]).
Proof.
  intros Hf Hr Hw Hd. split.
  { unfold backup_path, backup_dir. by rewrite <- app_assoc. }
  pose proof (defect_wants_backup config Hd) as Hwant.
  pose proof (backup_path_neq p) as Hne.
  assert (template_is_text config → is_Some (repaired config)) as Htext.
  { intros Ht. destruct (defect_gets_fixed config Hd Ht) as [config' Hfix].
    unfold repaired. rewrite Hfix. by eexists. }
  destruct (backup_possible E s p) eqn:Hb.
  - destruct (backup_step_made E p s _ Hf Hr Hb) as (s1 & Hstep & Hf1 & Hj1).
    destruct (fix_config_run E p true s config s1 Hf Hr Hw) as (s' & -> & Hf' & Hj').
    { by rewrite Hwant. }
    exists s'. split; [done|]. rewrite Hf', Hj', Hf1, Hj1.
    split; [|split; [done|]].
    + destruct (repaired config); simpl.
      * by rewrite lookup_insert_eq.
      * by rewrite lookup_insert_ne.
    + split; [|by rewrite <- app_assoc].
      destruct (repaired config); [rewrite lookup_insert_ne by done|];
        by rewrite lookup_insert_eq.
  - destruct (backup_step_failed E p s _ Hf Hr Hb) as (s1 & pre & Hstep & Hf1 & Hj1 & Hpre).
    destruct (fix_config_run E p true s config s1 Hf Hr Hw) as (s' & -> & Hf' & Hj').
    { by rewrite Hwant. }
    exists s'. split; [done|]. rewrite Hf', Hj', Hf1, Hj1.
    split; [|split; [done|]].
    + destruct (repaired config); simpl; [by rewrite lookup_insert_eq|done].
    + split.
      * destruct (repaired config); [by rewrite lookup_insert_ne|done].
      * exists pre. by rewrite <- app_assoc.
Qed.

(** The repair of the sample profile with both defects: the backup holds
    the original, the profile the repaired document. *)
Lemma repair_backs_up_first_witness :
  let E := Sample.host (λ _, Exited 0) in
  let s := Sample.world (Sample.installed Sample.legacy_doc) 0 in
  ∃ s',
    fix_config_if_needed E Sample.cfg true s = (Ret true, s') ∧
    files s' !! backup_path Sample.cfg = Some (Json Sample.legacy_doc) ∧
    files s' !! Sample.cfg =
      Some (Json (JObj [("template_folder", JStr "{album}")])).
Proof.
  intros E s.
  destruct (repair_backs_up_first E Sample.cfg s
              [("download_mode", JStr "aria2c");
               ("template_folder", JStr "{album} [{date:%Y}]")])
    as (_ & s' & Hrun & Hcfg & _ & Hbak).
  - reflexivity.
  - vm_compute. set_solver.
  - vm_compute. set_solver.
  - left. reflexivity.
  - exists s'. split; [exact Hrun|].
    change (backup_possible E s Sample.cfg) with true in Hbak.
    split; [exact (proj1 Hbak)|exact Hcfg].
Defined.

(** Against C5 as stated: the backup name holds no timestamp.  Backups of
    one profile made at different times go to the same file, whose name
    has no digit. *)
Lemma backup_name_ignores_clock :
  let E := Sample.host (λ _, Exited 0) in
  let early := Sample.world (Sample.installed Sample.legacy_doc) 0 in
  let late := Sample.world (Sample.installed Sample.legacy_doc) 1700000000 in
  clock early ≠ clock late ∧
  (backup_config E Sample.cfg early).1 =
    Ret (Some ["opt"; "ytdl"; "backups"; "configs"; "gytmdl_backup.json"]) ∧
  (backup_config E Sample.cfg late).1 =
    Ret (Some ["opt"; "ytdl"; "backups"; "configs"; "gytmdl_backup.json"]) ∧
  has_digit (Path.name (backup_path Sample.cfg)) = false.
Proof. split; [done|]. repeat split; reflexivity. Qed.

(** C7: when reading, parsing or writing the document fails, the repair
    catches the error and returns [False]; nothing is raised to the
    caller and the file is as it was. *)
Theorem fix_config_contains_failures E p create_backup s :
  files s !! p = None ∨ p ∈ unreadable E ∨
  (∃ lines, files s !! p = Some (Text lines)) ∨ p ∈ unwritable E →
  ∃ s', fix_config_if_needed E p create_backup s = (Ret false, s') ∧
        files s' !! p = files s !! p.
Proof.
  intros Hfail.
  destruct (fix_config_if_needed E p create_backup s) as [r s'] eqn:H.
  apply fix_config_inv in H as (_ & b & -> & Hfalse & Htrue).
  exists s'. destruct b; [exfalso|by auto].
  destruct Htrue as (Hr & Hw & config & config' & Hf & _); [done|].
  destruct Hfail as [?|[?|[[? ?]|?]]]; congruence.
Qed.

(** The repair of a defective profile that cannot be written. *)
Lemma fix_config_contains_failures_witness :
  let E := Sample.env {[Sample.cfg]} [] (λ _, false) (λ _, Exited 1) (λ _, Exited 0) in
  let s := Sample.world (Sample.installed Sample.legacy_doc) 0 in
  Sample.cfg ∈ unwritable E ∧
  ∃ s', fix_config_if_needed E Sample.cfg true s = (Ret false, s') ∧
        files s' !! Sample.cfg = files s !! Sample.cfg.
Proof.
  intros E s.
  assert (Sample.cfg ∈ unwritable E) as H by (subst E; simpl; set_solver).
  split; [exact H|].
  apply (fix_config_contains_failures E Sample.cfg true s). auto.
Defined.

(** ** Where the date fix falls short *)

Lemma contains_tail c p s :
  Str.contains (String c p) s = true → Str.contains p s = true.
Proof.
  induction s as [|a s IH]; simpl.
  - by rewrite orb_false_r.
  - intros H. apply orb_true_iff in H as [H|H].
    + destruct (Ascii.eqb c a); [|done].
      apply orb_true_iff. right.
      destruct s; simpl in *; apply orb_true_iff; left; [by destruct p|done].
    + apply orb_true_iff. right. auto.
Qed.

Lemma replace_go_absent old new s :
  Str.contains old s = false → Str.replace_go old new 0 s = s.
Proof.
  induction s as [|a s IH]; [done|].
  cbn [Str.contains]. intros H. apply orb_false_iff in H as [H1 H2].
  cbn [Str.replace_go]. rewrite H1. f_equal. auto.
Qed.

(** A template without a bracket-wrapped placeholder goes through the date
    fix unchanged. *)
Lemma strip_date_unwrapped t :
  Str.contains "[{date:%Y}]" t = false → strip_date t = t.
Proof.
  intros H. unfold strip_date, Str.replace.
  assert (Str.contains " [{date:%Y}]" t = false) as H'.
  { destruct (Str.contains " [{date:%Y}]" t) eqn:Hc; [|done].
    apply contains_tail in Hc. congruence. }
  rewrite (replace_go_absent _ _ _ H'). by apply replace_go_absent.
Qed.

(** A bare placeholder is detected, reported as fixed and left in place. *)
Lemma date_fix_leaves_bare_placeholder config t :
  is_aria2c config = false →
  Dict.get "template_folder" config = Some (JStr t) →
  Str.contains placeholder t = true →
  Str.contains "[{date:%Y}]" t = false →
  apply_fixes config = Ret (Dict.set "template_folder" (JStr t) config, true).
Proof.
  intros Hm Hg Hc Hb. unfold apply_fixes, fix_download_mode, fix_date_template.
  rewrite Hm. simpl. rewrite Hg. simpl. rewrite Hc.
  by rewrite strip_date_unwrapped.
Qed.

Lemma get_pop_eq k d : Dict.get k (Dict.pop k d) = None.
Proof.
  induction d as [|[k0 v] d IH]; [done|]. simpl.
  destruct (String.eqb_spec k k0) as [->|Hne]; [done|]. simpl.
  by destruct (String.eqb_spec k k0).
Qed.

Lemma get_set_ne k k' v d : k ≠ k' → Dict.get k (Dict.set k' v d) = Dict.get k d.
Proof.
  intros Hne. induction d as [|[k0 v0] d IH]; simpl.
  - by destruct (String.eqb_spec k k').
  - destruct (String.eqb_spec k' k0) as [->|]; simpl.
    + by destruct (String.eqb_spec k k0).
    + by rewrite IH.
Qed.

(** After the fixes the download mode is not the legacy value. *)
Lemma apply_fixes_mode_gone config config' b :
  apply_fixes config = Ret (config', b) → is_aria2c config' = false.
Proof.
  unfold apply_fixes, fix_date_template. intros H.
  assert (is_aria2c (fix_download_mode config).1 = false) as Hm.
  { unfold fix_download_mode. destruct (is_aria2c config) eqn:Ha; [|done].
    simpl. unfold is_aria2c. by rewrite get_pop_eq. }
  destruct (Dict.get "template_folder" (fix_download_mode config).1) as [template|];
    [|by destruct (fix_download_mode config); simplify_eq].
  destruct (py_in placeholder template) as [[]|]; [| |done].
  - destruct (str_receiver template); simplify_eq.
    unfold is_aria2c in *. by rewrite get_set_ne.
  - by destruct (fix_download_mode config); simplify_eq.
Qed.

(** Without the legacy mode, only a dated template makes the fixes report
    a change. *)
Lemma apply_fixes_true_inv config config' :
  is_aria2c config = false → apply_fixes config = Ret (config', true) →
  defect_date config.
Proof.
  unfold apply_fixes, fix_download_mode, fix_date_template. intros -> H.
  simpl in H.
  destruct (Dict.get "template_folder" config) as [template|] eqn:Hg; [|done].
  destruct template; simpl in H; try done.
  - destruct (Str.contains placeholder s) eqn:Hc; [|done]. by exists s.
  - by case_match.
  - by case_match.
Qed.

(** When the fixes apply and the file can be read and written, the repair
    writes them and returns [True]. *)
Lemma fix_config_applies E p cb s config config' :
  files s !! p = Some (Json (JObj config)) →
  p ∉ unreadable E → p ∉ unwritable E →
  apply_fixes config = Ret (config', true) →
  ∃ s', fix_config_if_needed E p cb s = (Ret true, s') ∧
        files s' !! p = Some (Json (JObj config')).
Proof.
  intros Hf Hr Hw Hfix.
  destruct (backup_step E p (cb && (is_aria2c config || mentions_date config)) s)
    as [r s1] eqn:Hstep.
  pose proof Hstep as Hstep'. apply backup_step_inv in Hstep' as (-> & _ & _).
  destruct (fix_config_run E p cb s config s1 Hf Hr Hw Hstep) as (s' & Hrun & Hf' & _).
  unfold repaired in Hrun, Hf'. rewrite Hfix in Hrun, Hf'.
  rewrite bool_decide_eq_true_2 in Hrun by (by eexists).
  exists s'. split; [done|]. rewrite Hf'. by rewrite lookup_insert_eq.
Qed.

(** The second of two repairs in a row reports a fix exactly when the
    first one did and left a dated template behind; when it reports none it
    leaves the document as it is.  So the repair is idempotent on every
    document but those whose template keeps the placeholder. *)
Lemma second_repair E p cb1 cb2 s r1 s1 r2 s2 :
  fix_config_if_needed E p cb1 s = (r1, s1) →
  fix_config_if_needed E p cb2 s1 = (r2, s2) →
  (r2 = Ret true ↔
   r1 = Ret true ∧
   ∃ config, files s1 !! p = Some (Json (JObj config)) ∧ defect_date config) ∧
  (r2 = Ret false → files s2 !! p = files s1 !! p).
Proof.
  intros H1 H2.
  pose proof H1 as H1'. apply fix_config_inv in H1' as (_ & b1 & -> & Hf1 & Ht1).
  pose proof H2 as H2'. apply fix_config_inv in H2' as (_ & b2 & -> & Hf2 & Ht2).
  split; [split|].
  - intros [= ->].
    destruct Ht2 as (Hr & Hw & config1 & config2 & Hfile & Hfix & _); [done|].
    destruct b1.
    + split; [done|]. exists config1. split; [done|].
      destruct Ht1 as (_ & _ & config & config' & _ & Hfix1 & Hfile1); [done|].
      rewrite Hfile1 in Hfile. simplify_eq.
      eapply apply_fixes_true_inv; [|done]. by eapply apply_fixes_mode_gone.
    + exfalso. rewrite Hf1 in Hfile by done.
      destruct (fix_config_applies E p cb1 s _ _ Hfile Hr Hw Hfix) as (s' & Heq & _).
      congruence.
  - intros ([= ->] & config1 & Hfile & Hd).
    destruct Ht1 as (Hr & Hw & _); [done|].
    destruct (defect_gets_fixed config1) as [config2 Hfix]; [by right| |].
    { destruct Hd as (t & Ht & _). unfold template_is_text. by rewrite Ht. }
    destruct (fix_config_applies E p cb2 s1 _ _ Hfile Hr Hw Hfix) as (s' & Heq & _).
    congruence.
  - intros [= ->]. by apply Hf2.
Qed.

Lemma set_same k v d : Dict.get k d = Some v → Dict.set k v d = d.
Proof.
  induction d as [|[k0 v0] d IH]; [done|]. simpl.
  destruct (String.eqb_spec k k0) as [->|]; [by intros [= ->]|].
  intros H. by rewrite IH.
Qed.

(** Every document whose template has the placeholder, none of it
    bracket-wrapped, is reported fixed and written back as it was. *)
Lemma bare_placeholder_kept E p cb s config t :
  files s !! p = Some (Json (JObj config)) →
  p ∉ unreadable E → p ∉ unwritable E →
  is_aria2c config = false →
  Dict.get "template_folder" config = Some (JStr t) →
  Str.contains placeholder t = true →
  Str.contains "[{date:%Y}]" t = false →
  ∃ s', fix_config_if_needed E p cb s = (Ret true, s') ∧
        files s' !! p = Some (Json (JObj config)).
Proof.
  intros Hf Hr Hw Hm Hg Hc Hb.
  pose proof (date_fix_leaves_bare_placeholder config t Hm Hg Hc Hb) as Hfix.
  rewrite (set_same _ _ _ Hg) in Hfix.
  by apply (fix_config_applies E p cb s config config).
Qed.

(** C1, at the failing input: a template with the bare placeholder.  The
    repair reports a fix and rewrites the file, and the placeholder is
    still there. *)
Theorem bare_placeholder_survives_repair :
  let E := Sample.host (λ _, Exited 0) in
  let s := Sample.world (Sample.installed Sample.bare_doc) 0 in
  let after := fix_config_if_needed E Sample.cfg true s in
  after.1 = Ret true ∧
  files after.2 !! Sample.cfg =
    Some (Json (JObj [("template_folder", JStr "{album_artist}/{album} {date:%Y}")])) ∧
  Str.contains placeholder "{album_artist}/{album} {date:%Y}" = true.
Proof. intros E s after. repeat split; vm_compute; reflexivity. Qed.

(** C2, at the failing inputs.  With the bare placeholder the second
    application reports a fix again; with a bracketed placeholder inside
    brackets the second application changes the document once more. *)
Theorem repair_twice_differs :
  let E := Sample.host (λ _, Exited 0) in
  let once (doc : json) :=
    fix_config_if_needed E Sample.cfg true (Sample.world (Sample.installed doc) 0) in
  let twice (doc : json) :=
    fix_config_if_needed E Sample.cfg true (once doc).2 in
  (once Sample.bare_doc).1 = Ret true ∧
  (twice Sample.bare_doc).1 = Ret true ∧
  files (once Sample.nested_doc).2 !! Sample.cfg =
    Some (Json (JObj [("template_folder", JStr "{album} [{date:%Y}]")])) ∧
  (twice Sample.nested_doc).1 = Ret true ∧
  files (twice Sample.nested_doc).2 !! Sample.cfg =
    Some (Json (JObj [("template_folder", JStr "{album}")])).
Proof. intros E once twice. repeat split; vm_compute; reflexivity. Qed.

(** ** Server supervisor *)

Ltac unfold_server :=
  unfold start_server, launch_server, is_server_running, check_server_health,
    terminate, Popen, log_info, log_warn, log_error, log_success, log, sleep,
    path_exists, try_catch, except_Exception, except_all, bind, ret, raise in *.

Ltac tail_solve :=
  try done;
  first [ by eexists; reflexivity
        | by exists []; rewrite app_nil_r ].

Lemma start_server_inv E s r s' :
  start_server E s = (r, s') →
  (r = Ret 0 ∨ r = Ret 1) ∧
  files s' = files s ∧ runs s' = runs s ∧ checks s' = checks s ∧ cwd s' = cwd s.
Proof.
  unfold_server. intros H.
  repeat (case_match; simplify_eq/=); auto.
Qed.

Lemma start_server_extends E T s r s' :
  start_server E s = (r, s') → (∃ c, r = Ret c) ∧ extends T s s'.
Proof.
  intros H. apply start_server_inv in H as (Hr & Hf & ? & ? & _). split.
  - destruct Hr as [-> | ->]; eauto.
  - by apply extends_same_files.
Qed.

Lemma launch_server_missing E s :
  files s !! server_path E = None →
  launch_server E s =
    (Ret 1,
     emit (Log INFO "Run: cd bgutil-pot-provider && npm install && npx tsc")
       (emit (Log ERROR ("Server file not found at: " +:+ Path.str (server_path E))) s)).
Proof.
  intros H. unfold launch_server, bind, path_exists. rewrite H.
  rewrite (bool_decide_eq_false_2 (is_Some None)) by (by intros [? ?]). reflexivity.
Qed.

Lemma launch_server_slow E s pid :
  is_Some (files s !! server_path E) → popen E (spawns s) = Spawned pid →
  ping E (pings s) = false →
  ∃ s', launch_server E s = (Ret 0, s') ∧
    (∃ pre, console s' = console s ++ pre ++
      [Log WARN "Server started but not responding yet, may need a moment..."]) ∧
    (∃ argv, journal s' = journal s ++ [OpSpawn argv]).
Proof.
  intros Hf Hp Hh. unfold_server. simpl.
  rewrite (bool_decide_eq_true_2 _ Hf). simpl. rewrite Hp. simpl. rewrite Hh.
  eexists. split; [reflexivity|]. simpl. split.
  - eexists [_]. by rewrite <- app_assoc.
  - eauto.
Qed.

(** Up to the check of the server file: either the fast path returns, or
    [launch_server] runs from a state that differs in what was probed and
    logged. *)
Lemma start_server_slow_path E s :
  fast_path E s = false →
  ∃ s1, start_server E s = launch_server E s1 ∧
    files s1 = files s ∧ spawns s1 = spawns s ∧
    pings s1 = (if found_running E s then S (pings s) else pings s) ∧
    (∃ pre, console s1 = console s ++ pre) ∧
    (∃ pre, journal s1 = journal s ++ pre).
Proof.
  unfold fast_path, found_running. intros H.
  unfold start_server. unfold bind at 1. unfold is_server_running at 1.
  destruct (truthy _) eqn:Hfound; simpl in H.
  - unfold bind at 1. unfold check_server_health at 1. simpl. rewrite H.
    unfold bind at 1. unfold log_warn at 1, log at 1.
    unfold bind at 1. unfold try_catch, bind, terminate, sleep, except_all, ret. simpl.
    destruct (terminate_ok E (kills s)); simpl.
    + eexists. split; [reflexivity|]. simpl. repeat split; tail_solve.
    + eexists. split; [reflexivity|]. simpl. repeat split; tail_solve.
  - eexists. split; [reflexivity|]. simpl. repeat split; tail_solve.
Qed.

(** C8, as amended: unless a running and healthy server was found (the
    fast path, which returns 0 before the server file is looked at),
    [start_server] returns 1 with the build guidance when the server file
    is missing; and when the spawn succeeds and the probe after it still
    fails, it returns 0 with the warning that the server may need a
    moment. *)
Theorem start_server_contract E s :
  fast_path E s = false →
  (files s !! server_path E = None →
   ∃ s' pre, start_server E s = (Ret 1, s') ∧
     console s' = console s ++ pre ++
       [Log ERROR ("Server file not found at: " +:+ Path.str (server_path E));
        Log INFO "Run: cd bgutil-pot-provider && npm install && npx tsc"]) ∧
  (is_Some (files s !! server_path E) →
   (∃ pid, popen E (spawns s) = Spawned pid) →
   probe_after_spawn E s = false →
   ∃ s' pre, start_server E s = (Ret 0, s') ∧
     console s' = console s ++ pre ++
       [Log WARN "Server started but not responding yet, may need a moment..."]).
Proof.
  intros Hslow.
  destruct (start_server_slow_path E s Hslow)
    as (s1 & -> & Hf & Hsp & Hpi & [pre Hc] & _).
  split.
  - intros Hnone. rewrite launch_server_missing by (by rewrite Hf).
    eexists _, pre. split; [reflexivity|]. simpl. rewrite Hc.
    by rewrite <- !app_assoc.
  - intros Hsome [pid Hpid] Hprobe.
    destruct (launch_server_slow E s1 pid) as (s' & -> & (pre' & Hc') & _).
    + by rewrite Hf.
    + by rewrite Hsp.
    + by rewrite Hpi.
    + exists s', (pre ++ pre'). split; [done|]. rewrite Hc', Hc.
      by rewrite <- !app_assoc.
Qed.

(** A stale server process without and with the server file on disk. *)
Lemma start_server_contract_witness :
  let E := Sample.env ∅ [Sample.server_proc] (λ _, false) (λ _, Exited 1) (λ _, Exited 0) in
  let bare := Sample.world ∅ 0 in
  let built := Sample.world {[Sample.main_js := Text []]} 0 in
  (∃ s' pre, start_server E bare = (Ret 1, s') ∧
     console s' = console bare ++ pre ++
       [Log ERROR ("Server file not found at: " +:+ Path.str (server_path E));
        Log INFO "Run: cd bgutil-pot-provider && npm install && npx tsc"]) ∧
  (∃ s' pre, start_server E built = (Ret 0, s') ∧
     console s' = console built ++ pre ++
       [Log WARN "Server started but not responding yet, may need a moment..."]).
Proof.
  intros E bare built. split.
  - apply (start_server_contract E bare); reflexivity.
  - apply (start_server_contract E built).
    + reflexivity.
    + by eexists.
    + by exists 4242.
    + reflexivity.
Defined.

(** Against C8 as stated: with the server file missing, a running and
    healthy server makes [start_server] return 0. *)
Lemma healthy_server_hides_missing_file :
  let E := Sample.env ∅ [Sample.server_proc] (λ _, true) (λ _, Exited 1) (λ _, Exited 0) in
  let s := Sample.world ∅ 0 in
  files s !! server_path E = None ∧
  (start_server E s).1 = Ret 0 ∧
  console (start_server E s).2 =
    [Log INFO "PO token server is already running (PID: 77)"].
Proof. intros E s. repeat split; vm_compute; reflexivity. Qed.

(** ** Single-item downloader *)

Lemma run_engine_Exited E argv s rc :
  engine E (runs s) = Exited rc →
  run_engine E argv s = (Ret rc, record (OpRun argv) (next_run s)).
Proof. unfold run_engine, run_with. by intros ->. Qed.

Lemma before_run_runs mr a s : runs (before_run mr a s) = runs s.
Proof. unfold before_run. by case_match. Qed.

Lemma retry_step E argv mr fuel attempt result s :
  retry E argv mr (S fuel) attempt result s =
  bind (run_engine E argv) (λ returncode,
    if returncode =? 0 then ret 0
    else retry E argv mr fuel (attempt + 1) (Some returncode))
    (before_run mr attempt s).
Proof.
  cbn [retry]. unfold before_run, bind at 1.
  destruct (0 <? attempt); reflexivity.
Qed.

(** The loop never runs the engine more often than it has fuel. *)
Lemma retry_bound E argv mr fuel : ∀ attempt result s r s',
  retry E argv mr fuel attempt result s = (r, s') →
  (runs s ≤ runs s' ≤ runs s + fuel)%nat ∧ checks s' = checks s ∧
  files s' = files s.
Proof.
  induction fuel as [|fuel IH]; intros attempt result s r s' H.
  - cbn [retry] in H. cbv [bind log_error log ret raise] in H.
    destruct result; simplify_eq; simpl; repeat split; lia.
  - rewrite retry_step in H.
    pose proof (before_run_runs mr attempt s) as Hb.
    assert (checks (before_run mr attempt s) = checks s ∧
            files (before_run mr attempt s) = files s) as [Hc Hf].
    { unfold before_run. by case_match. }
    destruct (engine E (runs (before_run mr attempt s))) as [rc| |] eqn:He.
    + rewrite (bind_Ret _ _ _ _ _ (run_engine_Exited E argv _ rc He)) in H.
      destruct (rc =? 0).
      * apply ret_inv in H as [-> ->]. simpl. rewrite Hb, Hc, Hf. repeat split; lia.
      * apply IH in H as (Hr & Hc' & Hf'). simpl in *.
        rewrite Hc', Hf', Hc, Hf. repeat split; lia.
    + unfold bind, run_engine, run_with in H. rewrite He in H. simplify_eq.
      simpl. rewrite Hb, Hc, Hf. repeat split; lia.
    + unfold bind, run_engine, run_with in H. rewrite He in H. simplify_eq.
      simpl. rewrite Hb, Hc, Hf. repeat split; lia.
Qed.

(** The first zero exit ends the loop with 0. *)
Lemma retry_success E argv mr : ∀ k fuel attempt result s,
  (k < fuel)%nat →
  (∀ j, (j < k)%nat → fails_at E (runs s + j)) →
  engine E (runs s + k) = Exited 0 →
  ∃ s', retry E argv mr fuel attempt result s = (Ret 0, s') ∧
        runs s' = (runs s + k + 1)%nat.
Proof.
  induction k as [|k IH]; intros fuel attempt result s Hk Hfail Hok;
    (destruct fuel as [|fuel]; [lia|]); rewrite retry_step;
    pose proof (before_run_runs mr attempt s) as Hb.
  - rewrite Nat.add_0_r, <- Hb in Hok.
    rewrite (bind_Ret _ _ _ _ _ (run_engine_Exited E argv _ 0 Hok)).
    eexists. split; [reflexivity|]. simpl. lia.
  - destruct (Hfail 0%nat) as (rc & Hrc & Hne); [lia|].
    rewrite Nat.add_0_r, <- Hb in Hrc.
    rewrite (bind_Ret _ _ _ _ _ (run_engine_Exited E argv _ rc Hrc)).
    rewrite (proj2 (Z.eqb_neq rc 0) Hne).
    destruct (IH fuel (attempt + 1) (Some rc)
                (record (OpRun argv) (next_run (before_run mr attempt s))))
      as (s' & -> & Hruns).
    + lia.
    + intros j Hj. simpl. rewrite Hb, <- Nat.add_succ_r. apply Hfail. lia.
    + simpl. by rewrite Hb, <- Nat.add_succ_r.
    + exists s'. split; [done|]. simpl in Hruns. rewrite Hb in Hruns. lia.
Qed.

(** When every attempt fails the loop uses all its fuel and returns the
    last exit code, or finds [result] unbound when it had no fuel. *)
Lemma retry_exhausted E argv mr : ∀ fuel attempt result s,
  (∀ j, (j < fuel)%nat → fails_at E (runs s + j)) →
  ∃ s', runs s' = (runs s + fuel)%nat ∧
    match fuel with
    | O =>
        retry E argv mr fuel attempt result s =
          (match result with Some rc => Ret rc | None => Raise UnboundLocalError end, s')
    | S n =>
        ∃ rc, engine E (runs s + n) = Exited rc ∧
              retry E argv mr fuel attempt result s = (Ret rc, s')
    end.
Proof.
  induction fuel as [|fuel IH]; intros attempt result s Hfail.
  - cbn [retry]. cbv [bind log_error log ret raise].
    destruct result; eexists; (split; [|reflexivity]); simpl; lia.
  - pose proof (before_run_runs mr attempt s) as Hb.
    destruct (Hfail 0%nat) as (rc & Hrc & Hne); [lia|].
    rewrite Nat.add_0_r in Hrc. pose proof Hrc as Hrc'. rewrite <- Hb in Hrc'.
    destruct (IH (attempt + 1) (Some rc)
                (record (OpRun argv) (next_run (before_run mr attempt s))))
      as (s' & Hruns & Hres).
    { intros j Hj. simpl. rewrite Hb, <- Nat.add_succ_r. apply Hfail. lia. }
    simpl in Hruns. rewrite Hb in Hruns.
    exists s'. split; [lia|].
    rewrite retry_step.
    rewrite (bind_Ret _ _ _ _ _ (run_engine_Exited E argv _ rc Hrc')).
    rewrite (proj2 (Z.eqb_neq rc 0) Hne).
    destruct fuel as [|n].
    + exists rc. by rewrite Nat.add_0_r.
    + destruct Hres as (rc' & Hrc'' & ->). exists rc'. split; [|done].
      simpl in Hrc''. by rewrite Hb, <- Nat.add_succ_r in Hrc''.
Qed.

Lemma backup_path_not_venv E p :
  backup_path p ≠ scripts_python E ∧ backup_path p ≠ bin_python E.
Proof.
  unfold backup_path, backup_dir, scripts_python, bin_python.
  rewrite <- !app_assoc. simpl.
  split; intros H; apply app_inj_2 in H as [_ H]; done.
Qed.

(** The auto-fix step of [download_single]: it always goes through. *)
Lemma auto_fix_step E p (auto_fix : bool) s :
  ∃ s', extends [p; backup_path p] s s' ∧
    (if auto_fix
     then bind (fix_config_if_needed E p true) (λ fixed : bool,
            if fixed
            then log_info "Auto-fixed config: removed aria2c mode (using default for better compatibility)"
            else ret ())
     else ret ()) s = (Ret (), s').
Proof.
  destruct auto_fix; [|exists s; split; [apply extends_refl|done]].
  destruct (fix_config_if_needed E p true s) as [r s1] eqn:H.
  pose proof H as H'. apply fix_config_inv in H' as (Hx & b & -> & _).
  rewrite (bind_Ret _ _ _ _ _ H). destruct b.
  - eexists. split; [|reflexivity].
    eapply extends_trans; [done|apply extends_emit].
  - by exists s1.
Qed.

(** [download_single] up to the auto-fix step, when the profile is
    there. *)
Lemma download_single_prefix E url profile auto_fix max_retries s :
  let p := profile_path E profile in
  is_Some (files s !! p) →
  ∃ s1, extends [p; backup_path p] s s1 ∧
    download_single E url profile auto_fix max_retries s =
    bind (path_exists (scripts_python E)) (λ scripts : bool,
      let venv_python := if scripts then scripts_python E else bin_python E in
      bind (path_exists venv_python) (λ found : bool,
        if found
        then download_with E url profile max_retries p venv_python None
        else
          bind (run_import_check E) (λ returncode,
            if returncode =? 0
            then bind (log_info "Using system Python (container mode)") (λ _,
                   download_with E url profile max_retries p (sys_executable E)
                     (Some returncode))
            else bind (log_error "Virtual environment not found and gytmdl not installed") (λ _,
                   bind (log_info "Run: python -m venv env") (λ _, ret 1))))) s1.
Proof.
  intros p Hp. unfold download_single.
  erewrite bind_Ret by reflexivity. erewrite bind_Ret by reflexivity.
  match goal with |- context [bind (start_server E) _ ?s0] =>
    destruct (start_server E s0) as [r s1] eqn:Hs;
    pose proof Hs as Hs'; apply (start_server_extends E [p; backup_path p]) in Hs'
      as [[c ->] Hx] end.
  rewrite (bind_Ret _ _ _ _ _ Hs).
  erewrite bind_Ret by reflexivity.
  rewrite bool_decide_eq_true_2; cycle 1.
  { destruct Hx as (_ & _ & Hx & _). apply Hx. done. }
  cbn [negb].
  destruct (auto_fix_step E (profile_path E profile) auto_fix s1) as (s2 & Hx2 & Hfix).
  exists s2. split.
  - eapply extends_trans; [|done]. eapply extends_trans; [|done].
    by apply extends_same_files.
  - by rewrite (bind_Ret _ _ _ _ _ Hfix).
Qed.

Lemma download_with_retry E url profile max_retries p venv_python result s :
  download_with E url profile max_retries p venv_python result s =
  retry E [Path.str venv_python; "-m"; "gytmdl"; "--config-path"; Path.str p; url]
    max_retries (Z.to_nat (max_retries + 1)) 0 result
    (emit (Log INFO ("Downloading: " +:+ url))
       (emit (Log SUCCESS ("Using profile: " +:+ profile)) s)).
Proof. reflexivity. Qed.

(** With the profile and a virtual environment there, [download_single]
    comes to its retry loop with [result] unbound. *)
Lemma download_single_venv E url profile auto_fix max_retries s :
  let p := profile_path E profile in
  is_Some (files s !! p) → venv_present E s →
  ∃ s1 argv, extends [p; backup_path p] s s1 ∧
    download_single E url profile auto_fix max_retries s =
    retry E argv max_retries (Z.to_nat (max_retries + 1)) 0 None s1.
Proof.
  intros p Hp Hvenv.
  destruct (download_single_prefix E url profile auto_fix max_retries s Hp)
    as (s1 & Hx & ->).
  assert (venv_present E s1) as Hvenv1.
  { destruct Hx as (_ & _ & Hx & _). destruct Hvenv; [left|right]; by apply Hx. }
  erewrite bind_Ret by reflexivity.
  case_bool_decide as Hscripts; erewrite bind_Ret by reflexivity.
  - rewrite bool_decide_eq_true_2 by done. rewrite download_with_retry.
    eexists _, _. split; [|reflexivity].
    eapply extends_trans; [done|]. by apply extends_same_files.
  - rewrite bool_decide_eq_true_2 by (by destruct Hvenv1).
    rewrite download_with_retry.
    eexists _, _. split; [|reflexivity].
    eapply extends_trans; [done|]. by apply extends_same_files.
Qed.

(** With the profile there and no virtual environment, [download_single]
    asks the system interpreter; when that has the engine, the retry loop
    starts with [result] bound to the import check's 0. *)
Lemma download_single_fallback E url profile auto_fix max_retries s :
  let p := profile_path E profile in
  is_Some (files s !! p) →
  files s !! scripts_python E = None → files s !! bin_python E = None →
  import_check E (checks s) = Exited 0 →
  ∃ s1 argv, runs s1 = runs s ∧
    download_single E url profile auto_fix max_retries s =
    retry E argv max_retries (Z.to_nat (max_retries + 1)) 0 (Some 0) s1.
Proof.
  intros p Hp Hscripts Hbin Himport. subst p.
  destruct (download_single_prefix E url profile auto_fix max_retries s Hp)
    as (s1 & (Hruns & Hchecks & _ & Hsame) & ->).
  destruct (backup_path_not_venv E (profile_path E profile)) as [Hb1 Hb2].
  assert (files s1 !! scripts_python E = None) as Hs1.
  { rewrite Hsame; [done|]. rewrite !elem_of_cons, elem_of_nil.
    intros [Heq|[?|[]]]; [|done]. rewrite <- Heq, Hscripts in Hp. by destruct Hp. }
  assert (files s1 !! bin_python E = None) as Hb1'.
  { rewrite Hsame; [done|]. rewrite !elem_of_cons, elem_of_nil.
    intros [Heq|[?|[]]]; [|done]. rewrite <- Heq, Hbin in Hp. by destruct Hp. }
  erewrite bind_Ret by reflexivity.
  rewrite (bool_decide_eq_false_2 (is_Some (files s1 !! scripts_python E)))
    by (rewrite Hs1; by intros [? ?]).
  erewrite bind_Ret by reflexivity.
  rewrite (bool_decide_eq_false_2 (is_Some (files s1 !! bin_python E)))
    by (rewrite Hb1'; by intros [? ?]).
  erewrite bind_Ret; cycle 1.
  { unfold run_import_check, run_with. rewrite Hchecks, Himport. reflexivity. }
  cbn [Z.eqb]. erewrite bind_Ret by reflexivity. rewrite download_with_retry.
  eexists _, _. split; [|reflexivity]. simpl. done.
Qed.

(** With the profile there and the interpreter resolved, [download_single]
    comes to its retry loop without having run the engine. *)
Lemma download_single_reaches_loop E url profile auto_fix max_retries s :
  is_Some (files s !! profile_path E profile) → interpreter_resolved E s →
  ∃ s1 argv result, runs s1 = runs s ∧
    download_single E url profile auto_fix max_retries s =
    retry E argv max_retries (Z.to_nat (max_retries + 1)) 0 result s1.
Proof.
  intros Hp [Hvenv|(Hscripts & Hbin & Himport)].
  - destruct (download_single_venv E url profile auto_fix max_retries s Hp Hvenv)
      as (s1 & argv & (Hruns & _) & ->). by exists s1, argv, None.
  - destruct (download_single_fallback E url profile auto_fix max_retries s
                Hp Hscripts Hbin Himport) as (s1 & argv & Hruns & ->).
    by exists s1, argv, (Some 0).
Qed.

(** C3: in [download_single], once the profile and the interpreter are
    resolved: with [max_retries = 2] and an engine that exits non-zero
    every time there are exactly 3 invocations and the last exit code is
    returned; with one failure and then a success there are exactly 2
    invocations and 0 is returned; and for every [max_retries] the engine
    is invoked at most [max_retries + 1] times and the first zero exit
    makes the function return 0. *)
Theorem download_single_retries E url profile auto_fix s :
  is_Some (files s !! profile_path E profile) → interpreter_resolved E s →
  ((∀ j, (j < 3)%nat → fails_at E (runs s + j)) →
   ∃ rc s', download_single E url profile auto_fix 2 s = (Ret rc, s') ∧
            runs s' = (runs s + 3)%nat ∧ engine E (runs s + 2) = Exited rc) ∧
  (fails_at E (runs s) → engine E (runs s + 1) = Exited 0 →
   ∃ s', download_single E url profile auto_fix 2 s = (Ret 0, s') ∧
         runs s' = (runs s + 2)%nat) ∧
  (∀ max_retries, ∃ r s',
     download_single E url profile auto_fix max_retries s = (r, s') ∧
     Z.of_nat (runs s' - runs s) ≤ Z.max 0 (max_retries + 1) ∧
     ∀ k, Z.of_nat k < max_retries + 1 →
          (∀ j, (j < k)%nat → fails_at E (runs s + j)) →
          engine E (runs s + k) = Exited 0 →
          r = Ret 0 ∧ runs s' = (runs s + k + 1)%nat).
Proof.
  intros Hp Hres. split; [|split].
  - intros Hfail.
    destruct (download_single_reaches_loop E url profile auto_fix 2 s Hp Hres)
      as (s1 & argv & result & Hruns & ->).
    change (Z.to_nat (2 + 1)) with 3%nat.
    destruct (retry_exhausted E argv 2 3 0 result s1) as (s' & Hr & rc & Hrc & ->).
    { intros j Hj. rewrite Hruns. by apply Hfail. }
    exists rc, s'. rewrite Hruns in Hr, Hrc. done.
  - intros Hfail Hok.
    destruct (download_single_reaches_loop E url profile auto_fix 2 s Hp Hres)
      as (s1 & argv & result & Hruns & ->).
    change (Z.to_nat (2 + 1)) with 3%nat.
    destruct (retry_success E argv 2 1 3 0 result s1) as (s' & -> & Hr).
    + lia.
    + intros j Hj. rewrite Hruns. by replace j with 0%nat by lia; rewrite Nat.add_0_r.
    + by rewrite Hruns.
    + exists s'. split; [done|]. rewrite Hruns in Hr. lia.
  - intros max_retries.
    destruct (download_single_reaches_loop E url profile auto_fix max_retries s Hp Hres)
      as (s1 & argv & result & Hruns & ->).
    destruct (retry E argv max_retries (Z.to_nat (max_retries + 1)) 0 result s1)
      as [r s'] eqn:Hrun.
    exists r, s'. split; [done|].
    pose proof (retry_bound _ _ _ _ _ _ _ _ _ Hrun) as ([? ?] & _). split; [lia|].
    intros k Hk Hfail Hok.
    destruct (retry_success E argv max_retries k (Z.to_nat (max_retries + 1))
                0 result s1) as (s'' & Heq & Hr).
    + lia.
    + intros j Hj. rewrite Hruns. by apply Hfail.
    + by rewrite Hruns.
    + rewrite Hrun in Heq. simplify_eq. split; [done|]. lia.
Qed.

(** C9, as amended: with a negative [max_retries] the loop body never
    runs and the engine is not invoked; with the interpreter of a virtual
    environment [result] is unbound after the loop and the function
    raises; with the system interpreter [result] holds the result of the
    import check and the function returns its 0. *)
Theorem download_single_negative_retries E url profile auto_fix max_retries s :
  max_retries < 0 →
  is_Some (files s !! profile_path E profile) →
  (venv_present E s →
   ∃ s', download_single E url profile auto_fix max_retries s =
           (Raise UnboundLocalError, s') ∧ runs s' = runs s) ∧
  (files s !! scripts_python E = None → files s !! bin_python E = None →
   import_check E (checks s) = Exited 0 →
   ∃ s', download_single E url profile auto_fix max_retries s = (Ret 0, s') ∧
         runs s' = runs s).
Proof.
  intros Hneg Hp.
  assert (Z.to_nat (max_retries + 1) = 0%nat) as Hfuel by lia.
  split.
  - intros Hvenv.
    destruct (download_single_venv E url profile auto_fix max_retries s Hp Hvenv)
      as (s1 & argv & (Hruns & _) & ->).
    rewrite Hfuel. eexists. split; [reflexivity|]. done.
  - intros Hscripts Hbin Himport.
    destruct (download_single_fallback E url profile auto_fix max_retries s
                Hp Hscripts Hbin Himport) as (s1 & argv & Hruns & ->).
    rewrite Hfuel. eexists. split; [reflexivity|]. done.
Qed.

(** The sample installation with an engine that always fails, and with
    one that fails once. *)
Lemma download_single_retries_witness :
  let failing := Sample.host (λ _, Exited 7) in
  let flaky := Sample.host (λ n, if (n =? 0)%nat then Exited 7 else Exited 0) in
  let s := Sample.world (Sample.installed (JObj [])) 0 in
  (∃ rc s', download_single failing "https://a" "gytmdl" true 2 s = (Ret rc, s') ∧
            runs s' = (runs s + 3)%nat ∧ engine failing (runs s + 2) = Exited rc) ∧
  (∃ s', download_single flaky "https://a" "gytmdl" true 2 s = (Ret 0, s') ∧
         runs s' = (runs s + 2)%nat).
Proof.
  intros failing flaky s.
  assert (∀ eng, is_Some (files s !! profile_path (Sample.host eng) "gytmdl")) as Hp
    by (intros eng; by eexists).
  assert (∀ eng, interpreter_resolved (Sample.host eng) s) as Hv
    by (intros eng; left; right; by eexists).
  split.
  - apply (proj1 (download_single_retries failing "https://a" "gytmdl" true s
                    (Hp _) (Hv _))).
    intros j _. exists 7. by split.
  - apply (proj1 (proj2 (download_single_retries flaky "https://a" "gytmdl" true s
                           (Hp _) (Hv _)))).
    + exists 7. by split.
    + reflexivity.
Defined.

(** The sample installation, with its virtual environment, and
    [max_retries = -1]. *)
Lemma download_single_negative_retries_witness :
  let E := Sample.host (λ _, Exited 0) in
  let s := Sample.world (Sample.installed (JObj [])) 0 in
  ∃ s', download_single E "https://a" "gytmdl" true (-1) s =
          (Raise UnboundLocalError, s') ∧ runs s' = runs s.
Proof.
  intros E s.
  apply (proj1 (download_single_negative_retries E "https://a" "gytmdl" true (-1) s
                  ltac:(reflexivity) ltac:(by eexists))).
  right. by eexists.
Defined.

(** Against C9 as stated: without a virtual environment and with the
    engine importable by the system interpreter, a negative [max_retries]
    makes [download_single] return 0 without running the engine. *)
Lemma negative_retries_return_zero :
  let E := Sample.env ∅ [] (λ _, false) (λ _, Exited 0) (λ _, Exited 1) in
  let s := Sample.world {[Sample.cfg := Json (JObj [])]} 0 in
  let after := download_single E "https://a" "gytmdl" true (-1) s in
  after.1 = Ret 0 ∧ runs after.2 = 0%nat.
Proof. intros E s after. split; vm_compute; reflexivity. Qed.

(** ** Batch orchestrator *)

Lemma read_urls_work_items_from n lines :
  read_urls n lines =
  List.filter is_work_item (imap (λ i line, (n + i, Str.strip line)%nat) lines).
Proof.
  revert n. induction lines as [|line lines IH]; intros n; [done|].
  cbn [read_urls imap List.filter]. unfold is_work_item at 1. cbn [snd].
  rewrite IH. rewrite Nat.add_0_r.
  assert (imap ((λ i l, ((n + i)%nat, Str.strip l)) ∘ S) lines =
          imap (λ i l, ((S n + i)%nat, Str.strip l)) lines) as ->.
  { apply imap_ext. intros i l _. simpl. f_equal. lia. }
  destruct (String.eqb (Str.strip line) ""), (Str.startswith "#" (Str.strip line)); done.
Qed.

(** What [lstrip] leaves starts with no white space. *)
Lemma lstrip_go_width s : ∀ skip, Str.space_width (Str.lstrip_go skip s) = 0%nat.
Proof.
  induction s as [|c s IH]; intros skip; [done|].
  cbn [Str.lstrip_go]. destruct skip as [|k]; [|apply IH].
  destruct (Str.space_width (String c s)) as [|k] eqn:Hw; [done|apply IH].
Qed.

(** [rstrip] cuts a tail off. *)
Lemma rstrip_bytes s : ∀ i,
  Str.byte_at i (Str.rstrip s) = Str.byte_at i s ∨ Str.byte_at i (Str.rstrip s) = 0%nat.
Proof.
  induction s as [|c s IH]; intros i; [by left|].
  cbn [Str.rstrip]. destruct (String.eqb _ _); [by right; destruct i|].
  destruct i as [|i]; [by left|]. apply (IH i).
Qed.

Lemma space_width_cut c t t' :
  (∀ i, Str.byte_at i t' = Str.byte_at i t ∨ Str.byte_at i t' = 0%nat) →
  Str.space_width (String c t) = 0%nat → Str.space_width (String c t') = 0%nat.
Proof.
  intros Hcut. unfold Str.space_width.
  change (Str.byte_at 1 (String c t)) with (Str.byte_at 0 t).
  change (Str.byte_at 2 (String c t)) with (Str.byte_at 1 t).
  change (Str.byte_at 1 (String c t')) with (Str.byte_at 0 t').
  change (Str.byte_at 2 (String c t')) with (Str.byte_at 1 t').
  destruct (Str.isspace c); [done|].
  generalize (nat_of_ascii c). intros b0.
  destruct (Hcut 0%nat) as [-> | ->], (Hcut 1%nat) as [-> | ->]; [done|..];
    generalize (Str.byte_at 0 t) (Str.byte_at 1 t); intros b1 b2;
    change (0 =? 133)%nat with false; change (0 =? 160)%nat with false;
    change (0 =? 154)%nat with false; change (0 =? 128)%nat with false;
    change (0 =? 129)%nat with false; change (0 =? 159)%nat with false;
    change (0 =? 168)%nat with false; change (0 =? 169)%nat with false;
    change (0 =? 175)%nat with false; change (128 <=? 0)%nat with false;
    rewrite ?andb_false_r, ?orb_false_r; cbn [andb orb];
    repeat match goal with
           | |- context [(?a =? ?b)%nat] => destruct (a =? b)%nat; cbn [andb orb]
           | |- context [(?a <=? ?b)%nat] => destruct (a <=? b)%nat; cbn [andb orb]
           end; done.
Qed.

(** What [strip] leaves starts with no white space. *)
Lemma strip_width s : Str.space_width (Str.strip s) = 0%nat.
Proof.
  unfold Str.strip, Str.lstrip.
  pose proof (lstrip_go_width s 0) as Hw.
  destruct (Str.lstrip_go 0 s) as [|c t]; [done|].
  cbn [Str.rstrip]. destruct (String.eqb _ _); [done|].
  by apply (space_width_cut c t (Str.rstrip t) (rstrip_bytes t)).
Qed.

(** Every work item is a stripped line. *)
Lemma read_urls_stripped lines : ∀ start n u,
  (n, u) ∈ read_urls start lines → ∃ line, u = Str.strip line.
Proof.
  induction lines as [|l lines IH]; intros start n u; cbn [read_urls].
  - intros H. by apply elem_of_nil in H.
  - destruct (_ || _); [apply IH|].
    intros H. apply elem_of_cons in H as [[= _ ->]|H]; [by exists l|by eapply IH].
Qed.

(** C6: the work items are exactly the lines that are neither blank nor
    comments, each with its 1-based line number; on the file of the
    specification's example they are [(1, "https://a")] and
    [(4, "https://b")].  Blank is what [str.strip] leaves empty, and no
    work item starts with a white-space character, of the ASCII range or
    beyond it: the second example has a tab, a CR LF, a no-break space
    (U+00A0), an ideographic space (U+3000), a thin space (U+2009) and a
    next-line character (U+0085) around its text. *)
Theorem read_urls_work_items :
  read_urls 1 ["https://a"; ""; "# comment"; "https://b"] =
    [(1%nat, "https://a"); (4%nat, "https://b")] ∧
  read_urls 1 [bytes [9; 32]%nat +:+ "https://a" +:+ bytes [32; 13; 10]%nat;
               bytes [194; 160]%nat;
               bytes [227; 128; 128]%nat +:+ "# comment";
               bytes [226; 128; 137]%nat +:+ "https://b#x" +:+ bytes [194; 133]%nat] =
    [(1%nat, "https://a"); (4%nat, "https://b#x")] ∧
  (∀ lines, read_urls 1 lines = work_items lines) ∧
  (∀ lines n u, (n, u) ∈ read_urls 1 lines → Str.space_width u = 0%nat).
Proof.
  split; [reflexivity|]. split; [vm_compute; reflexivity|]. split.
  - intros lines. apply read_urls_work_items_from.
  - intros lines n u Hin. apply read_urls_stripped in Hin as [line ->].
    apply strip_width.
Qed.

Lemma batch_item_inv E profile coe line_num url t s r s' :
  batch_item E profile coe line_num url t s = (r, s') →
  ∃ t' go, r = Ret (t', go) ∧
    ((t' = count_success t ∧ go = true) ∨
     (t' = count_failure line_num url t ∧ go = coe) ∨
     (t' = t ∧ go = false)).
Proof.
  intros H. unfold batch_item in H.
  apply try_catch_inv in H as [(a & H & ->)|(e & s1 & H & Hh)].
  - apply bind_inv in H as [(result & s1 & _ & H)|(e & _ & ?)]; [|done].
    destruct (result =? 0); cbv [bind log_success log_error log ret] in H;
      simplify_eq; eauto 10.
  - destruct e; cbv [except_Exception is_Exception bind log_warn log_error log ret] in Hh;
      simplify_eq; eauto 10.
Qed.

(** A download that returns a non-zero code, or raises an [Exception], is
    counted as a failure and listed with its line number. *)
Lemma batch_item_failure E profile coe line_num url t s rc s1 :
  download_single E url profile true 2 s = (Ret rc, s1) → rc ≠ 0 →
  batch_item E profile coe line_num url t s =
    (Ret (count_failure line_num url t, coe),
     emit (Log ERROR ("Failed to download: " +:+ Str.take 50 url +:+ "...")) s1).
Proof.
  intros H Hrc. unfold batch_item, try_catch.
  rewrite (bind_Ret _ _ _ _ _ H). by rewrite (proj2 (Z.eqb_neq rc 0) Hrc).
Qed.

Lemma batch_item_exception E profile coe line_num url t s e s1 :
  download_single E url profile true 2 s = (Raise e, s1) →
  is_Exception e = true →
  batch_item E profile coe line_num url t s =
    (Ret (count_failure line_num url t, coe),
     emit (Log ERROR ("Exception: " +:+ exn_text e)) s1).
Proof.
  intros H He. unfold batch_item, try_catch.
  rewrite (bind_Raise _ _ _ _ _ H). by destruct e.
Qed.

(** The loop always ends with a tally; it keeps the total, counts at most
    one outcome for each item, and its failure count stays the length of
    its failure list. *)
Lemma batch_loop_inv E profile coe : ∀ urls t s r s',
  batch_loop E profile coe urls t s = (r, s') →
  ∃ t', r = Ret t' ∧
    total_urls t' = total_urls t ∧
    (fail_count t ≤ fail_count t')%nat ∧
    (success_count t' + fail_count t' ≤
       success_count t + fail_count t + length urls)%nat ∧
    (fail_count t = length (failed_urls t) →
     fail_count t' = length (failed_urls t')).
Proof.
  induction urls as [|[line_num url] urls IH]; intros t s r s' H.
  - apply ret_inv in H as [-> ->]. exists t. repeat split; auto; lia.
  - cbn [batch_loop] in H.
    apply bind_inv in H as [([t1 go] & s1 & Hitem & H)|(e & Hitem & ->)];
      apply batch_item_inv in Hitem as (t1' & go' & Heq & Hcase); [|done].
    simplify_eq. cbn [fst snd] in H.
    assert (total_urls t1' = total_urls t ∧
            (fail_count t ≤ fail_count t1')%nat ∧
            (success_count t1' + fail_count t1' ≤ success_count t + fail_count t + 1)%nat ∧
            (fail_count t = length (failed_urls t) →
             fail_count t1' = length (failed_urls t1'))) as (Ht & Hf & Hs & Hl).
    { destruct Hcase as [[-> _]|[[-> _]|[-> _]]]; simpl;
        repeat split; auto; try lia.
      intros ->. rewrite length_app. simpl. lia. }
    destruct go'.
    + apply IH in H as (t' & -> & Ht' & Hf' & Hs' & Hl').
      exists t'. repeat split; auto; simpl; try lia; congruence.
    + apply ret_inv in H as [-> ->]. exists t1'. repeat split; auto; simpl; lia.
Qed.

(** [download_batch] up to its loop, when the list file can be read. *)
Lemma download_batch_prefix E list_file profile coe s f :
  files s !! Path.join (cwd s) list_file = Some f →
  Path.join (cwd s) list_file ∉ unreadable E →
  let urls := read_urls 1 (lines_of E f) in
  ∃ s1, files s1 = files s ∧ runs s1 = runs s ∧
    download_batch E list_file profile coe s =
    (if bool_decide (urls = [])
     then bind (log_warn ("No URLs found in " +:+ list_file)) (λ _, ret 0)
     else
       bind (log_info ("Found " +:+ pretty (length urls) +:+ " URL(s) to download")) (λ _,
         bind (batch_loop E profile coe urls
                 {| total_urls := length urls; success_count := 0;
                    fail_count := 0; failed_urls := [] |}) (λ t,
           bind (report t) (λ _,
             ret (if (fail_count t =? 0)%nat then 0 else 1))))) s1.
Proof.
  intros Hf Hr urls. unfold download_batch.
  erewrite bind_Ret by reflexivity. erewrite bind_Ret by reflexivity.
  rewrite bool_decide_eq_true_2 by (by eexists). cbn [negb].
  erewrite bind_Ret by reflexivity.
  match goal with |- context [bind (start_server E) _ ?s0] =>
    destruct (start_server E s0) as [r s1] eqn:Hs;
    pose proof Hs as Hs'; apply start_server_inv in Hs'
      as (Hc & Hfiles & Hruns & _) end.
  assert (∃ c, r = Ret c) as [c ->] by (destruct Hc as [-> | ->]; eauto).
  rewrite (bind_Ret _ _ _ _ _ Hs).
  erewrite bind_Ret; cycle 1.
  { unfold open_lines, bind, open_read. rewrite Hfiles. simpl. rewrite Hf.
    rewrite bool_decide_eq_false_2 by done. reflexivity. }
  exists s1. done.
Qed.

Lemma retry_files E argv mr fuel attempt result s r s' :
  retry E argv mr fuel attempt result s = (r, s') → files s' = files s.
Proof. intros H. by apply retry_bound in H as (_ & _ & ?). Qed.

(** A download whose first attempt exits with 0. *)
Lemma download_single_first_try E url profile s :
  is_Some (files s !! profile_path E profile) → venv_present E s →
  engine E (runs s) = Exited 0 →
  ∃ s', download_single E url profile true 2 s = (Ret 0, s') ∧
        runs s' = S (runs s) ∧
        is_Some (files s' !! profile_path E profile) ∧ venv_present E s'.
Proof.
  intros Hp Hvenv Hok.
  destruct (download_single_venv E url profile true 2 s Hp Hvenv)
    as (s1 & argv & (Hruns & _ & Hmono & _) & ->).
  destruct (retry_success E argv 2 0 (Z.to_nat (2 + 1)) 0 None s1)
    as (s' & Heq & Hr).
  - change (Z.to_nat (2 + 1)) with 3%nat. lia.
  - intros j Hj. lia.
  - by rewrite Nat.add_0_r, Hruns.
  - exists s'. split; [done|]. apply retry_files in Heq.
    split; [lia|]. unfold venv_present in *. rewrite Heq.
    split; [by apply Hmono|]. destruct Hvenv; [left|right]; by apply Hmono.
Qed.

(** A download interrupted in its first attempt. *)
Lemma download_single_interrupted E url profile s :
  is_Some (files s !! profile_path E profile) → venv_present E s →
  engine E (runs s) = Interrupted →
  ∃ s', download_single E url profile true 2 s = (Raise KeyboardInterrupt, s').
Proof.
  intros Hp Hvenv Hint.
  destruct (download_single_venv E url profile true 2 s Hp Hvenv)
    as (s1 & argv & (Hruns & _) & ->).
  change (Z.to_nat (2 + 1)) with 3%nat. rewrite retry_step.
  unfold before_run. cbn [Z.ltb Z.compare]. unfold bind, run_engine, run_with.
  rewrite Hruns, Hint. by eexists.
Qed.

Lemma batch_item_success E profile coe line_num url t s s1 :
  download_single E url profile true 2 s = (Ret 0, s1) →
  batch_item E profile coe line_num url t s =
    (Ret (count_success t, true),
     emit (Log SUCCESS ("Downloaded: " +:+ Str.take 50 url +:+ "...")) s1).
Proof.
  intros H. unfold batch_item, try_catch.
  by rewrite (bind_Ret _ _ _ _ _ H).
Qed.

Lemma batch_item_interrupt E profile coe line_num url t s s1 :
  download_single E url profile true 2 s = (Raise KeyboardInterrupt, s1) →
  batch_item E profile coe line_num url t s =
    (Ret (t, false), emit (Log WARN "Batch download interrupted by user") s1).
Proof.
  intros H. unfold batch_item, try_catch.
  by rewrite (bind_Raise _ _ _ _ _ H).
Qed.

(** An interrupt in the item at the head of the list ends the loop with
    the tally as it stood. *)
Lemma batch_loop_interrupt E profile coe line_num url rest t s s1 :
  download_single E url profile true 2 s = (Raise KeyboardInterrupt, s1) →
  batch_loop E profile coe ((line_num, url) :: rest) t s =
    (Ret t, emit (Log WARN "Batch download interrupted by user") s1).
Proof.
  intros H. cbn [batch_loop].
  by rewrite (bind_Ret _ _ _ _ _ (batch_item_interrupt E profile coe line_num url t s s1 H)).
Qed.

Lemma batch_loop_until_interrupt E profile coe line_num url rest : ∀ done t s,
  is_Some (files s !! profile_path E profile) → venv_present E s →
  (∀ i, (i < length done)%nat → engine E (runs s + i) = Exited 0) →
  engine E (runs s + length done) = Interrupted →
  ∃ s', batch_loop E profile coe (done ++ (line_num, url) :: rest) t s =
    (Ret {| total_urls := total_urls t;
            success_count := success_count t + length done;
            fail_count := fail_count t;
            failed_urls := failed_urls t |}, s').
Proof.
  induction done as [|[n u] done IH]; intros t s Hp Hvenv Hok Hint.
  - simpl in Hint. rewrite Nat.add_0_r in Hint.
    destruct (download_single_interrupted E url profile s Hp Hvenv Hint) as [s1 H].
    rewrite app_nil_l, (batch_loop_interrupt _ _ _ _ _ _ _ _ _ H).
    eexists. f_equal. f_equal. destruct t; simpl. f_equal. lia.
  - destruct (download_single_first_try E u profile s Hp Hvenv)
      as (s1 & H & Hruns & Hp1 & Hvenv1).
    { rewrite <- (Nat.add_0_r (runs s)). apply Hok. simpl. lia. }
    rewrite <- app_comm_cons. cbn [batch_loop].
    rewrite (bind_Ret _ _ _ _ _ (batch_item_success E profile coe n u t s s1 H)).
    cbn [fst snd].
    destruct (IH (count_success t)
                (emit (Log SUCCESS ("Downloaded: " +:+ Str.take 50 u +:+ "...")) s1))
      as (s' & ->); try done.
    + intros i Hi. simpl. rewrite Hruns.
      replace (S (runs s) + i)%nat with (runs s + S i)%nat by lia.
      apply Hok. simpl. lia.
    + simpl. rewrite Hruns.
      by replace (S (runs s) + length done)%nat with (runs s + S (length done))%nat by lia.
    + eexists. f_equal. f_equal. simpl. f_equal. lia.
Qed.

Lemma batch_item_run E profile coe line_num url t s :
  let run := download_single E url profile true 2 s in
  batch_item E profile coe line_num url t s =
    (Ret (add_tally t [(line_num, url, run.1)], goes_on coe run.1),
     emit (item_line url run.1) run.2).
Proof.
  intros run. subst run.
  destruct (download_single E url profile true 2 s) as [[rc|e] s1] eqn:Hd; cbn [fst snd].
  - destruct (Z.eq_dec rc 0) as [->|Hrc].
    + rewrite (batch_item_success E profile coe line_num url t s s1 Hd).
      unfold add_tally, tally, count_success, goes_on. simpl. destruct t; simpl.
      repeat f_equal; try lia. by rewrite app_nil_r.
    + rewrite (batch_item_failure E profile coe line_num url t s rc s1 Hd Hrc).
      unfold add_tally, tally, count_failure, goes_on, item_line. simpl.
      rewrite (proj2 (Z.eqb_neq rc 0) Hrc). destruct t; simpl.
      repeat f_equal; lia.
  - destruct (is_Exception e) eqn:He.
    + rewrite (batch_item_exception E profile coe line_num url t s e s1 Hd He).
      unfold add_tally, tally, count_failure, goes_on, item_line. simpl.
      rewrite He. destruct t, e; simpl in *; try done; repeat f_equal; lia.
    + destruct e; try done.
      rewrite (batch_item_interrupt E profile coe line_num url t s s1 Hd).
      unfold add_tally, tally, goes_on. simpl. destruct t; simpl.
      repeat f_equal; try lia. by rewrite app_nil_r.
Qed.

Lemma add_tally_cons t d ds :
  add_tally (add_tally t [d]) ds = add_tally t (d :: ds).
Proof.
  unfold add_tally, tally. cbn [List.filter].
  destruct (item_succeeded d.2), (item_failed d.2); simpl;
    f_equal; rewrite ?app_nil_r, <- ?app_assoc; simpl; lia || done.
Qed.

Lemma add_tally_nil t : add_tally t [] = t.
Proof.
  unfold add_tally, tally. destruct t; simpl. f_equal; try lia. apply app_nil_r.
Qed.

(** The loop's tally is the tally of the downloads it made. *)
Lemma batch_loop_downloads E profile coe : ∀ urls t s,
  ∃ s', batch_loop E profile coe urls t s =
          (Ret (add_tally t (downloads E profile coe urls s)), s').
Proof.
  induction urls as [|[line_num url] urls IH]; intros t s.
  - exists s. cbn [batch_loop downloads]. by rewrite add_tally_nil.
  - cbn [batch_loop downloads].
    rewrite (bind_Ret _ _ _ _ _ (batch_item_run E profile coe line_num url t s)).
    cbn [fst snd].
    destruct (goes_on coe _).
    + match goal with |- context [batch_loop E profile coe urls ?t1 ?s1] =>
        destruct (IH t1 s1) as [s' ->] end.
      exists s'. by rewrite add_tally_cons.
    + eexists. reflexivity.
Qed.

(** [download_batch] up to its loop, from the state the supervisor left. *)
Lemma download_batch_unfold E list_file profile coe s f :
  files s !! Path.join (cwd s) list_file = Some f →
  Path.join (cwd s) list_file ∉ unreadable E →
  let urls := read_urls 1 (lines_of E f) in
  download_batch E list_file profile coe s =
    (if bool_decide (urls = [])
     then bind (log_warn ("No URLs found in " +:+ list_file)) (λ _, ret 0)
     else
       bind (log_info ("Found " +:+ pretty (length urls) +:+ " URL(s) to download")) (λ _,
         bind (batch_loop E profile coe urls
                 {| total_urls := length urls; success_count := 0;
                    fail_count := 0; failed_urls := [] |}) (λ t,
           bind (report t) (λ _,
             ret (if (fail_count t =? 0)%nat then 0 else 1)))))
      (start_server E (emit (Log INFO "Starting batch download...") s)).2.
Proof.
  intros Hf Hr urls. unfold download_batch.
  erewrite bind_Ret by reflexivity. erewrite bind_Ret by reflexivity.
  rewrite bool_decide_eq_true_2 by (by eexists). cbn [negb].
  erewrite bind_Ret by reflexivity.
  match goal with |- context [bind (start_server E) _ ?s0] =>
    destruct (start_server E s0) as [r s1] eqn:Hs;
    pose proof Hs as Hs'; apply start_server_inv in Hs'
      as (Hc & Hfiles & Hruns & _) end.
  assert (∃ c, r = Ret c) as [c ->] by (destruct Hc as [-> | ->]; eauto).
  rewrite (bind_Ret _ _ _ _ _ Hs).
  erewrite bind_Ret; cycle 1.
  { unfold open_lines, bind, open_read. rewrite Hfiles. simpl. rewrite Hf.
    rewrite bool_decide_eq_false_2 by done. reflexivity. }
  reflexivity.
Qed.

Lemma filter_failed_nil (ds : list (nat * string * outcome Z)) :
  List.filter (λ d, item_failed d.2) ds = [] ↔ ∀ d, d ∈ ds → item_failed d.2 = false.
Proof.
  induction ds as [|d ds IH]; cbn [List.filter].
  - split; [|done]. intros _ d Hd. by apply elem_of_nil in Hd.
  - destruct (item_failed d.2) eqn:Hd.
    + split; [done|]. intros H. assert (d ∈ d :: ds) as Hin by (by left). specialize (H d Hin). congruence.
    + rewrite IH. split.
      * intros H x Hx. apply elem_of_cons in Hx as [->|Hx]; auto.
      * intros H x Hx. apply H. by right.
Qed.

Lemma downloads_length E profile coe : ∀ urls s,
  (length (downloads E profile coe urls s) ≤ length urls)%nat.
Proof.
  induction urls as [|[n u] urls IH]; intros s; cbn [downloads length]; [lia|].
  destruct (goes_on coe _); [|simpl; lia]. specialize (IH (emit (item_line u
    (download_single E u profile true 2 s).1) (download_single E u profile true 2 s).2)).
  lia.
Qed.

Lemma tally_counts total (ds : list (nat * string * outcome Z)) :
  (success_count (tally total ds) + fail_count (tally total ds) ≤ length ds)%nat.
Proof.
  unfold tally. cbn [success_count fail_count].
  induction ds as [|d ds IH]; cbn [List.filter length]; [lia|].
  destruct d as [[n u] [rc|e]]; cbn [snd item_succeeded item_failed].
  - destruct (rc =? 0); simpl; lia.
  - destruct (is_Exception e); simpl; lia.
Qed.

(** C4: [download_batch] on a list file it can read returns 0 when no
    line qualifies.  Otherwise it prints the tally of the downloads it
    made, each reached work item with what [download_single] gave for it,
    and returns 0 exactly when none of them failed (returned a non-zero
    code or raised an [Exception]) and 1 exactly when one of them did,
    whatever [continue_on_error] is. *)
Theorem download_batch_exit_code E list_file profile continue_on_error s f :
  files s !! Path.join (cwd s) list_file = Some f →
  Path.join (cwd s) list_file ∉ unreadable E →
  let urls := read_urls 1 (lines_of E f) in
  let ds := downloads E profile continue_on_error urls (batch_start E urls s) in
  let t := tally (length urls) ds in
  (urls = [] →
   ∃ s', download_batch E list_file profile continue_on_error s = (Ret 0, s')) ∧
  (urls ≠ [] →
   ∃ code s',
     download_batch E list_file profile continue_on_error s = (Ret code, s') ∧
     last (console s') = Some (Report t) ∧
     (code = 0 ↔ fail_count t = 0%nat) ∧
     (code = 0 ↔ ∀ d, d ∈ ds → item_failed d.2 = false) ∧
     (code = 1 ↔ ∃ d, d ∈ ds ∧ item_failed d.2 = true) ∧
     ((0 < fail_count t)%nat → code = 1) ∧
     (failed_urls t ≠ [] → code = 1) ∧
     total_urls t = length urls ∧
     fail_count t = length (failed_urls t) ∧
     (success_count t + fail_count t ≤ total_urls t)%nat).
Proof.
  intros Hf Hr urls ds t.
  rewrite (download_batch_unfold E list_file profile continue_on_error s f Hf Hr).
  fold urls. split; intros Hurls.
  - rewrite bool_decide_eq_true_2 by done. by eexists.
  - rewrite bool_decide_eq_false_2 by done.
    erewrite bind_Ret by reflexivity. fold (batch_start E urls s).
    match goal with |- context [bind (batch_loop E profile continue_on_error urls ?t0) _ ?s0] =>
      destruct (batch_loop_downloads E profile continue_on_error urls t0 s0)
        as [s2 Hloop] end.
    rewrite (bind_Ret _ _ _ _ _ Hloop). fold ds.
    assert (add_tally {| total_urls := length urls; success_count := 0;
                         fail_count := 0; failed_urls := [] |} ds = t) as -> by reflexivity.
    erewrite bind_Ret by reflexivity.
    exists (if (fail_count t =? 0)%nat then 0 else 1). eexists.
    split; [reflexivity|]. split; [apply last_snoc|].
    assert (fail_count t = 0%nat ↔ ∀ d, d ∈ ds → item_failed d.2 = false) as Hnone.
    { rewrite <- filter_failed_nil. subst t. unfold tally. cbn [fail_count].
      by rewrite length_zero_iff_nil. }
    assert (fail_count t = length (failed_urls t)) as Hlen.
    { subst t. unfold tally. cbn [fail_count failed_urls]. by rewrite length_map. }
    assert (success_count t + fail_count t ≤ total_urls t)%nat as Hsum.
    { etransitivity; [apply tally_counts|]. apply downloads_length. }
    assert (total_urls t = length urls) as Htotal by reflexivity.
    destruct (Nat.eqb_spec (fail_count t) 0) as [Hz|Hne].
    + split; [done|].
      split; [split; [intros _; by apply Hnone|done]|].
      split.
      { split; [done|]. intros (d & Hd & Hfail).
        rewrite (proj1 Hnone Hz d Hd) in Hfail. done. }
      split; [lia|].
      split.
      { intros Hfailed. rewrite Hz in Hlen. symmetry in Hlen.
        by apply length_zero_iff_nil in Hlen. }
      split; [done|]. split; [done|]. done.
    + split; [split; [done|intros; lia]|].
      split.
      { split; [done|]. intros Hall. by apply Hnone in Hall. }
      split.
      { split; [|done]. intros _.
        destruct (List.filter (λ d, item_failed d.2) ds) as [|d l] eqn:Hfl.
        { subst t. unfold tally in Hne. cbn [fail_count] in Hne.
          rewrite Hfl in Hne. done. }
        exists d. assert (In d (List.filter (λ d, item_failed d.2) ds)) as Hin
          by (rewrite Hfl; by left).
        apply filter_In in Hin as [Hin Hd].
        split; [by apply list_elem_of_In|done]. }
      split; [done|]. split; [done|]. split; [done|]. split; [done|]. done.
Qed.

(** C10: a [KeyboardInterrupt] in an item ends the loop with the tally as
    it stood, so the interrupted item and those after it are counted
    neither as successes nor as failures; and a batch run interrupted in
    an item after items that all succeeded prints a summary with fewer
    successes than work items and no failure, and returns 0. *)
Theorem download_batch_interrupted E list_file profile continue_on_error s f
    done line_num url rest :
  files s !! Path.join (cwd s) list_file = Some f →
  Path.join (cwd s) list_file ∉ unreadable E →
  read_urls 1 (lines_of E f) = done ++ (line_num, url) :: rest →
  is_Some (files s !! profile_path E profile) → venv_present E s →
  (∀ i, (i < length done)%nat → engine E (runs s + i) = Exited 0) →
  engine E (runs s + length done) = Interrupted →
  (∀ t s0 s1,
     download_single E url profile true 2 s0 = (Raise KeyboardInterrupt, s1) →
     ∃ s', batch_loop E profile continue_on_error ((line_num, url) :: rest) t s0 =
             (Ret t, s')) ∧
  ∃ s', download_batch E list_file profile continue_on_error s = (Ret 0, s') ∧
    last (console s') =
      Some (Report {| total_urls := length done + 1 + length rest;
                      success_count := length done;
                      fail_count := 0; failed_urls := [] |}).
Proof.
  intros Hf Hr Hurls Hp Hvenv Hok Hint. split.
  { intros t s0 s1 H. rewrite (batch_loop_interrupt _ _ _ _ _ _ _ _ _ H). eauto. }
  destruct (download_batch_prefix E list_file profile continue_on_error s f Hf Hr)
    as (s1 & Hfiles & Hruns & ->).
  rewrite Hurls.
  rewrite bool_decide_eq_false_2 by (by destruct done).
  erewrite bind_Ret by reflexivity.
  match goal with |- context [bind (batch_loop E _ _ _ ?t0) _ ?s0] =>
    destruct (batch_loop_until_interrupt E profile continue_on_error
                line_num url rest done t0 s0) as (s2 & Hloop) end.
  - simpl. by rewrite Hfiles.
  - unfold venv_present. simpl. by rewrite Hfiles.
  - intros i Hi. simpl. rewrite Hruns. by apply Hok.
  - simpl. by rewrite Hruns.
  - rewrite (bind_Ret _ _ _ _ _ Hloop). erewrite bind_Ret by reflexivity.
    eexists. split; [reflexivity|]. simpl. rewrite last_snoc.
    do 2 f_equal. rewrite length_app. simpl. f_equal. lia.
Qed.

(** A list with comments only, and the list of the example with an
    engine that always fails: with [continue_on_error] both items are
    tried and both fail, without it the first failure is the only one,
    and the exit code is 1 either way. *)
Lemma download_batch_exit_code_witness :
  let E := Sample.host (λ _, Exited 3) in
  let empty := Sample.world (Sample.with_list ["# nothing"; "   "]) 0 in
  let s := Sample.world (Sample.with_list Sample.batch_lines) 0 in
  (∃ s', download_batch E "urls.txt" "gytmdl" false empty = (Ret 0, s')) ∧
  (∃ s', download_batch E "urls.txt" "gytmdl" true s = (Ret 1, s') ∧
     last (console s') =
       Some (Report {| total_urls := 2; success_count := 0; fail_count := 2;
                       failed_urls := [(1%nat, "https://a"); (4%nat, "https://b")] |})) ∧
  (∃ s', download_batch E "urls.txt" "gytmdl" false s = (Ret 1, s') ∧
     last (console s') =
       Some (Report {| total_urls := 2; success_count := 0; fail_count := 1;
                       failed_urls := [(1%nat, "https://a")] |})).
Proof.
  intros E empty s.
  assert (files s !! Path.join (cwd s) "urls.txt" = Some (Text Sample.batch_lines))
    as Hf by reflexivity.
  assert (Path.join (cwd s) "urls.txt" ∉ unreadable E) as Hr
    by (unfold E; simpl; set_solver).
  assert (read_urls 1 (lines_of E (Text Sample.batch_lines)) ≠ []) as Hurls
    by discriminate.
  split; [|split].
  - apply (proj1 (download_batch_exit_code E "urls.txt" "gytmdl" false empty
                    (Text ["# nothing"; "   "]) ltac:(reflexivity)
                    ltac:(unfold E; simpl; set_solver))).
    reflexivity.
  - destruct (proj2 (download_batch_exit_code E "urls.txt" "gytmdl" true s
                       (Text Sample.batch_lines) Hf Hr) Hurls)
      as (code & s' & Hrun & Hlast & _ & _ & Hone & _).
    exists s'.
    assert (code = 1) as ->.
    { apply Hone. eexists. split; [left|reflexivity]. }
    split; [done|]. rewrite Hlast. vm_compute. reflexivity.
  - destruct (proj2 (download_batch_exit_code E "urls.txt" "gytmdl" false s
                       (Text Sample.batch_lines) Hf Hr) Hurls)
      as (code & s' & Hrun & Hlast & _ & _ & Hone & _).
    exists s'.
    assert (code = 1) as ->.
    { apply Hone. eexists. split; [left|reflexivity]. }
    split; [done|]. rewrite Hlast. vm_compute. reflexivity.
Defined.

(** The list of the example, interrupted during its second item. *)
Lemma download_batch_interrupted_witness :
  let E := Sample.host (λ n, if (n =? 0)%nat then Exited 0 else Interrupted) in
  let s := Sample.world (Sample.with_list Sample.batch_lines) 0 in
  ∃ s', download_batch E "urls.txt" "gytmdl" true s = (Ret 0, s') ∧
    last (console s') =
      Some (Report {| total_urls := 2; success_count := 1;
                      fail_count := 0; failed_urls := [] |}).
Proof.
  intros E s.
  apply (proj2 (download_batch_interrupted E "urls.txt" "gytmdl" true s
                  (Text Sample.batch_lines) [(1%nat, "https://a")] 4%nat "https://b" []
                  ltac:(reflexivity) ltac:(unfold E; simpl; set_solver)
                  ltac:(reflexivity) ltac:(by eexists) ltac:(right; by eexists)
                  ltac:(intros [|i] Hi; [reflexivity|simpl in Hi; lia])
                  ltac:(reflexivity))).
Defined.

(** * More on the code *)

(** ** Config repair, further *)

(** A document without a defect goes through the repair unchanged. *)
Lemma fix_config_clean E p create_backup s config :
  files s !! p = Some (Json (JObj config)) → p ∉ unreadable E →
  is_aria2c config = false → template_clean config →
  fix_config_if_needed E p create_backup s = (Ret false, s).
Proof.
  intros Hf Hr Hm Hc.
  assert (mentions_date config = false ∧ apply_fixes config = Ret (config, false))
    as [Hd Hfix].
  { unfold mentions_date, apply_fixes, fix_download_mode, fix_date_template,
      template_clean in *. rewrite Hm. simpl.
    destruct (Dict.get "template_folder" config) as [[]|]; try done; simpl.
    by rewrite Hc. }
  unfold fix_config_if_needed, try_catch, fix_config_body.
  rewrite (bind_Ret _ _ s (Json (JObj config)) s); cycle 1.
  { unfold open_read. rewrite Hf. by rewrite bool_decide_eq_false_2. }
  cbn [json_load]. rewrite (bind_Ret _ _ s (JObj config) s) by done.
  cbn [dict_receiver]. rewrite (bind_Ret _ _ s config s) by done.
  rewrite Hm, Hd, andb_false_r.
  rewrite (bind_Ret _ _ s () s) by done.
  rewrite Hfix. reflexivity.
Qed.

(** X1: a document without a defect, its template absent or a string, is
    left alone: the repair returns [False] and nothing at all changes, not
    a file, not the console. *)
Theorem clean_document_untouched E p create_backup s config :
  files s !! p = Some (Json (JObj config)) → p ∉ unreadable E →
  is_aria2c config = false → template_clean config →
  fix_config_if_needed E p create_backup s = (Ret false, s).
Proof. apply fix_config_clean. Qed.

(** X2: a legacy download mode is removed: the repair returns [True] and
    the document written back has no [download_mode] field. *)
Theorem legacy_mode_removed E p create_backup s config :
  files s !! p = Some (Json (JObj config)) →
  p ∉ unreadable E → p ∉ unwritable E →
  defect_mode config → template_is_text config →
  ∃ config' s',
    fix_config_if_needed E p create_backup s = (Ret true, s') ∧
    files s' !! p = Some (Json (JObj config')) ∧
    Dict.get "download_mode" config' = None.
Proof.
  intros Hf Hr Hw Hd Ht.
  destruct (defect_gets_fixed config (or_introl Hd) Ht) as [config' Hfix].
  destruct (fix_config_applies E p create_backup s config config' Hf Hr Hw Hfix)
    as (s' & Hrun & Hf').
  exists config', s'. split; [done|]. split; [done|].
  unfold apply_fixes, fix_download_mode, fix_date_template in Hfix.
  unfold defect_mode in Hd. rewrite Hd in Hfix. cbn [fst] in Hfix.
  destruct (Dict.get "template_folder" (Dict.pop "download_mode" config))
    as [template|]; [|simplify_eq; apply get_pop_eq].
  destruct (py_in placeholder template) as [[]|]; [| |done].
  - destruct (str_receiver template); simplify_eq.
    rewrite get_set_ne by done. apply get_pop_eq.
  - simplify_eq. apply get_pop_eq.
Qed.

(** X3: a repair that reports a fix changes no field but
    [download_mode] and [template_folder]. *)
Theorem repair_keeps_other_fields E p create_backup s s' config :
  files s !! p = Some (Json (JObj config)) →
  fix_config_if_needed E p create_backup s = (Ret true, s') →
  ∃ config', files s' !! p = Some (Json (JObj config')) ∧
    ∀ k, k ≠ "download_mode" → k ≠ "template_folder" →
         Dict.get k config' = Dict.get k config.
Proof.
  intros Hf Hrun.
  apply fix_config_inv in Hrun as (_ & b & [= <-] & _ & Ht).
  destruct Ht as (_ & _ & config0 & config' & Hf0 & Hfix & Hf'); [done|].
  rewrite Hf in Hf0. simplify_eq.
  exists config'. split; [done|]. intros k Hk1 Hk2.
  unfold apply_fixes, fix_date_template in Hfix.
  assert (Dict.get k (fix_download_mode config0).1 = Dict.get k config0) as Hpop.
  { unfold fix_download_mode. destruct (is_aria2c config0); [|done].
    simpl. by apply get_pop_ne. }
  destruct (Dict.get "template_folder" (fix_download_mode config0).1) as [template|];
    [|by destruct (fix_download_mode config0); simplify_eq].
  destruct (py_in placeholder template) as [[]|]; [| |done].
  - destruct (str_receiver template); simplify_eq. by rewrite get_set_ne.
  - by destruct (fix_download_mode config0); simplify_eq.
Qed.

(** X4: a template that is [null], a bool or a number makes the repair
    fail on its [in] test: it warns of a [TypeError], returns [False] and
    writes nothing, so a legacy download mode in the same document
    stays. *)
Theorem scalar_template_aborts_repair E p create_backup s config v :
  files s !! p = Some (Json (JObj config)) → p ∉ unreadable E →
  Dict.get "template_folder" config = Some v → is_scalar v = true →
  ∃ s', fix_config_if_needed E p create_backup s = (Ret false, s') ∧
        files s' !! p = Some (Json (JObj config)) ∧
        last (console s') = Some (Log WARN "Could not fix config: TypeError").
Proof.
  intros Hf Hr Hg Hv.
  assert (apply_fixes config = Raise TypeError) as Hfix.
  { unfold apply_fixes, fix_date_template.
    assert (Dict.get "template_folder" (fix_download_mode config).1 = Some v) as ->.
    { unfold fix_download_mode. destruct (is_aria2c config); [|done].
      simpl. by rewrite get_pop_ne. }
    by destruct v. }
  unfold fix_config_if_needed, try_catch, fix_config_body.
  rewrite (bind_Ret _ _ s (Json (JObj config)) s); cycle 1.
  { unfold open_read. rewrite Hf. by rewrite bool_decide_eq_false_2. }
  cbn [json_load]. rewrite (bind_Ret _ _ s (JObj config) s) by done.
  cbn [dict_receiver]. rewrite (bind_Ret _ _ s config s) by done.
  match goal with |- context [bind (backup_step E p ?w) _ s] =>
    destruct (backup_step E p w s) as [r s1] eqn:Hstep;
    pose proof Hstep as Hstep'; apply backup_step_inv in Hstep' as (-> & _ & Hp);
    rewrite (bind_Ret _ _ _ _ _ Hstep) end.
  rewrite Hfix. cbn.
  eexists. split; [reflexivity|]. simpl. rewrite Hp, Hf. split; [done|].
  apply last_snoc.
Qed.

Lemma append_empty_l s : "" +:+ s = s.
Proof. reflexivity. Qed.

Lemma append_cons c a b : String c a +:+ b = String c (a +:+ b).
Proof. reflexivity. Qed.

Lemma startswith_app x b : Str.startswith x (x +:+ b) = true.
Proof.
  induction x as [|c x IH]; [by destruct b|].
  rewrite append_cons. cbn [Str.startswith]. by rewrite Ascii.eqb_refl.
Qed.

Lemma contains_app_mid x a b : Str.contains x (a +:+ x +:+ b) = true.
Proof.
  induction a as [|c a IH].
  - rewrite append_empty_l. destruct (x +:+ b) eqn:H; cbn [Str.contains];
      rewrite <- H, startswith_app; done.
  - rewrite append_cons. cbn [Str.contains]. rewrite IH. apply orb_true_r.
Qed.

Lemma get_set_eq k v d : Dict.get k (Dict.set k v d) = Some v.
Proof.
  induction d as [|[k0 v0] d IH]; simpl.
  - by rewrite String.eqb_refl.
  - destruct (String.eqb_spec k k0) as [->|Hne]; simpl.
    + by rewrite String.eqb_refl.
    + by destruct (String.eqb_spec k k0).
Qed.

Lemma replace_go_shorter old skip s :
  (String.length (Str.replace_go old "" skip s) ≤ String.length s)%nat.
Proof.
  revert skip. induction s as [|c s IH]; intros skip; [done|].
  cbn [Str.replace_go]. destruct skip as [|k].
  - destruct (Str.startswith old (String c s)).
    + rewrite append_empty_l. simpl. specialize (IH (Nat.pred (String.length old))). lia.
    + cbn [String.length]. specialize (IH 0%nat). lia.
  - cbn [String.length]. specialize (IH k). lia.
Qed.

Lemma replace_go_same_length old s :
  old ≠ "" →
  String.length (Str.replace_go old "" 0 s) = String.length s →
  Str.contains old s = false.
Proof.
  intros Hold. induction s as [|c s IH].
  - by destruct old.
  - cbn [Str.replace_go Str.contains].
    destruct (Str.startswith old (String c s)) eqn:Hs.
    + rewrite append_empty_l. simpl. intros H.
      pose proof (replace_go_shorter old (Nat.pred (String.length old)) s). lia.
    + simpl. intros H. apply IH. lia.
Qed.

(** X5: the date fix never lengthens a template, and it changes a
    template exactly when a bracket-wrapped placeholder is in it. *)
Theorem strip_date_changes_iff t :
  (String.length (strip_date t) ≤ String.length t)%nat ∧
  (strip_date t = t ↔ Str.contains "[{date:%Y}]" t = false).
Proof.
  unfold strip_date, Str.replace.
  pose proof (replace_go_shorter " [{date:%Y}]" 0 t) as H1.
  pose proof (replace_go_shorter "[{date:%Y}]" 0
                (Str.replace_go " [{date:%Y}]" "" 0 t)) as H2.
  split; [lia|]. split.
  - intros Heq.
    assert (Str.contains " [{date:%Y}]" t = false) as Hc1.
    { apply replace_go_same_length; [done|]. rewrite Heq in H2. lia. }
    rewrite (replace_go_absent _ _ _ Hc1) in Heq.
    apply replace_go_same_length; [done|]. by rewrite Heq.
  - apply strip_date_unwrapped.
Qed.

Lemma contains_first_char c p s :
  Str.contains (String c p) s = true → Str.contains (String c "") s = true.
Proof.
  induction s as [|a s IH]; [done|]. cbn [Str.contains Str.startswith].
  intros H. apply orb_true_iff in H as [H|H]; apply orb_true_iff.
  - left. destruct (Ascii.eqb c a); [|done]. by destruct s.
  - right. auto.
Qed.

Lemma contains_char_app c a b :
  Str.contains (String c "") (a +:+ b) =
  Str.contains (String c "") a || Str.contains (String c "") b.
Proof.
  induction a as [|x a IH].
  - by rewrite append_empty_l.
  - rewrite append_cons. cbn [Str.contains Str.startswith]. rewrite IH.
    by destruct (Ascii.eqb c x).
Qed.

Lemma replace_wrapped_after pre post :
  Str.contains "[" pre = false →
  Str.replace_go " [{date:%Y}]" "" 0 (pre +:+ " [{date:%Y}]" +:+ post) =
  pre +:+ Str.replace_go " [{date:%Y}]" "" 0 post.
Proof.
  induction pre as [|c pre IH]; intros Hb; [reflexivity|].
  assert (Ascii.eqb "[" c = false ∧ Str.contains "[" pre = false) as [Hc Hb'].
  { cbn [Str.contains Str.startswith] in Hb. by destruct (Ascii.eqb "[" c). }
  rewrite (append_cons c pre). cbn [Str.replace_go].
  assert (Str.startswith " [{date:%Y}]" (String c (pre +:+ " [{date:%Y}]" +:+ post))
          = false) as ->.
  { cbn [Str.startswith]. destruct (Ascii.eqb " " c); [|done].
    destruct pre as [|c' pre]; [done|].
    rewrite (append_cons c' pre).
    cbn [Str.contains Str.startswith] in Hb'. by destruct (Ascii.eqb "[" c'). }
  rewrite (append_cons c pre). f_equal. by apply IH.
Qed.

(** A placeholder wrapped in brackets after a space, in a template with
    no other opening bracket, is taken out with its wrapper, and nothing
    else is. *)
Lemma strip_date_removes_wrapped pre post :
  Str.contains "[" pre = false → Str.contains "[" post = false →
  strip_date (pre +:+ " [{date:%Y}]" +:+ post) = pre +:+ post.
Proof.
  intros Hpre Hpost. unfold strip_date, Str.replace.
  rewrite (replace_wrapped_after pre post Hpre).
  assert (∀ p, Str.contains (String "[" p) post = false) as Hno.
  { intros p. destruct (Str.contains (String "[" p) post) eqn:H; [|done].
    apply contains_first_char in H. congruence. }
  rewrite (replace_go_absent " [{date:%Y}]" "" post); cycle 1.
  { destruct (Str.contains " [{date:%Y}]" post) eqn:H; [|done].
    apply contains_tail in H. by rewrite Hno in H. }
  apply replace_go_absent.
  destruct (Str.contains "[{date:%Y}]" (pre +:+ post)) eqn:H; [|done].
  apply contains_first_char in H. rewrite contains_char_app in H.
  by rewrite Hpre, Hpost in H.
Qed.

(** X6: without [create_backup] the repair touches no file but the
    config, and does nothing to the file system but, at most, the one
    write. *)
Theorem repair_without_backup E p s r s' :
  fix_config_if_needed E p false s = (r, s') →
  (∀ q, q ≠ p → files s' !! q = files s !! q) ∧
  (journal s' = journal s ∨ ∃ doc, journal s' = journal s ++ [OpWrite p doc]).
Proof.
  unfold fix_config_if_needed, fix_config_body, backup_step, try_catch, bind,
    open_read, open_write, lift, ret, except_Exception, log_warn, log.
  cbn [andb]. intros H.
  destruct (files s !! p) as [[doc|lines]|]; simpl in H;
    [|by case_bool_decide; simplify_eq/=; auto|by simplify_eq/=; auto].
  case_bool_decide; [by simplify_eq/=; auto|].
  destruct doc; simpl in H; try by simplify_eq/=; auto.
  destruct (apply_fixes fields) as [[config' []]|e] eqn:Hfix; simpl in H.
  - case_bool_decide; simplify_eq/=; [by auto|]. split; [|by eauto].
    intros q Hq. by rewrite lookup_insert_ne.
  - simplify_eq/=. auto.
  - rewrite (apply_fixes_Exception _ _ Hfix) in H. simplify_eq/=. auto.
Qed.

(** X7: a template with the placeholder wrapped in brackets after a
    space, and no other opening bracket, is repaired to the template
    without the wrapped placeholder; the repair returns [True]. *)
Theorem wrapped_placeholder_repaired E p create_backup s config pre post :
  files s !! p = Some (Json (JObj config)) →
  p ∉ unreadable E → p ∉ unwritable E →
  Dict.get "template_folder" config = Some (JStr (pre +:+ " [{date:%Y}]" +:+ post)) →
  Str.contains "[" pre = false → Str.contains "[" post = false →
  ∃ config' s',
    fix_config_if_needed E p create_backup s = (Ret true, s') ∧
    files s' !! p = Some (Json (JObj config')) ∧
    Dict.get "template_folder" config' = Some (JStr (pre +:+ post)).
Proof.
  intros Hf Hr Hw Hg Hpre Hpost.
  assert (Str.contains placeholder (pre +:+ " [{date:%Y}]" +:+ post) = true) as Hc.
  { change (" [{date:%Y}]" +:+ post) with (" [" +:+ placeholder +:+ "]" +:+ post).
    replace (pre +:+ " [" +:+ placeholder +:+ "]" +:+ post)
      with ((pre +:+ " [") +:+ placeholder +:+ "]" +:+ post); [apply contains_app_mid|].
    clear. induction pre as [|c pre IH]; [done|]. rewrite !append_cons. by f_equal. }
  set (fixed := fix_download_mode config).
  assert (Dict.get "template_folder" fixed.1 =
          Some (JStr (pre +:+ " [{date:%Y}]" +:+ post))) as Hg'.
  { unfold fixed, fix_download_mode. destruct (is_aria2c config); [|done].
    simpl. by rewrite get_pop_ne. }
  assert (apply_fixes config =
          Ret (Dict.set "template_folder" (JStr (pre +:+ post)) fixed.1, true)) as Hfix.
  { unfold apply_fixes, fix_date_template. fold fixed. rewrite Hg'.
    cbn [py_in str_receiver]. rewrite Hc.
    by rewrite strip_date_removes_wrapped. }
  destruct (fix_config_applies E p create_backup s _ _ Hf Hr Hw Hfix) as (s' & Hrun & Hf').
  eexists _, s'. split; [done|]. split; [done|]. apply get_set_eq.
Qed.

(** *** Worked examples *)

Lemma clean_document_untouched_witness :
  fix_config_if_needed Demo.plain Sample.cfg true (Demo.holding Demo.clean_fields) =
    (Ret false, Demo.holding Demo.clean_fields).
Proof.
  apply (clean_document_untouched Demo.plain Sample.cfg true
           (Demo.holding Demo.clean_fields) Demo.clean_fields).
  - reflexivity.
  - unfold Demo.plain. simpl. set_solver.
  - reflexivity.
  - reflexivity.
Defined.

Lemma legacy_mode_removed_witness :
  ∃ config' s',
    fix_config_if_needed Demo.plain Sample.cfg true (Demo.holding Demo.legacy_fields) =
      (Ret true, s') ∧
    files s' !! Sample.cfg = Some (Json (JObj config')) ∧
    Dict.get "download_mode" config' = None.
Proof.
  apply (legacy_mode_removed Demo.plain Sample.cfg true
           (Demo.holding Demo.legacy_fields) Demo.legacy_fields).
  - reflexivity.
  - unfold Demo.plain. simpl. set_solver.
  - unfold Demo.plain. simpl. set_solver.
  - reflexivity.
  - exact I.
Defined.

Lemma repair_keeps_other_fields_witness :
  let after :=
    (fix_config_if_needed Demo.plain Sample.cfg true (Demo.holding Demo.legacy_fields)).2 in
  ∃ config', files after !! Sample.cfg = Some (Json (JObj config')) ∧
    ∀ k, k ≠ "download_mode" → k ≠ "template_folder" →
         Dict.get k config' = Dict.get k Demo.legacy_fields.
Proof.
  intros after.
  apply (repair_keeps_other_fields Demo.plain Sample.cfg true
           (Demo.holding Demo.legacy_fields) after Demo.legacy_fields).
  - reflexivity.
  - vm_compute. reflexivity.
Defined.

Lemma scalar_template_aborts_repair_witness :
  ∃ s',
    fix_config_if_needed Demo.plain Sample.cfg true (Demo.holding Demo.scalar_fields) =
      (Ret false, s') ∧
    files s' !! Sample.cfg = Some (Json (JObj Demo.scalar_fields)) ∧
    last (console s') = Some (Log WARN "Could not fix config: TypeError").
Proof.
  apply (scalar_template_aborts_repair Demo.plain Sample.cfg true
           (Demo.holding Demo.scalar_fields) Demo.scalar_fields (JInt 5)).
  - reflexivity.
  - unfold Demo.plain. simpl. set_solver.
  - reflexivity.
  - reflexivity.
Defined.

Lemma wrapped_placeholder_repaired_witness :
  ∃ config' s',
    fix_config_if_needed Demo.plain Sample.cfg true (Demo.holding Demo.legacy_fields) =
      (Ret true, s') ∧
    files s' !! Sample.cfg = Some (Json (JObj config')) ∧
    Dict.get "template_folder" config' = Some (JStr "{album}").
Proof.
  apply (wrapped_placeholder_repaired Demo.plain Sample.cfg true
           (Demo.holding Demo.legacy_fields) Demo.legacy_fields "{album}" "").
  - reflexivity.
  - unfold Demo.plain. simpl. set_solver.
  - unfold Demo.plain. simpl. set_solver.
  - reflexivity.
  - reflexivity.
  - reflexivity.
Defined.

Lemma repair_without_backup_witness :
  let run :=
    fix_config_if_needed Demo.plain Sample.cfg false (Demo.holding Demo.legacy_fields) in
  (∀ q, q ≠ Sample.cfg →
        files run.2 !! q = files (Demo.holding Demo.legacy_fields) !! q) ∧
  (journal run.2 = journal (Demo.holding Demo.legacy_fields) ∨
   ∃ doc, journal run.2 =
            journal (Demo.holding Demo.legacy_fields) ++ [OpWrite Sample.cfg doc]).
Proof.
  intros run.
  apply (repair_without_backup Demo.plain Sample.cfg
           (Demo.holding Demo.legacy_fields) run.1 run.2).
  apply surjective_pairing.
Defined.

(** ** Server supervisor, further *)

(** X8: the process scan returns the PID of the first process of the table
    that is a node process running [main.js], and [None] when the table has
    none. *)
Theorem scan_first_match ps :
  match scan ps with
  | Some pid =>
      ∃ pre p post, ps = pre ++ p :: post ∧
        Forall (λ q, is_server_proc q = false) pre ∧
        is_server_proc p = true ∧ proc_pid p = pid
  | None => Forall (λ q, is_server_proc q = false) ps
  end.
Proof.
  induction ps as [|p ps IH]; [by constructor|].
  cbn [scan]. fold (is_server_proc p).
  destruct (is_server_proc p) eqn:Hp.
  - exists [], p, ps. by repeat split.
  - destruct (scan ps) as [pid|].
    + destruct IH as (pre & q & post & -> & Hpre & Hq & Hpid).
      exists (p :: pre), q, post. repeat split; auto.
    + by constructor.
Qed.

(** X9: with a server process found and the probe answered,
    [start_server] does one scan and one probe, logs the PID and returns 0:
    it terminates nothing, spawns nothing and does not sleep. *)
Theorem start_server_fast_path E s :
  fast_path E s = true →
  start_server E s =
    (Ret 0,
     emit (Log INFO ("PO token server is already running (PID: " +:+
                     pretty (default 0 (scan (process_iter E (scans s)))) +:+ ")"))
       (next_ping (next_scan s))).
Proof.
  unfold fast_path, found_running. intros H.
  apply andb_prop in H as [Hfound Hping].
  unfold start_server, bind, is_server_running. rewrite Hfound.
  unfold check_server_health. simpl. by rewrite Hping.
Qed.

(** X11: off the fast path and with [main.js] there, the spawn decides:
    a spawned server gives 0, with the success line and its PID when it
    answers the probe and a warning when it does not; a missing [node]
    gives 1 and the install hint; any other failure of the spawn gives 1
    and the error line. *)
Theorem start_server_spawn_outcomes E s :
  fast_path E s = false → is_Some (files s !! server_path E) →
  ∃ s', start_server E s =
          (Ret (match popen E (spawns s) with Spawned _ => 0 | _ => 1 end), s') ∧
    last (console s') =
      Some (match popen E (spawns s) with
            | Spawned pid =>
                if probe_after_spawn E s
                then Log SUCCESS ("PO token server started successfully (PID: "
                                  +:+ pretty pid +:+ ")")
                else Log WARN "Server started but not responding yet, may need a moment..."
            | NodeMissing => Log INFO "Install with: winget install OpenJS.NodeJS"
            | SpawnFailed => Log ERROR "Failed to start server: OSError"
            end) ∧
    (popen E (spawns s) = NodeMissing →
     Log ERROR "Node.js not found. Please install Node.js." ∈ console s').
Proof.
  intros Hslow Hfile.
  destruct (start_server_slow_path E s Hslow)
    as (s1 & -> & Hf & Hsp & Hpi & _ & _).
  assert (bool_decide (is_Some (files s1 !! server_path E)) = true) as Hpresent
    by (rewrite Hf; by apply bool_decide_eq_true_2).
  unfold probe_after_spawn. rewrite <- Hpi, <- Hsp.
  unfold launch_server, bind at 1, path_exists. rewrite Hpresent.
  unfold try_catch, bind, Popen, log_info, log. cbn [spawns emit].
  destruct (popen E (spawns s1)) as [pid| |] eqn:Hpopen; cbn; rewrite ?Hpopen.
  - cbn. destruct (ping E (pings s1)); cbn;
      (eexists; split; [reflexivity|]); cbn; (split; [apply last_snoc|done]).
  - cbn. eexists. split; [reflexivity|]. cbn. split; [apply last_snoc|].
    intros _. rewrite !elem_of_app, !list_elem_of_singleton. auto.
  - cbn. eexists. split; [reflexivity|]. cbn. split; [apply last_snoc|done].
Qed.

(** *** Worked examples *)

Lemma start_server_fast_path_witness :
  start_server Demo.attended (Demo.holding Demo.clean_fields) =
    (Ret 0,
     emit (Log INFO "PO token server is already running (PID: 77)")
       (next_ping (next_scan (Demo.holding Demo.clean_fields)))).
Proof.
  apply (start_server_fast_path Demo.attended (Demo.holding Demo.clean_fields)).
  reflexivity.
Defined.

Lemma start_server_spawn_outcomes_witness :
  ∃ s', start_server Demo.plain (Demo.holding Demo.clean_fields) = (Ret 0, s') ∧
    last (console s') =
      Some (Log WARN "Server started but not responding yet, may need a moment...") ∧
    (Spawned 4242 = NodeMissing →
     Log ERROR "Node.js not found. Please install Node.js." ∈ console s').
Proof.
  apply (start_server_spawn_outcomes Demo.plain (Demo.holding Demo.clean_fields)).
  - reflexivity.
  - vm_compute. eauto.
Defined.

(** ** Single-item downloader, further *)

(** A profile that is not there ends [download_single] after the
    supervisor. *)
Lemma download_single_missing E url profile auto_fix max_retries s :
  files s !! profile_path E profile = None →
  ∃ s0, files s0 = files s ∧ runs s0 = runs s ∧ checks s0 = checks s ∧
    download_single E url profile auto_fix max_retries s =
      (Ret 1, emit (Log ERROR ("Profile not found: " +:+
                               Path.str (profile_path E profile))) s0).
Proof.
  intros Hnone. unfold download_single.
  erewrite bind_Ret by reflexivity. erewrite bind_Ret by reflexivity.
  match goal with |- context [bind (start_server E) _ ?s0] =>
    destruct (start_server E s0) as [r s1] eqn:Hs;
    pose proof Hs as Hs'; apply start_server_inv in Hs'
      as (Hr & Hf & Hruns & Hchecks & _) end.
  exists s1. repeat split; try done.
  assert (∃ c, r = Ret c) as [c ->] by (destruct Hr as [-> | ->]; eauto).
  rewrite (bind_Ret _ _ _ _ _ Hs).
  erewrite bind_Ret by reflexivity.
  rewrite bool_decide_eq_false_2; [reflexivity|].
  rewrite Hf. simpl. rewrite Hnone. by intros [? ?].
Qed.

(** The ways through [download_single]: it stops with 1 before the engine
    is run, the import check raises, or it comes to the retry loop. *)
Lemma download_single_cases E url profile auto_fix max_retries s r s' :
  download_single E url profile auto_fix max_retries s = (r, s') →
  (r = Ret 1 ∧ runs s' = runs s) ∨
  (∃ n, runs s' = runs s ∧
        ((r = Raise KeyboardInterrupt ∧ import_check E n = Interrupted) ∨
         (r = Raise OSError ∧ import_check E n = Crashed))) ∨
  (∃ s1 argv result, runs s1 = runs s ∧
     retry E argv max_retries (Z.to_nat (max_retries + 1)) 0 result s1 = (r, s')).
Proof.
  intros H.
  destruct (files s !! profile_path E profile) as [f|] eqn:Hp.
  - destruct (download_single_prefix E url profile auto_fix max_retries s)
      as (s1 & (Hruns & Hchecks & _) & Heq); [by rewrite Hp|].
    rewrite Heq in H. clear Heq.
    erewrite bind_Ret in H by reflexivity.
    erewrite bind_Ret in H by reflexivity.
    match type of H with (if ?b then _ else _) _ = _ => destruct b end.
    + right. right. rewrite download_with_retry in H.
      eexists _, _, _. split; [|exact H]. simpl. done.
    + unfold bind at 1, run_import_check, run_with in H.
      destruct (import_check E (checks s1)) as [rc| |] eqn:Hi.
      * destruct (rc =? 0) eqn:Hrc.
        -- right. right. erewrite bind_Ret in H by reflexivity.
           rewrite download_with_retry in H.
           eexists _, _, _. split; [|exact H]. simpl. done.
        -- left. cbv [bind log_error log_info log ret] in H. simplify_eq.
           split; [done|]. simpl. done.
      * right. left. exists (checks s1). simplify_eq. simpl. split; [done|]. by left.
      * right. left. exists (checks s1). simplify_eq. simpl. split; [done|]. by right.
  - destruct (download_single_missing E url profile auto_fix max_retries s Hp)
      as (s0 & _ & Hruns & _ & Heq).
    rewrite Heq in H. simplify_eq. left. split; [done|]. simpl. done.
Qed.

(** A loop that returns 0 has seen the engine exit with 0, after
    failures only. *)
Lemma retry_zero_inv E argv mr : ∀ fuel attempt result s s',
  result ≠ Some 0 →
  retry E argv mr fuel attempt result s = (Ret 0, s') →
  ∃ k, (k < fuel)%nat ∧ (∀ j, (j < k)%nat → fails_at E (runs s + j)) ∧
       engine E (runs s + k) = Exited 0 ∧ runs s' = S (runs s + k).
Proof.
  induction fuel as [|fuel IH]; intros attempt result s s' Hres H.
  - cbn [retry] in H. cbv [bind log_error log ret raise] in H.
    destruct result; simplify_eq.
  - rewrite retry_step in H.
    pose proof (before_run_runs mr attempt s) as Hb.
    destruct (engine E (runs (before_run mr attempt s))) as [rc| |] eqn:He.
    + rewrite (bind_Ret _ _ _ _ _ (run_engine_Exited E argv _ rc He)) in H.
      rewrite Hb in He.
      destruct (rc =? 0) eqn:Hrc.
      * apply Z.eqb_eq in Hrc as ->. apply ret_inv in H as [_ ->].
        exists 0%nat. rewrite Nat.add_0_r. repeat split; [lia| |done|by simpl; rewrite Hb].
        intros j Hj. lia.
      * apply Z.eqb_neq in Hrc. apply IH in H as (k & Hk & Hfail & Hok & Hruns).
        2: { intros [= ->]. done. }
        simpl in Hfail, Hok, Hruns. rewrite Hb in Hfail, Hok, Hruns.
        exists (S k). repeat split; [lia| | |].
        -- intros [|j] Hj.
           ++ rewrite Nat.add_0_r. by exists rc.
           ++ rewrite Nat.add_succ_r. apply Hfail. lia.
        -- by rewrite Nat.add_succ_r.
        -- by rewrite Nat.add_succ_r.
    + unfold bind, run_engine, run_with in H. rewrite He in H. simplify_eq.
    + unfold bind, run_engine, run_with in H. rewrite He in H. simplify_eq.
Qed.

(** What a loop that raises has met. *)
Lemma retry_raise_inv E argv mr : ∀ fuel attempt result s e s',
  retry E argv mr fuel attempt result s = (Raise e, s') →
  (e = UnboundLocalError ∧ fuel = 0%nat ∧ result = None) ∨
  (∃ n, e = KeyboardInterrupt ∧ engine E n = Interrupted) ∨
  (∃ n, e = OSError ∧ engine E n = Crashed).
Proof.
  induction fuel as [|fuel IH]; intros attempt result s e s' H.
  - cbn [retry] in H. cbv [bind log_error log ret raise] in H.
    destruct result; simplify_eq. by left.
  - rewrite retry_step in H.
    destruct (engine E (runs (before_run mr attempt s))) as [rc| |] eqn:He.
    + rewrite (bind_Ret _ _ _ _ _ (run_engine_Exited E argv _ rc He)) in H.
      destruct (rc =? 0).
      * by apply ret_inv in H as [? _].
      * apply IH in H as [(_ & _ & ?)|H]; [done|]. by right.
    + unfold bind, run_engine, run_with in H. rewrite He in H. simplify_eq.
      right. left. eauto.
    + unfold bind, run_engine, run_with in H. rewrite He in H. simplify_eq.
      right. right. eauto.
Qed.


(** X13: with the profile there, no virtual environment and a system
    interpreter that cannot import the engine, [download_single] makes
    that one import check, logs the error and the hint, and returns 1
    without running the engine. *)
Theorem download_single_no_interpreter E url profile auto_fix max_retries s rc :
  is_Some (files s !! profile_path E profile) →
  files s !! scripts_python E = None → files s !! bin_python E = None →
  import_check E (checks s) = Exited rc → rc ≠ 0 →
  ∃ s', download_single E url profile auto_fix max_retries s = (Ret 1, s') ∧
    runs s' = runs s ∧ checks s' = S (checks s) ∧
    last (console s') = Some (Log INFO "Run: python -m venv env") ∧
    Log ERROR "Virtual environment not found and gytmdl not installed" ∈ console s'.
Proof.
  intros Hp Hscripts Hbin Himport Hrc.
  destruct (download_single_prefix E url profile auto_fix max_retries s Hp)
    as (s1 & (Hruns & Hchecks & _ & Hsame) & ->).
  destruct (backup_path_not_venv E (profile_path E profile)) as [Hb1 Hb2].
  assert (files s1 !! scripts_python E = None) as Hs1.
  { rewrite Hsame; [done|]. rewrite !elem_of_cons, elem_of_nil.
    intros [Heq|[?|[]]]; [|done]. rewrite <- Heq, Hscripts in Hp. by destruct Hp. }
  assert (files s1 !! bin_python E = None) as Hb1'.
  { rewrite Hsame; [done|]. rewrite !elem_of_cons, elem_of_nil.
    intros [Heq|[?|[]]]; [|done]. rewrite <- Heq, Hbin in Hp. by destruct Hp. }
  erewrite bind_Ret by reflexivity.
  rewrite (bool_decide_eq_false_2 (is_Some (files s1 !! scripts_python E)))
    by (rewrite Hs1; by intros [? ?]).
  erewrite bind_Ret by reflexivity.
  rewrite (bool_decide_eq_false_2 (is_Some (files s1 !! bin_python E)))
    by (rewrite Hb1'; by intros [? ?]).
  erewrite bind_Ret; cycle 1.
  { unfold run_import_check, run_with. rewrite Hchecks, Himport. reflexivity. }
  rewrite (proj2 (Z.eqb_neq rc 0) Hrc).
  cbv [bind log_error log_info log ret].
  eexists. split; [reflexivity|]. simpl. rewrite Hruns, Hchecks.
  repeat split; [apply last_snoc|].
  rewrite !elem_of_app, !list_elem_of_singleton. auto.
Qed.

(** X14: with a non-negative [max_retries], [download_single] returns 0
    only when the engine exited with 0: in one of the first
    [max_retries + 1] invocations, after invocations that all failed, and
    as the last invocation made. *)
Theorem download_single_success_sound E url profile auto_fix max_retries s s' :
  0 ≤ max_retries →
  download_single E url profile auto_fix max_retries s = (Ret 0, s') →
  ∃ k, (Z.of_nat k ≤ max_retries) ∧
       (∀ j, (j < k)%nat → fails_at E (runs s + j)) ∧
       engine E (runs s + k) = Exited 0 ∧ runs s' = S (runs s + k).
Proof.
  intros Hmr H.
  apply download_single_cases in H as [[? _]|[(n & _ & [[? _]|[? _]])|H]]; try done.
  destruct H as (s1 & argv & result & Hruns & H).
  destruct (Z.to_nat (max_retries + 1)) as [|fuel] eqn:Hfuel; [lia|].
  rewrite retry_step in H. unfold before_run in H. cbn [Z.ltb Z.compare] in H.
  destruct (engine E (runs s1)) as [rc| |] eqn:He.
  - rewrite (bind_Ret _ _ _ _ _ (run_engine_Exited E argv _ rc He)) in H.
    rewrite Hruns in He.
    destruct (rc =? 0) eqn:Hrc.
    + apply Z.eqb_eq in Hrc as ->. apply ret_inv in H as [_ ->].
      exists 0%nat. rewrite Nat.add_0_r. repeat split; [lia| |done|by simpl; rewrite Hruns].
      intros j Hj. lia.
    + apply Z.eqb_neq in Hrc. apply retry_zero_inv in H as (k & Hk & Hfail & Hok & Hr').
      2: { intros [= ->]. done. }
      simpl in Hfail, Hok, Hr'. rewrite Hruns in Hfail, Hok, Hr'.
      exists (S k). repeat split; [lia| | |].
      * intros [|j] Hj.
        -- rewrite Nat.add_0_r. by exists rc.
        -- rewrite Nat.add_succ_r. apply Hfail. lia.
      * by rewrite Nat.add_succ_r.
      * by rewrite Nat.add_succ_r.
  - unfold bind, run_engine, run_with in H. rewrite He in H. simplify_eq.
  - unfold bind, run_engine, run_with in H. rewrite He in H. simplify_eq.
Qed.

(** A [KeyboardInterrupt] out of [download_single] comes from an
    interrupted subprocess. *)
Lemma download_single_interrupt_source E url profile auto_fix max_retries s s' :
  download_single E url profile auto_fix max_retries s = (Raise KeyboardInterrupt, s') →
  ∃ n, engine E n = Interrupted ∨ import_check E n = Interrupted.
Proof.
  intros H.
  apply download_single_cases in H as [[? _]|[(n & _ & [[_ ?]|[? _]])|H]]; try done.
  - eauto.
  - destruct H as (s1 & argv & result & _ & H).
    apply retry_raise_inv in H as [(? & _)|[(n & _ & ?)|(n & ? & _)]]; try done. eauto.
Qed.

(** X15: an engine that cannot be started is not retried: with the
    profile and a virtual environment there and a non-negative
    [max_retries], the [OSError] of the first invocation leaves
    [download_single], after that one invocation. *)
Theorem download_single_engine_crash E url profile auto_fix max_retries s :
  is_Some (files s !! profile_path E profile) → venv_present E s →
  0 ≤ max_retries → engine E (runs s) = Crashed →
  ∃ s', download_single E url profile auto_fix max_retries s = (Raise OSError, s') ∧
        runs s' = S (runs s).
Proof.
  intros Hp Hvenv Hmr Hcrash.
  destruct (download_single_venv E url profile auto_fix max_retries s Hp Hvenv)
    as (s1 & argv & (Hruns & _) & ->).
  destruct (Z.to_nat (max_retries + 1)) as [|fuel] eqn:Hfuel; [lia|].
  rewrite retry_step.
  unfold before_run. cbn [Z.ltb Z.compare]. unfold bind, run_engine, run_with.
  rewrite Hruns, Hcrash. eexists. split; [reflexivity|]. simpl. by rewrite Hruns.
Qed.

(** *** Worked examples *)


Lemma download_single_no_interpreter_witness :
  ∃ s', download_single Demo.plain "https://a" "gytmdl" true 2 Demo.bare_host =
          (Ret 1, s') ∧
    runs s' = runs Demo.bare_host ∧ checks s' = S (checks Demo.bare_host) ∧
    last (console s') = Some (Log INFO "Run: python -m venv env") ∧
    Log ERROR "Virtual environment not found and gytmdl not installed" ∈ console s'.
Proof.
  apply (download_single_no_interpreter Demo.plain "https://a" "gytmdl" true 2
           Demo.bare_host 1).
  - vm_compute. eauto.
  - reflexivity.
  - reflexivity.
  - reflexivity.
  - lia.
Defined.

Lemma download_single_success_sound_witness :
  let E := Sample.host (λ n, if (n =? 0)%nat then Exited 1 else Exited 0) in
  let s := Demo.holding Demo.clean_fields in
  ∃ k, (Z.of_nat k ≤ 2) ∧
       (∀ j, (j < k)%nat → fails_at E (runs s + j)) ∧
       engine E (runs s + k) = Exited 0 ∧
       runs (download_single E "https://a" "gytmdl" true 2 s).2 = S (runs s + k).
Proof.
  intros E s.
  apply (download_single_success_sound E "https://a" "gytmdl" true 2 s
           (download_single E "https://a" "gytmdl" true 2 s).2).
  - lia.
  - vm_compute. reflexivity.
Defined.

Lemma download_single_engine_crash_witness :
  ∃ s', download_single (Sample.host (λ _, Crashed)) "https://a" "gytmdl" true 2
          (Demo.holding Demo.clean_fields) = (Raise OSError, s') ∧
        runs s' = S (runs (Demo.holding Demo.clean_fields)).
Proof.
  apply (download_single_engine_crash (Sample.host (λ _, Crashed)) "https://a"
           "gytmdl" true 2 (Demo.holding Demo.clean_fields)).
  - vm_compute. eauto.
  - right. vm_compute. eauto.
  - lia.
  - reflexivity.
Defined.

(** ** Batch orchestrator, further *)


(** X17: a list file that is there but cannot be read is opened after
    the supervisor has run, and the [PermissionError] of the open leaves
    [download_batch]: nothing catches it, no download is tried and no
    summary is printed. *)
Theorem download_batch_unreadable_list E list_file profile continue_on_error s :
  is_Some (files s !! Path.join (cwd s) list_file) →
  Path.join (cwd s) list_file ∈ unreadable E →
  ∃ s', download_batch E list_file profile continue_on_error s =
          (Raise PermissionError, s') ∧
        runs s' = runs s ∧ files s' = files s.
Proof.
  intros [f Hf] Hlocked. unfold download_batch.
  erewrite bind_Ret by reflexivity. erewrite bind_Ret by reflexivity.
  rewrite bool_decide_eq_true_2 by (by eexists). cbn [negb].
  erewrite bind_Ret by reflexivity.
  match goal with |- context [bind (start_server E) _ ?s0] =>
    destruct (start_server E s0) as [r s1] eqn:Hs;
    pose proof Hs as Hs'; apply start_server_inv in Hs'
      as (Hc & Hfiles & Hruns & _) end.
  assert (∃ c, r = Ret c) as [c ->] by (destruct Hc as [-> | ->]; eauto).
  rewrite (bind_Ret _ _ _ _ _ Hs).
  erewrite bind_Raise; cycle 1.
  { unfold open_lines, bind, open_read. rewrite Hfiles. simpl. rewrite Hf.
    rewrite bool_decide_eq_true_2 by done. reflexivity. }
  exists s1. done.
Qed.

(** What [download_single] raises. *)
Lemma download_single_raises E url profile auto_fix max_retries s e s' :
  download_single E url profile auto_fix max_retries s = (Raise e, s') →
  is_Exception e = true ∨
  ∃ n, engine E n = Interrupted ∨ import_check E n = Interrupted.
Proof.
  intros H. destruct e; try (by left). right.
  by eapply download_single_interrupt_source.
Qed.

(** Without an interrupt and with [continue_on_error], every turn of the
    loop counts its item. *)
Lemma batch_loop_counts_all E profile :
  (∀ n, engine E n ≠ Interrupted) → (∀ n, import_check E n ≠ Interrupted) →
  ∀ urls t s r s',
  batch_loop E profile true urls t s = (r, s') →
  ∃ t', r = Ret t' ∧ total_urls t' = total_urls t ∧
    (success_count t' + fail_count t' =
       success_count t + fail_count t + length urls)%nat.
Proof.
  intros Heng Himp.
  induction urls as [|[line_num url] urls IH]; intros t s r s' H.
  - apply ret_inv in H as [-> ->]. exists t. repeat split; simpl; lia.
  - cbn [batch_loop] in H.
    destruct (download_single E url profile true 2 s) as [[rc|e] s1] eqn:Hd.
    + destruct (Z.eq_dec rc 0) as [->|Hrc].
      * rewrite (bind_Ret _ _ _ _ _ (batch_item_success E profile true line_num url t s s1 Hd)) in H.
        cbn [fst snd] in H. apply IH in H as (t' & -> & Ht & Hsum).
        exists t'. repeat split; auto. simpl in *. lia.
      * rewrite (bind_Ret _ _ _ _ _ (batch_item_failure E profile true line_num url t s rc s1 Hd Hrc)) in H.
        cbn [fst snd] in H. apply IH in H as (t' & -> & Ht & Hsum).
        exists t'. repeat split; auto. simpl in *. lia.
    + destruct (download_single_raises _ _ _ _ _ _ _ _ Hd) as [He|(n & [Hn|Hn])].
      * rewrite (bind_Ret _ _ _ _ _ (batch_item_exception E profile true line_num url t s e s1 Hd He)) in H.
        cbn [fst snd] in H. apply IH in H as (t' & -> & Ht & Hsum).
        exists t'. repeat split; auto. simpl in *. lia.
      * by destruct (Heng n).
      * by destruct (Himp n).
Qed.

(** X18: with [continue_on_error] and no subprocess interrupted,
    [download_batch] on a list with work items tries every one of them:
    the summary it prints counts each item once, as a success or as a
    failure, and the exit code is 0 exactly when no item failed. *)
Theorem download_batch_counts_every_item E list_file profile s f :
  files s !! Path.join (cwd s) list_file = Some f →
  Path.join (cwd s) list_file ∉ unreadable E →
  read_urls 1 (lines_of E f) ≠ [] →
  (∀ n, engine E n ≠ Interrupted) → (∀ n, import_check E n ≠ Interrupted) →
  ∃ t s',
    download_batch E list_file profile true s =
      (Ret (if (fail_count t =? 0)%nat then 0 else 1), s') ∧
    last (console s') = Some (Report t) ∧
    total_urls t = length (read_urls 1 (lines_of E f)) ∧
    (success_count t + fail_count t = total_urls t)%nat.
Proof.
  intros Hf Hr Hurls Heng Himp.
  destruct (download_batch_prefix E list_file profile true s f Hf Hr)
    as (s1 & _ & _ & ->).
  rewrite bool_decide_eq_false_2 by done.
  erewrite bind_Ret by reflexivity.
  match goal with |- context [bind (batch_loop E profile true ?urls ?t0) _ ?s0] =>
    destruct (batch_loop E profile true urls t0 s0) as [r s2] eqn:Hloop;
    pose proof Hloop as Hloop';
    apply (batch_loop_counts_all E profile Heng Himp) in Hloop'
      as (t & -> & Htotal & Hsum) end.
  rewrite (bind_Ret _ _ _ _ _ Hloop).
  erewrite bind_Ret by reflexivity.
  exists t. eexists. split; [reflexivity|]. simpl in *.
  split; [apply last_snoc|]. split; [done|]. lia.
Qed.

(** A download all of whose three attempts fail. *)
Lemma download_single_all_fail E url profile s :
  is_Some (files s !! profile_path E profile) → venv_present E s →
  (∀ j, (j < 3)%nat → fails_at E (runs s + j)) →
  ∃ rc s', download_single E url profile true 2 s = (Ret rc, s') ∧ rc ≠ 0 ∧
        runs s' = (runs s + 3)%nat.
Proof.
  intros Hp Hvenv Hfail.
  destruct (download_single_venv E url profile true 2 s Hp Hvenv)
    as (s1 & argv & (Hruns & _) & ->).
  change (Z.to_nat (2 + 1)) with 3%nat.
  destruct (retry_exhausted E argv 2 3 0 None s1) as (s' & Hr & rc & Hrc & ->).
  { intros j Hj. rewrite Hruns. by apply Hfail. }
  exists rc, s'. split; [done|]. split; [|lia].
  destruct (Hfail 2%nat) as (rc' & Hrc' & Hne); [lia|].
  rewrite Hruns in Hrc. rewrite Hrc in Hrc'. by simplify_eq.
Qed.

Lemma batch_loop_stops E profile line_num url rest : ∀ done t s,
  is_Some (files s !! profile_path E profile) → venv_present E s →
  (∀ i, (i < length done)%nat → engine E (runs s + i) = Exited 0) →
  (∀ j, (j < 3)%nat → fails_at E (runs s + length done + j)) →
  ∃ s', batch_loop E profile false (done ++ (line_num, url) :: rest) t s =
    (Ret {| total_urls := total_urls t;
            success_count := success_count t + length done;
            fail_count := S (fail_count t);
            failed_urls := failed_urls t ++ [(line_num, url)] |}, s') ∧
    runs s' = (runs s + length done + 3)%nat.
Proof.
  induction done as [|[n u] done IH]; intros t s Hp Hvenv Hok Hfail.
  - simpl in Hfail.
    destruct (download_single_all_fail E url profile s Hp Hvenv)
      as (rc & s1 & H & Hrc & Hruns).
    { intros j Hj. specialize (Hfail j Hj). by rewrite Nat.add_0_r in Hfail. }
    rewrite app_nil_l. cbn [batch_loop].
    rewrite (bind_Ret _ _ _ _ _ (batch_item_failure E profile false line_num url t s rc s1 H Hrc)).
    cbn [fst snd]. eexists. split.
    + unfold ret. f_equal. f_equal. destruct t; simpl. unfold count_failure. simpl.
      f_equal. lia.
    + simpl. lia.
  - destruct (download_single_first_try E u profile s Hp Hvenv)
      as (s1 & H & Hruns & Hp1 & Hvenv1).
    { rewrite <- (Nat.add_0_r (runs s)). apply Hok. simpl. lia. }
    rewrite <- app_comm_cons. cbn [batch_loop].
    rewrite (bind_Ret _ _ _ _ _ (batch_item_success E profile false n u t s s1 H)).
    cbn [fst snd].
    destruct (IH (count_success t)
                (emit (Log SUCCESS ("Downloaded: " +:+ Str.take 50 u +:+ "...")) s1))
      as (s' & -> & Hr'); try done.
    + intros i Hi. simpl. rewrite Hruns.
      replace (S (runs s) + i)%nat with (runs s + S i)%nat by lia.
      apply Hok. simpl. lia.
    + intros j Hj. simpl. rewrite Hruns.
      replace (S (runs s) + length done + j)%nat
        with (runs s + length ((n, u) :: done) + j)%nat by (simpl; lia).
      by apply Hfail.
    + eexists. split.
      * f_equal. f_equal. simpl. f_equal. lia.
      * simpl in *. lia.
Qed.

(** X19: without [continue_on_error] the first failing item ends the
    batch: after items that succeeded at their first attempt and one whose
    three attempts fail, the summary lists that one failure, the items
    after it are never tried, and the exit code is 1. *)
Theorem download_batch_stops_at_failure E list_file profile s f
    done line_num url rest :
  files s !! Path.join (cwd s) list_file = Some f →
  Path.join (cwd s) list_file ∉ unreadable E →
  read_urls 1 (lines_of E f) = done ++ (line_num, url) :: rest →
  is_Some (files s !! profile_path E profile) → venv_present E s →
  (∀ i, (i < length done)%nat → engine E (runs s + i) = Exited 0) →
  (∀ j, (j < 3)%nat → fails_at E (runs s + length done + j)) →
  ∃ s', download_batch E list_file profile false s = (Ret 1, s') ∧
    last (console s') =
      Some (Report {| total_urls := length done + 1 + length rest;
                      success_count := length done;
                      fail_count := 1; failed_urls := [(line_num, url)] |}) ∧
    runs s' = (runs s + length done + 3)%nat.
Proof.
  intros Hf Hr Hurls Hp Hvenv Hok Hfail.
  destruct (download_batch_prefix E list_file profile false s f Hf Hr)
    as (s1 & Hfiles & Hruns & ->).
  rewrite Hurls.
  rewrite bool_decide_eq_false_2 by (by destruct done).
  erewrite bind_Ret by reflexivity.
  match goal with |- context [bind (batch_loop E _ _ _ ?t0) _ ?s0] =>
    destruct (batch_loop_stops E profile line_num url rest done t0 s0)
      as (s2 & Hloop & Hruns2) end.
  - simpl. by rewrite Hfiles.
  - unfold venv_present. simpl. by rewrite Hfiles.
  - intros i Hi. simpl. rewrite Hruns. by apply Hok.
  - intros j Hj. simpl. rewrite Hruns. by apply Hfail.
  - rewrite (bind_Ret _ _ _ _ _ Hloop). erewrite bind_Ret by reflexivity.
    eexists. split; [reflexivity|]. simpl in *. rewrite last_snoc.
    split; [|lia]. do 2 f_equal. rewrite length_app. simpl. f_equal. lia.
Qed.

Lemma read_urls_from_entries lines : ∀ start n u,
  (n, u) ∈ read_urls start lines ↔
  ∃ line, (start ≤ n)%nat ∧ lines !! (n - start)%nat = Some line ∧
          u = Str.strip line ∧ u ≠ "" ∧ Str.startswith "#" u = false.
Proof.
  induction lines as [|l lines IH]; intros start n u.
  - cbn [read_urls]. rewrite elem_of_nil. split; [done|]. by intros (? & _ & ? & _).
  - cbn [read_urls].
    assert ((n, u) ∈ read_urls (S start) lines ↔
            ∃ line, (start < n)%nat ∧ (l :: lines) !! (n - start)%nat = Some line ∧
                    u = Str.strip line ∧ u ≠ "" ∧ Str.startswith "#" u = false) as Htail.
    { rewrite IH. split; intros (line & Hn & Hl & Hrest); exists line.
      - split; [lia|]. split; [|done].
        replace (n - start)%nat with (S (n - S start)) by lia. done.
      - split; [lia|]. split; [|done].
        replace (n - start)%nat with (S (n - S start)) in Hl by lia. done. }
    destruct (String.eqb (Str.strip l) "") eqn:He; cbn [orb].
    + apply String.eqb_eq in He. rewrite Htail.
      split; intros (line & Hn & Hl & Hrest); exists line.
      * split; [lia|done].
      * split; [|done]. destruct (decide (n = start)) as [->|]; [|lia].
        rewrite Nat.sub_diag in Hl. simpl in Hl. simplify_eq.
        destruct Hrest as (-> & ? & _). done.
    + apply String.eqb_neq in He.
      destruct (Str.startswith "#" (Str.strip l)) eqn:Hs.
      * rewrite Htail.
        split; intros (line & Hn & Hl & Hrest); exists line.
        -- split; [lia|done].
        -- split; [|done]. destruct (decide (n = start)) as [->|]; [|lia].
           rewrite Nat.sub_diag in Hl. simpl in Hl. simplify_eq.
           destruct Hrest as (-> & _ & ?). congruence.
      * rewrite elem_of_cons, Htail. split.
        -- intros [[= -> ->]|(line & Hn & Hl & Hrest)].
           ++ exists l. rewrite Nat.sub_diag. done.
           ++ exists line. split; [lia|done].
        -- intros (line & Hn & Hl & Hrest).
           destruct (decide (n = start)) as [->|].
           ++ left. rewrite Nat.sub_diag in Hl. simpl in Hl. simplify_eq.
              by destruct Hrest as (-> & _).
           ++ right. exists line. split; [lia|done].
Qed.

Lemma read_urls_from_increasing lines : ∀ start i j a b,
  (i < j)%nat → read_urls start lines !! i = Some a →
  read_urls start lines !! j = Some b → (a.1 < b.1)%nat.
Proof.
  induction lines as [|l lines IH]; intros start i j a b Hij Ha Hb;
    cbn [read_urls] in Ha, Hb; [done|].
  destruct (_ || _); [by eapply IH|].
  destruct j as [|j]; [lia|]. cbn [lookup list_lookup] in Hb.
  destruct i as [|i].
  - simpl in Ha. simplify_eq. simpl.
    apply list_elem_of_lookup_2 in Hb. destruct b as [n u].
    apply read_urls_from_entries in Hb as (_ & Hn & _). simpl. lia.
  - simpl in Ha. eapply (IH (S start) i j); [lia|done|done].
Qed.

(** X20: the work items read from a list are exactly the stripped lines
    that are neither empty nor comments, each under the 1-based number of
    its line; no work item starts with a white-space character, of the
    ASCII range or beyond it, so that a line of no-break or em spaces
    gives none; and the items come in strictly increasing line order (so
    no line is listed twice). *)
Theorem read_urls_entries lines :
  (∀ n u, (n, u) ∈ read_urls 1 lines ↔
          ∃ line, (1 ≤ n)%nat ∧ lines !! (n - 1)%nat = Some line ∧
                  u = Str.strip line ∧ u ≠ "" ∧ Str.startswith "#" u = false) ∧
  (∀ n u, (n, u) ∈ read_urls 1 lines → Str.space_width u = 0%nat) ∧
  read_urls 1 ["https://a"; bytes [194; 160]%nat;
               bytes [226; 128; 131; 9; 227; 128; 128]%nat; "https://b"] =
    [(1%nat, "https://a"); (4%nat, "https://b")] ∧
  (∀ i j a b, (i < j)%nat → read_urls 1 lines !! i = Some a →
              read_urls 1 lines !! j = Some b → (a.1 < b.1)%nat).
Proof.
  split; [|split; [|split]].
  - intros n u. apply read_urls_from_entries.
  - intros n u Hin. apply read_urls_from_entries in Hin as (line & _ & _ & -> & _).
    apply strip_width.
  - vm_compute. reflexivity.
  - apply read_urls_from_increasing.
Qed.

(** [download_single] runs the engine at most [max_retries + 1] times. *)
Lemma download_single_budget E url profile auto_fix max_retries s r s' :
  download_single E url profile auto_fix max_retries s = (r, s') →
  (runs s ≤ runs s' ≤ runs s + Z.to_nat (max_retries + 1))%nat.
Proof.
  intros H.
  apply download_single_cases in H as [[_ ->]|[(n & -> & _)|H]]; [lia|lia|].
  destruct H as (s1 & argv & result & Hruns & H).
  apply retry_bound in H as (H & _). lia.
Qed.

Lemma batch_item_budget E profile coe line_num url t s r s' :
  batch_item E profile coe line_num url t s = (r, s') →
  (runs s ≤ runs s' ≤ runs s + 3)%nat.
Proof.
  intros H. unfold batch_item in H.
  destruct (download_single E url profile true 2 s) as [rd s1] eqn:Hd.
  pose proof (download_single_budget _ _ _ _ _ _ _ _ Hd) as Hb.
  change (Z.to_nat (2 + 1)) with 3%nat in Hb.
  assert (runs s' = runs s1) as ->; [|done].
  unfold try_catch, bind in H. rewrite Hd in H.
  destruct rd as [rc|e].
  - destruct (rc =? 0); cbv [log_success log_error log ret] in H; by simplify_eq.
  - destruct e; cbv [except_Exception is_Exception bind log_warn log_error log ret] in H;
      by simplify_eq.
Qed.

Lemma batch_loop_budget E profile coe : ∀ urls t s r s',
  batch_loop E profile coe urls t s = (r, s') →
  (runs s ≤ runs s' ≤ runs s + 3 * length urls)%nat.
Proof.
  induction urls as [|[line_num url] urls IH]; intros t s r s' H.
  - apply ret_inv in H as [_ ->]. simpl. lia.
  - cbn [batch_loop] in H.
    destruct (batch_item E profile coe line_num url t s) as [ri s1] eqn:Hi.
    pose proof (batch_item_budget _ _ _ _ _ _ _ _ _ Hi) as Hb.
    pose proof Hi as Hi'. apply batch_item_inv in Hi' as (t' & go & -> & _).
    rewrite (bind_Ret _ _ _ _ _ Hi) in H. cbn [fst snd] in H.
    destruct go.
    + apply IH in H. simpl. lia.
    + apply ret_inv in H as [_ ->]. simpl. lia.
Qed.

(** X21: [download_batch] runs the engine at most three times for each
    work item of its list, whatever the downloads do and whatever
    [continue_on_error] is, and not once when the list cannot be read. *)
Theorem download_batch_engine_budget E list_file profile continue_on_error s f r s' :
  files s !! Path.join (cwd s) list_file = Some f →
  download_batch E list_file profile continue_on_error s = (r, s') →
  (runs s ≤ runs s' ≤
   runs s + (if bool_decide (Path.join (cwd s) list_file ∈ unreadable E) then 0
             else 3 * length (read_urls 1 (lines_of E f))))%nat.
Proof.
  intros Hf H. case_bool_decide as Hr; [rename Hr into Hlocked|].
  - revert H. unfold download_batch.
    erewrite bind_Ret by reflexivity. erewrite bind_Ret by reflexivity.
    rewrite bool_decide_eq_true_2 by (by eexists). cbn [negb].
    erewrite bind_Ret by reflexivity.
    match goal with |- context [bind (start_server E) _ ?s0] =>
      destruct (start_server E s0) as [rs s1] eqn:Hs;
      pose proof Hs as Hs'; apply start_server_inv in Hs'
        as (Hc & Hfiles & Hruns & _) end.
    assert (∃ c, rs = Ret c) as [c ->] by (destruct Hc as [-> | ->]; eauto).
    rewrite (bind_Ret _ _ _ _ _ Hs).
    erewrite bind_Raise; cycle 1.
    { unfold open_lines, bind, open_read. rewrite Hfiles. simpl. rewrite Hf.
      rewrite bool_decide_eq_true_2 by done. reflexivity. }
    intros [= <- <-]. simpl in Hruns. lia.
  - destruct (download_batch_prefix E list_file profile continue_on_error s f Hf Hr)
      as (s1 & _ & Hruns & Heq).
    rewrite Heq in H. clear Heq.
    case_bool_decide as Hurls.
    + cbv [bind log_warn log ret] in H. simplify_eq. simpl. lia.
    + erewrite bind_Ret in H by reflexivity.
      match type of H with context [bind (batch_loop E _ _ ?urls ?t0) _ ?s0] =>
        destruct (batch_loop E profile continue_on_error urls t0 s0) as [rl s2] eqn:Hloop;
        pose proof Hloop as Hloop'; apply batch_loop_inv in Hloop' as (t & -> & _);
        pose proof (batch_loop_budget _ _ _ _ _ _ _ _ Hloop) as Hbudget end.
      rewrite (bind_Ret _ _ _ _ _ Hloop) in H.
      erewrite bind_Ret in H by reflexivity.
      apply ret_inv in H as [_ ->]. simpl in *. lia.
Qed.

(** *** Worked examples *)


Lemma download_batch_unreadable_list_witness :
  ∃ s', download_batch Demo.sealed "urls.txt" "gytmdl" true Demo.listed =
          (Raise PermissionError, s') ∧
        runs s' = runs Demo.listed ∧ files s' = files Demo.listed.
Proof.
  apply (download_batch_unreadable_list Demo.sealed "urls.txt" "gytmdl" true Demo.listed).
  - vm_compute. eauto.
  - unfold Demo.sealed. simpl. set_solver.
Defined.

Lemma download_batch_counts_every_item_witness :
  let E := Sample.host (λ n, if (n =? 0)%nat then Exited 0 else Exited 3) in
  ∃ t s',
    download_batch E "urls.txt" "gytmdl" true Demo.listed =
      (Ret (if (fail_count t =? 0)%nat then 0 else 1), s') ∧
    last (console s') = Some (Report t) ∧
    total_urls t = 3%nat ∧
    (success_count t + fail_count t = total_urls t)%nat.
Proof.
  intros E.
  apply (download_batch_counts_every_item E "urls.txt" "gytmdl" Demo.listed
           (Text Demo.three_lines)).
  - reflexivity.
  - unfold E. simpl. set_solver.
  - discriminate.
  - intros n. unfold E. simpl. by destruct (n =? 0)%nat.
  - intros n. discriminate.
Defined.

Lemma download_batch_stops_at_failure_witness :
  let E := Sample.host (λ n, if (n =? 0)%nat then Exited 0 else Exited 3) in
  ∃ s', download_batch E "urls.txt" "gytmdl" false Demo.listed = (Ret 1, s') ∧
    last (console s') =
      Some (Report {| total_urls := 3; success_count := 1;
                      fail_count := 1; failed_urls := [(2%nat, "https://b")] |}) ∧
    runs s' = 4%nat.
Proof.
  intros E.
  apply (download_batch_stops_at_failure E "urls.txt" "gytmdl" Demo.listed
           (Text Demo.three_lines) [(1%nat, "https://a")] 2%nat "https://b"
           [(3%nat, "https://c")]).
  - reflexivity.
  - unfold E. simpl. set_solver.
  - reflexivity.
  - vm_compute. eauto.
  - right. vm_compute. eauto.
  - intros [|i] Hi; [reflexivity|simpl in Hi; lia].
  - intros [|[|[|j]]] Hj; try lia; exists 3; (split; [reflexivity|lia]).
Defined.

Lemma download_batch_engine_budget_witness :
  let E := Sample.host (λ n, if (n =? 0)%nat then Exited 0 else Exited 3) in
  let run := download_batch E "urls.txt" "gytmdl" true Demo.listed in
  let locked := download_batch Demo.sealed "urls.txt" "gytmdl" true Demo.listed in
  (runs Demo.listed ≤ runs run.2 ≤ runs Demo.listed + 3 * 3)%nat ∧
  (runs Demo.listed ≤ runs locked.2 ≤ runs Demo.listed + 0)%nat.
Proof.
  intros E run locked. split.
  - apply (download_batch_engine_budget E "urls.txt" "gytmdl" true Demo.listed
             (Text Demo.three_lines) run.1 run.2).
    + reflexivity.
    + apply surjective_pairing.
  - apply (download_batch_engine_budget Demo.sealed "urls.txt" "gytmdl" true Demo.listed
             (Text Demo.three_lines) locked.1 locked.2).
    + reflexivity.
    + apply surjective_pairing.
Defined.

(** ** Profile names and the commands of [main] *)

Lemma insort_elem x y xs : y ∈ insort x xs ↔ y = x ∨ y ∈ xs.
Proof.
  induction xs as [|z xs IH]; cbn [insort].
  - by rewrite elem_of_cons.
  - destruct (String.leb x z); rewrite !elem_of_cons; [done|].
    rewrite IH. tauto.
Qed.

Lemma sorted_elem y xs : y ∈ sorted xs ↔ y ∈ xs.
Proof.
  induction xs as [|x xs IH]; [done|].
  unfold sorted in *. cbn [foldr]. rewrite insort_elem, IH, elem_of_cons. tauto.
Qed.

Lemma elem_of_map {A B} (f : A → B) (l : list A) y :
  y ∈ map f l ↔ ∃ x, y = f x ∧ x ∈ l.
Proof.
  rewrite list_elem_of_In, in_map_iff. split; intros (x & H1 & H2); exists x.
  - by rewrite list_elem_of_In.
  - by rewrite <- list_elem_of_In.
Qed.

Lemma name_snoc (d : path) x : Path.name (d ++ [x]) = x.
Proof. unfold Path.name. apply last_last. Qed.

Lemma rfind_dot_json base :
  Path.rfind_dot (base +:+ ".json") = Some (String.length base).
Proof.
  induction base as [|c base IH]; [reflexivity|].
  rewrite append_cons. cbn [Path.rfind_dot String.length]. by rewrite IH.
Qed.

Lemma substring_app base rest :
  String.substring 0 (String.length base) (base +:+ rest) = base.
Proof.
  induction base as [|c base IH].
  - by destruct rest.
  - rewrite append_cons. cbn [String.substring String.length]. by rewrite IH.
Qed.

Lemma length_append a b :
  String.length (a +:+ b) = (String.length a + String.length b)%nat.
Proof.
  induction a as [|c a IH]; [done|].
  rewrite append_cons. cbn [String.length]. by rewrite IH.
Qed.

(** [Path('base.json').stem] is [base] for a non-empty base. *)
Lemma stem_json d base :
  base ≠ "" → Path.stem (d ++ [base +:+ ".json"]) = base.
Proof.
  intros Hne. unfold Path.stem. rewrite name_snoc, rfind_dot_json.
  rewrite length_append. cbn [String.length].
  assert (0 < String.length base)%nat as Hpos by (destruct base; [done|simpl; lia]).
  rewrite (proj2 (Nat.ltb_lt _ _) Hpos).
  rewrite (proj2 (Nat.ltb_lt (String.length base) (String.length base + 5 - 1)))
    by lia.
  cbn [andb]. apply substring_app.
Qed.

Lemma split_go_plain s :
  Str.contains "/" s = false → Path.split_go s = (s, []).
Proof.
  induction s as [|c s IH]; [done|].
  cbn [Str.contains Str.startswith Path.split_go].
  intros H. apply orb_false_iff in H as [Hc Hs]. rewrite (IH Hs).
  destruct (Ascii.eqb "/" c) eqn:Heq; [by destruct s|].
  rewrite Ascii.eqb_sym in Heq. by rewrite Heq.
Qed.

Lemma split_go_slash a b :
  Str.contains "/" a = false →
  Path.split_go (a +:+ "/" +:+ b) =
    (a, (Path.split_go b).1 :: (Path.split_go b).2).
Proof.
  induction a as [|c a IH].
  - intros _. rewrite append_empty_l, append_cons, append_empty_l.
    cbn [Path.split_go]. by destruct (Path.split_go b).
  - cbn [Str.contains Str.startswith]. intros H.
    apply orb_false_iff in H as [Hc Hs].
    rewrite append_cons. cbn [Path.split_go]. rewrite (IH Hs).
    destruct (Ascii.eqb "/" c) eqn:Heq; [by destruct a|].
    rewrite Ascii.eqb_sym in Heq. by rewrite Heq.
Qed.

Lemma json_name_plain base :
  Str.contains "/" base = false → Str.contains "/" (base +:+ ".json") = false.
Proof. intros H. by rewrite contains_char_app, H. Qed.

Lemma json_name_kept base : Path.keep (base +:+ ".json") = true.
Proof.
  unfold Path.keep.
  assert (∀ x, String.length x < 5 → String.eqb (base +:+ ".json") x = false)%nat as Hx.
  { intros x Hlen. apply String.eqb_neq. intros Heq.
    rewrite <- Heq, length_append in Hlen. simpl in Hlen. lia. }
  rewrite !Hx by (simpl; lia). done.
Qed.

(** [config_dir / 'base.json'] *)
Lemma join_json d base :
  base ≠ "" → Str.contains "/" base = false →
  Path.join d (base +:+ ".json") = d ++ [base +:+ ".json"].
Proof.
  intros Hne Hplain. unfold Path.join.
  assert (Str.startswith "/" (base +:+ ".json") = false) as ->.
  { destruct base as [|c base]; [done|]. rewrite append_cons.
    cbn [Str.contains Str.startswith] in *.
    apply orb_false_iff in Hplain as [Hc _].
    destruct (Ascii.eqb "/" c); [by destruct base|done]. }
  unfold Path.parts. rewrite (split_go_plain _ (json_name_plain base Hplain)).
  cbn [List.filter]. by rewrite json_name_kept.
Qed.

(** [config_dir / 'profiles/base.json'] *)
Lemma join_profiles_json d base :
  base ≠ "" → Str.contains "/" base = false →
  Path.join d (("profiles/" +:+ base) +:+ ".json") =
    (d ++ ["profiles"]) ++ [base +:+ ".json"].
Proof.
  intros Hne Hplain. unfold Path.join.
  assert (("profiles/" +:+ base) +:+ ".json" =
          "profiles" +:+ "/" +:+ (base +:+ ".json")) as -> by reflexivity.
  assert (Str.startswith "/" ("profiles" +:+ "/" +:+ (base +:+ ".json")) = false)
    as -> by reflexivity.
  unfold Path.parts. rewrite split_go_slash by reflexivity.
  rewrite (split_go_plain _ (json_name_plain base Hplain)).
  cbn [fst snd List.filter]. rewrite json_name_kept.
  change (Path.keep "profiles") with true. cbn. by rewrite <- app_assoc.
Qed.

(** X22: the names [get_available_profiles] returns are the names
    [download_single] resolves: when the two directories list files
    [base.json] with a non-empty base, a file is listed exactly when one of
    the returned names gives its path as the profile's config path. *)
Theorem listed_profiles_resolve E L s :
  let config_dir := root_dir E ++ ["config"] in
  let profiles_dir := config_dir ++ ["profiles"] in
  (∀ f, f ∈ glob_json L config_dir s → json_child config_dir f) →
  (∀ f, f ∈ glob_json L profiles_dir s → json_child profiles_dir f) →
  ∃ names, get_available_profiles L (root_dir E) s = (Ret names, s) ∧
    ∀ f, (f ∈ glob_json L config_dir s ∨
          (dir_exists L profiles_dir s = true ∧ f ∈ glob_json L profiles_dir s)) ↔
         ∃ name, name ∈ names ∧ profile_path E name = f.
Proof.
  intros config_dir profiles_dir Hmain Hsub.
  assert (∀ f, f ∈ glob_json L config_dir s → profile_path E (Path.stem f) = f)
    as Hres1.
  { intros f Hf. destruct (Hmain f Hf) as (base & -> & Hne & Hplain).
    rewrite stem_json by done. unfold profile_path. by apply join_json. }
  assert (∀ f, f ∈ glob_json L profiles_dir s →
               profile_path E ("profiles/" +:+ Path.stem f) = f) as Hres2.
  { intros f Hf. destruct (Hsub f Hf) as (base & -> & Hne & Hplain).
    rewrite stem_json by done. unfold profile_path. by apply join_profiles_json. }
  unfold get_available_profiles, bind, glob, is_dir, ret.
  fold config_dir. fold profiles_dir.
  destruct (dir_exists L profiles_dir s); eexists; (split; [reflexivity|]);
    intros f; split.
  - intros [Hf|[_ Hf]].
    + exists (Path.stem f). split; [|by apply Hres1].
      apply sorted_elem, elem_of_app. left. apply elem_of_map. eauto.
    + exists ("profiles/" +:+ Path.stem f). split; [|by apply Hres2].
      apply sorted_elem, elem_of_app. right. apply elem_of_map. eauto.
  - intros (name & Hin & <-).
    rewrite sorted_elem, elem_of_app in Hin. destruct Hin as [Hin|Hin];
      apply elem_of_map in Hin as (f & -> & Hf).
    + left. by rewrite Hres1.
    + right. split; [done|]. by rewrite Hres2.
  - intros [Hf|[? _]]; [|done].
    exists (Path.stem f). split; [|by apply Hres1].
    apply sorted_elem. apply elem_of_map. eauto.
  - intros (name & Hin & <-).
    rewrite sorted_elem in Hin. apply elem_of_map in Hin as (f & -> & Hf).
    left. by rewrite Hres1.
Qed.

Lemma extends_mono T T' s s' :
  (∀ q, q ∈ T → q ∈ T') → extends T s s' → extends T' s s'.
Proof.
  intros Hsub (? & ? & ? & Hsame). repeat split; auto.
Qed.

(** A loop of [fix-all] always ends with a count; it touches the files it
    is given and their backups only. *)
Lemma fix_each_inv E label : ∀ fs n s r s',
  fix_each E label fs n s = (r, s') →
  ∃ n', r = Ret n' ∧ (n ≤ n' ≤ n + length fs)%nat ∧
        extends (fs ++ map backup_path fs) s s'.
Proof.
  induction fs as [|f fs IH]; intros n s r s' H.
  - apply ret_inv in H as [-> ->]. exists n. simpl.
    repeat split; auto using extends_refl; lia.
  - cbn [fix_each] in H.
    destruct (fix_config_if_needed E f true s) as [rf s1] eqn:Hfix.
    pose proof Hfix as Hfix'. apply fix_config_inv in Hfix' as (Hx & b & -> & _).
    rewrite (bind_Ret _ _ _ _ _ Hfix) in H.
    assert (extends ((f :: fs) ++ map backup_path (f :: fs)) s s1) as Hx1.
    { eapply extends_mono; [|exact Hx]. intros q.
      rewrite !elem_of_cons, elem_of_nil, elem_of_app. cbn [map].
      rewrite !elem_of_cons. intros [->|[->|[]]]; auto. }
    destruct b.
    + erewrite bind_Ret in H by reflexivity.
      apply IH in H as (n' & -> & Hn & Hx2).
      exists n'. split; [done|]. split; [simpl; lia|].
      eapply extends_trans; [exact Hx1|].
      eapply extends_trans; [apply extends_emit|].
      eapply extends_mono; [|exact Hx2]. intros q.
      rewrite !elem_of_app. cbn [map]. rewrite !elem_of_cons. intros [?|?]; auto.
    + apply IH in H as (n' & -> & Hn & Hx2).
      exists n'. split; [done|]. split; [simpl; lia|].
      eapply extends_trans; [exact Hx1|].
      eapply extends_mono; [|exact Hx2]. intros q.
      rewrite !elem_of_app. cbn [map]. rewrite !elem_of_cons. intros [?|?]; auto.
Qed.

(** A loop over clean files changes nothing. *)
Lemma fix_each_clean E label : ∀ fs n s,
  (∀ p, p ∈ fs → clean_file E (files s) p) →
  fix_each E label fs n s = (Ret n, s).
Proof.
  induction fs as [|f fs IH]; intros n s Hclean; [done|].
  cbn [fix_each].
  destruct (Hclean f) as (config & Hf & Hr & Hm & Ht); [by left|].
  rewrite (bind_Ret _ _ _ _ _ (fix_config_clean E f true s config Hf Hr Hm Ht)).
  apply IH. intros p Hp. apply Hclean. by right.
Qed.

(** X24: on an installation where every listed profile is without a
    defect, [fix-all] logs its two lines and returns 0, and nothing else
    changes: no file, no backup, no journal entry. *)
Theorem fix_all_clean_installation E L s :
  (∀ d s' p, files s' = files s → p ∈ glob_json L d s' → clean_file E (files s) p) →
  fix_all E L s =
    (Ret 0,
     emit (Log INFO "No fixes needed - all profiles are OK")
       (emit (Log INFO "Fixing all profile configurations...") s)).
Proof.
  intros Hclean. unfold fix_all.
  erewrite bind_Ret by reflexivity. erewrite bind_Ret by reflexivity.
  erewrite bind_Ret; cycle 1.
  { apply fix_each_clean. intros p Hp. simpl. eapply Hclean; [|exact Hp]; done. }
  erewrite bind_Ret by reflexivity.
  assert ((if dir_exists L ((root_dir E ++ ["config"]) ++ ["profiles"])
                (emit (Log INFO "Fixing all profile configurations...") s)
           then bind (glob L ((root_dir E ++ ["config"]) ++ ["profiles"]))
                  (λ subs, fix_each E (λ f, "profiles/" +:+ Path.name f) subs 0)
           else ret 0%nat)
            (emit (Log INFO "Fixing all profile configurations...") s) =
          (Ret 0%nat, emit (Log INFO "Fixing all profile configurations...") s))
    as H2.
  { destruct (dir_exists L _ _); [|reflexivity].
    erewrite bind_Ret by reflexivity.
    apply fix_each_clean. intros p Hp. simpl. eapply Hclean; [|exact Hp]; done. }
  rewrite (bind_Ret _ _ _ _ _ H2). reflexivity.
Qed.

(** X25: a loop of [fix-all] over distinct files of one directory
    always ends, and after it every one of them that held a document with
    a string or absent template, and could be read and written, holds a
    document without the legacy download mode: a later repair, or its
    backup, never undoes an earlier one. *)
Theorem fix_each_repairs_all E label d : ∀ fs n s,
  NoDup fs → (∀ q, q ∈ fs → ∃ name, q = d ++ [name]) →
  ∃ n' s', fix_each E label fs n s = (Ret n', s') ∧
    ∀ p config, p ∈ fs → files s !! p = Some (Json (JObj config)) →
      p ∉ unreadable E → p ∉ unwritable E → template_is_text config →
      ∃ config', files s' !! p = Some (Json (JObj config')) ∧
                 is_aria2c config' = false.
Proof.
  induction fs as [|f fs IH]; intros n s Hnd Hsib.
  - exists n, s. split; [done|]. intros p config Hp. by apply elem_of_nil in Hp.
  - apply NoDup_cons in Hnd as [Hf Hnd].
    cbn [fix_each].
    destruct (fix_config_if_needed E f true s) as [rf s1] eqn:Hfix.
    pose proof Hfix as Hfix'.
    apply fix_config_inv in Hfix' as ((_ & _ & _ & Hsame) & b & -> & Hfalse & Htrue).
    rewrite (bind_Ret _ _ _ _ _ Hfix).
    set (s1' := if b then emit (Log SUCCESS ("Fixed: " +:+ label f)) s1 else s1).
    set (n1 := if b then S n else n).
    assert (files s1' = files s1) as Hs1' by (subst s1'; by destruct b).
    destruct (IH n1 s1' Hnd) as (n' & s' & Hrest & Hall).
    { intros q Hq. apply Hsib. by right. }
    pose proof Hrest as Hrest'. apply fix_each_inv in Hrest' as (_ & _ & _ & Hx).
    exists n', s'. split.
    { subst s1' n1. destruct b; [|done]. by erewrite bind_Ret by reflexivity. }
    assert (∀ p q, p ∈ f :: fs → q ∈ f :: fs → backup_path q ≠ p) as Hbk.
    { intros p q Hp Hq Heq.
      destruct (Hsib p Hp) as (a & ->). destruct (Hsib q Hq) as (b' & ->).
      pose proof (backup_path_length (d ++ [b'])) as Hlen.
      rewrite Heq, !length_app in Hlen. simpl in Hlen. lia. }
    intros p config Hp Hcfg Hr Hw Ht.
    apply elem_of_cons in Hp as [->|Hp].
    + assert (files s' !! f = files s1 !! f) as ->.
      { destruct Hx as (_ & _ & _ & Hx). rewrite Hx, Hs1'; [done|].
        rewrite elem_of_app, elem_of_map. intros [?|(q & Heq & Hq)]; [done|].
        eapply (Hbk f q); [by left|by right|done]. }
      destruct b.
      * destruct Htrue as (_ & _ & config0 & config' & Hcfg0 & Hfixes & Hnew); [done|].
        exists config'. split; [done|]. by eapply apply_fixes_mode_gone.
      * rewrite Hfalse by done. exists config. split; [done|].
        destruct (is_aria2c config) eqn:Hm; [|done].
        destruct (defect_gets_fixed config (or_introl Hm) Ht) as [config' Hfixes].
        destruct (fix_config_applies E f true s config config' Hcfg Hr Hw Hfixes)
          as (s2 & Hrun & _).
        rewrite Hrun in Hfix. by simplify_eq.
    + apply (Hall p config Hp); try done.
      rewrite Hs1', Hsame; [done|].
      rewrite !elem_of_cons, elem_of_nil. intros [->|[Heq|[]]]; [done|].
      eapply (Hbk p f); [by right|by left|done].
Qed.

(** X28: the [download] command runs the engine at most three times,
    whatever the URL, the options and the state of the installation
    are. *)
Theorem main_download_engine_budget E L argv0 argv1 args s r s' :
  str_lower L argv1 = "download" →
  main E L (argv0 :: argv1 :: args) s = (r, s') →
  (runs s ≤ runs s' ≤ runs s + 3)%nat.
Proof.
  intros Hcmd. unfold main. rewrite Hcmd.
  rewrite bool_decide_eq_false_2
    by (rewrite !elem_of_cons, elem_of_nil; intros [?|[?|[?|[?|[]]]]]; discriminate).
  cbn [String.eqb Ascii.eqb Bool.eqb].
  destruct args as [|url opts]; intros H.
  - cbv [bind log_error log ret] in H. simplify_eq. simpl. lia.
  - apply download_single_budget in H.
    change (Z.to_nat (2 + 1)) with 3%nat in H. done.
Qed.

(** *** Worked examples *)

Lemma listed_profiles_resolve_witness :
  ∃ names, get_available_profiles Demo.shell (root_dir Demo.plain) Demo.library =
             (Ret names, Demo.library) ∧
    ∀ f, (f ∈ glob_json Demo.shell (root_dir Demo.plain ++ ["config"]) Demo.library ∨
          (dir_exists Demo.shell ((root_dir Demo.plain ++ ["config"]) ++ ["profiles"])
             Demo.library = true ∧
           f ∈ glob_json Demo.shell ((root_dir Demo.plain ++ ["config"]) ++ ["profiles"])
                 Demo.library)) ↔
         ∃ name, name ∈ names ∧ profile_path Demo.plain name = f.
Proof.
  apply (listed_profiles_resolve Demo.plain Demo.shell Demo.library).
  - intros f Hf. apply list_elem_of_singleton in Hf as ->.
    exists "gytmdl". split; [reflexivity|]. split; [discriminate|reflexivity].
  - intros f Hf. apply list_elem_of_singleton in Hf as ->.
    exists "classical". split; [reflexivity|]. split; [discriminate|reflexivity].
Defined.

Lemma fix_all_clean_installation_witness :
  fix_all Demo.plain Demo.shell Demo.library =
    (Ret 0,
     emit (Log INFO "No fixes needed - all profiles are OK")
       (emit (Log INFO "Fixing all profile configurations...") Demo.library)).
Proof.
  apply (fix_all_clean_installation Demo.plain Demo.shell Demo.library).
  intros d s' p _ Hp. unfold Demo.shell in Hp. cbn [glob_json] in Hp.
  repeat case_bool_decide; try (by apply elem_of_nil in Hp);
    apply list_elem_of_singleton in Hp as ->;
    exists Demo.clean_fields; (split; [reflexivity|]);
    (split; [unfold Demo.plain; simpl; set_solver|]); split; reflexivity.
Defined.

Lemma fix_each_repairs_all_witness :
  let d := ["opt"; "ytdl"; "config"] in
  let other := d ++ ["other.json"] in
  let s := Sample.world (<[other := Json (JObj Demo.clean_fields)]>
                           (Sample.installed (JObj Demo.legacy_fields))) 0 in
  ∃ n' s', fix_each Demo.plain Path.name [Sample.cfg; other] 0 s = (Ret n', s') ∧
    ∀ p config, p ∈ [Sample.cfg; other] → files s !! p = Some (Json (JObj config)) →
      p ∉ unreadable Demo.plain → p ∉ unwritable Demo.plain → template_is_text config →
      ∃ config', files s' !! p = Some (Json (JObj config')) ∧
                 is_aria2c config' = false.
Proof.
  intros d other s.
  apply (fix_each_repairs_all Demo.plain Path.name d [Sample.cfg; other] 0 s).
  - apply NoDup_cons. split; [|apply NoDup_singleton].
    rewrite list_elem_of_singleton. discriminate.
  - intros q Hq. apply elem_of_cons in Hq as [->|Hq].
    + by exists "gytmdl.json".
    + apply list_elem_of_singleton in Hq as ->. by exists "other.json".
Defined.

Lemma main_download_engine_budget_witness :
  let E := Sample.host (λ _, Exited 3) in
  let s := Demo.holding Demo.clean_fields in
  let run := main E Demo.shell ["ytdl.py"; "download"; "https://a"; "-p"] s in
  (runs s ≤ runs run.2 ≤ runs s + 3)%nat.
Proof.
  intros E s run.
  apply (main_download_engine_budget E Demo.shell "ytdl.py" "download"
           ["https://a"; "-p"] s run.1 run.2).
  - reflexivity.
  - apply surjective_pairing.
Defined.

(** ** With [stat] denied *)

(** With no [stat] denied the strict functions are the ones of the first
    embedding. *)
Lemma strict_path_exists_granted p : Strict.path_exists ∅ p = path_exists p.
Proof. reflexivity. Qed.

Lemma strict_start_server_granted E : Strict.start_server E ∅ = start_server E.
Proof. reflexivity. Qed.

Lemma strict_fix_all_granted E L : Strict.fix_all E L ∅ = fix_all E L.
Proof. reflexivity. Qed.

Lemma strict_check_granted E L : Strict.check E L ∅ = check E L.
Proof. reflexivity. Qed.

(** X10: [start_server] returns 0 or 1, or raises the [PermissionError]
    of [server_path.exists()], and that exactly when the fast path is not
    taken and the [stat] of the server file is denied; whatever
    [terminate] and [Popen] raise is caught.  It calls [terminate] exactly
    when a process was found and the probe failed, calls [Popen] exactly
    when the fast path was not taken and [exists()] answered [True],
    sleeps at most 3 seconds, and leaves the files alone. *)
Theorem start_server_attempts E denied s :
  ∃ r s', Strict.start_server E denied s = (r, s') ∧
    (r = Ret 0 ∨ r = Ret 1 ∨ r = Raise PermissionError) ∧
    (r = Raise PermissionError ↔
     fast_path E s = false ∧ server_path E ∈ denied) ∧
    files s' = files s ∧ runs s' = runs s ∧ checks s' = checks s ∧
    kills s' = (if stale E s then S (kills s) else kills s) ∧
    spawns s' =
      (if negb (fast_path E s) && negb (bool_decide (server_path E ∈ denied)) &&
          bool_decide (is_Some (files s !! server_path E))
       then S (spawns s) else spawns s) ∧
    clock s ≤ clock s' ≤ clock s + 3.
Proof.
  unfold stale, fast_path, found_running.
  destruct (Strict.start_server E denied s) as [r s'] eqn:H. revert H.
  unfold Strict.start_server, Strict.launch_server, Strict.path_exists,
    is_server_running, check_server_health,
    terminate, Popen, log_info, log_warn, log_error, log_success, log, sleep,
    path_exists, try_catch, except_Exception, except_all, bind, ret, raise.
  intros H.
  repeat (case_match; simplify_eq/=);
    (eexists _, _; split; [reflexivity|]); simpl;
    repeat match goal with H : bool_decide _ = _ |- _ => rewrite H end;
    repeat match goal with H : bool_decide _ = true |- _ =>
             apply bool_decide_eq_true_1 in H end;
    repeat match goal with H : bool_decide _ = false |- _ =>
             apply bool_decide_eq_false_1 in H end;
    (split; [auto|]); (split; [split; [intros ?; try done; auto|intros [? ?]; try done]|]);
    repeat split; auto; lia.
Qed.



(** What the strict [fix-all] does whatever it finds. *)
Lemma strict_fix_all_inv E L denied s :
  let config_dir := root_dir E ++ ["config"] in
  let profiles_dir := config_dir ++ ["profiles"] in
  ∃ r s', Strict.fix_all E L denied s = (r, s') ∧
    runs s' = runs s ∧ checks s' = checks s ∧
    (∀ q, is_Some (files s !! q) → is_Some (files s' !! q)) ∧
    (((config_dir ∉ denied) ∧ (profiles_dir ∉ denied) ∧ r = Ret 0 ∧
      ∃ n, last (console s') =
             Some (if (n =? 0)%nat
                   then Log INFO "No fixes needed - all profiles are OK"
                   else Log SUCCESS ("Fixed " +:+ pretty n +:+ " profile(s)"))) ∨
     ((config_dir ∈ denied ∨ profiles_dir ∈ denied) ∧ r = Raise PermissionError)).
Proof.
  intros config_dir profiles_dir. unfold Strict.fix_all.
  fold config_dir. fold profiles_dir.
  erewrite bind_Ret by reflexivity.
  set (s0 := emit (Log INFO "Fixing all profile configurations...") s).
  destruct (decide (config_dir ∈ denied)) as [Hc|Hc].
  { erewrite bind_Raise; cycle 1.
    { unfold Strict.glob. rewrite bool_decide_eq_true_2 by done. reflexivity. }
    eexists _, _. split; [reflexivity|]. simpl. auto 10. }
  erewrite bind_Ret; cycle 1.
  { unfold Strict.glob. rewrite bool_decide_eq_false_2 by done. reflexivity. }
  match goal with |- context [bind (fix_each E ?l ?fs ?n) _ ?s0] =>
    destruct (fix_each E l fs n s0) as [r1 s1] eqn:H1;
    pose proof H1 as H1'; apply fix_each_inv in H1'
      as (n1 & -> & _ & (Hr1 & Hc1 & Hm1 & _)) end.
  rewrite (bind_Ret _ _ _ _ _ H1).
  destruct (decide (profiles_dir ∈ denied)) as [Hp|Hp].
  { erewrite bind_Raise; cycle 1.
    { unfold Strict.is_dir. rewrite bool_decide_eq_true_2 by done. reflexivity. }
    eexists _, _. split; [reflexivity|]. simpl in *. auto 10. }
  erewrite bind_Ret; cycle 1.
  { unfold Strict.is_dir. rewrite bool_decide_eq_false_2 by done. reflexivity. }
  assert (∃ n2 s2,
    (if dir_exists L profiles_dir s1
     then bind (Strict.glob L denied profiles_dir)
            (λ subs, fix_each E (λ f, "profiles/" +:+ Path.name f) subs n1)
     else ret n1) s1 = (Ret n2, s2) ∧
    runs s2 = runs s1 ∧ checks s2 = checks s1 ∧
    (∀ q, is_Some (files s1 !! q) → is_Some (files s2 !! q)))
    as (n2 & s2 & H2 & Hr2 & Hc2 & Hm2).
  { destruct (dir_exists L _ s1).
    - erewrite bind_Ret; cycle 1.
      { unfold Strict.glob. rewrite bool_decide_eq_false_2 by done. reflexivity. }
      match goal with |- context [fix_each E ?l ?fs ?n s1] =>
        destruct (fix_each E l fs n s1) as [r s2] eqn:H2;
        pose proof H2 as H2'; apply fix_each_inv in H2'
          as (n2 & -> & _ & (Hr2 & Hc2 & Hm2 & _)) end.
      by exists n2, s2.
    - by exists n1, s1. }
  rewrite (bind_Ret _ _ _ _ _ H2).
  simpl in *.
  exists (Ret 0),
    (emit (if (n2 =? 0)%nat
           then Log INFO "No fixes needed - all profiles are OK"
           else Log SUCCESS ("Fixed " +:+ pretty n2 +:+ " profile(s)")) s2).
  split; [destruct (n2 =? 0)%nat; reflexivity|]. simpl.
  split; [congruence|]. split; [congruence|]. split; [auto|].
  left. split; [done|]. split; [done|]. split; [done|].
  exists n2. apply last_snoc.
Qed.


Lemma strict_main_dispatch E L denied argv0 argv1 args command body :
  str_lower L argv1 = command →
  (if bool_decide (command ∈ ["help"; "-h"; "--help"; "?"]) then ret 0
   else if String.eqb command "download" then
     match args with
     | [] => bind (log_error "URL required") (λ _, ret 1)
     | url :: opts => Strict.download_single E L denied url (profile_option opts) true 2
     end
   else if String.eqb command "batch" then
     match args with
     | [] => bind (log_error "URL list file required") (λ _, ret 1)
     | list_file :: opts =>
         Strict.download_batch E L denied list_file (profile_option opts) true
     end
   else if String.eqb command "server" then Strict.start_server E denied
   else if String.eqb command "profiles" then Strict.list_profiles E L denied
   else if String.eqb command "fix-all" then Strict.fix_all E L denied
   else if String.eqb command "check" then Strict.check E L denied
   else bind (log_error ("Unknown command: " +:+ command)) (λ _, ret 1)) = body →
  Strict.main E L denied (argv0 :: argv1 :: args) = body.
Proof. intros <- <-. reflexivity. Qed.

(** X23: the [fix-all] command returns 0, or raises the
    [PermissionError] of a [stat] that is denied, and that exactly when
    the [stat] of [config] or of [config/profiles] is; whatever the
    directories list and whatever the files hold, no repair raises.  It
    runs no subprocess and removes no file, and when it returns its last
    line is the count of the repairs or the all-clear. *)
Theorem main_fix_all_outcome E L denied argv0 argv1 args s :
  let config_dir := root_dir E ++ ["config"] in
  let profiles_dir := config_dir ++ ["profiles"] in
  str_lower L argv1 = "fix-all" →
  ∃ r s', Strict.main E L denied (argv0 :: argv1 :: args) s = (r, s') ∧
    (r = Ret 0 ∨ r = Raise PermissionError) ∧
    (r = Raise PermissionError ↔ config_dir ∈ denied ∨ profiles_dir ∈ denied) ∧
    (r = Ret 0 →
     last (console s') = Some (Log INFO "No fixes needed - all profiles are OK") ∨
     ∃ n, (0 < n)%nat ∧
          last (console s') = Some (Log SUCCESS ("Fixed " +:+ pretty n +:+ " profile(s)"))) ∧
    runs s' = runs s ∧ checks s' = checks s ∧
    (∀ q, is_Some (files s !! q) → is_Some (files s' !! q)).
Proof.
  intros config_dir profiles_dir Hcmd.
  rewrite (strict_main_dispatch E L denied argv0 argv1 args "fix-all"
             (Strict.fix_all E L denied) Hcmd eq_refl).
  destruct (strict_fix_all_inv E L denied s)
    as (r & s' & H & Hr & Hc & Hm & [(Hnc & Hnp & -> & n & Hlast)|(Hden & ->)]).
  - exists (Ret 0), s'. split; [done|]. split; [auto|].
    split; [split; [done|by intros [?|?]]|].
    split; [|done]. intros _.
    destruct (Nat.eqb_spec n 0); [by left|right]. exists n. split; [lia|done].
  - exists (Raise PermissionError), s'. split; [done|]. split; [auto|].
    split; [done|]. split; [done|done].
Qed.



(** *** Worked examples *)

Lemma main_fix_all_outcome_witness :
  let s := Demo.holding Demo.legacy_fields in
  ∃ r s', Strict.main Demo.plain Demo.shell Demo.locked ["ytdl.py"; "Fix-All"] s =
            (r, s') ∧
    (r = Ret 0 ∨ r = Raise PermissionError) ∧
    (r = Raise PermissionError ↔
     root_dir Demo.plain ++ ["config"] ∈ Demo.locked ∨
     (root_dir Demo.plain ++ ["config"]) ++ ["profiles"] ∈ Demo.locked) ∧
    (r = Ret 0 →
     last (console s') = Some (Log INFO "No fixes needed - all profiles are OK") ∨
     ∃ n, (0 < n)%nat ∧
          last (console s') = Some (Log SUCCESS ("Fixed " +:+ pretty n +:+ " profile(s)"))) ∧
    runs s' = runs s ∧ checks s' = checks s ∧
    (∀ q, is_Some (files s !! q) → is_Some (files s' !! q)).
Proof.
  intros s.
  apply (main_fix_all_outcome Demo.plain Demo.shell Demo.locked "ytdl.py" "Fix-All" [] s).
  reflexivity.
Defined.


